(** * TracPoll: the poll state machine of [index.js]

    A shallow embedding of the [TracPoll] class: the in-memory poll store, the
    three message handlers [_onCreate], [_onVote], [_onClose], the dispatcher
    [_handleMessage], the listener installed by [attach] and the query
    surface, followed by the properties of the poll lifecycle.

    JavaScript values are modelled as far as the handlers look at them: a
    payload is a decoded message, so its fields may be anything, among them
    objects that have no string form. *)

From Stdlib Require Import List Bool Arith ZArith QArith Lia String Ascii.
From Stdlib Require Import Permutation.
From Stdlib.Strings Require Import Byte.
Import ListNotations.

Set Warnings "-register-all".
Local Open Scope string_scope.
Local Open Scope list_scope.
Local Open Scope Z_scope.

(* ================================================================== *)
(** ** JavaScript numbers *)

(** A number is [NaN], an infinity or a finite double.  A finite double is
    kept as the rational it denotes (every double is one; [-0] and [+0] are the
    same rational, and the handlers cannot tell them apart: both are [< 0]
    false, [>= n] false for [n > 0], and both name the array slot ["0"]). The
    only arithmetic the handlers do is [++] on a count. *)
Inductive number : Type :=
| NaN
| Infinity (negative : bool)
| Fin (q : Q).

Definition of_int (z : Z) : number := Fin (inject_Z z).
Definition of_nat (n : nat) : number := of_int (Z.of_nat n).

(** [x < y] *)
Definition num_lt (x y : number) : bool :=
  match x, y with
  | NaN, _ | _, NaN => false
  | Infinity true, Infinity true => false
  | Infinity true, _ => true
  | _, Infinity true => false
  | Infinity false, _ => false
  | _, Infinity false => true
  | Fin a, Fin b => negb (Qle_bool b a)
  end.

(** [x <= y] *)
Definition num_le (x y : number) : bool :=
  match x, y with
  | NaN, _ | _, NaN => false
  | Infinity true, _ => true
  | _, Infinity true => false
  | _, Infinity false => true
  | Infinity false, _ => false
  | Fin a, Fin b => Qle_bool a b
  end.

(** [x >= y] is [y <= x]. *)
Definition num_ge (x y : number) : bool := num_le y x.

(** [x === y] on numbers: [NaN] equals nothing. *)
Definition num_strict_eq (x y : number) : bool :=
  match x, y with
  | Infinity a, Infinity b => Bool.eqb a b
  | Fin a, Fin b => Qeq_bool a b
  | _, _ => false
  end.

(** SameValueZero on numbers (the key equality of [Map]): as [===] but
    [NaN] equals [NaN]. *)
Definition num_same_value_zero (x y : number) : bool :=
  match x, y with
  | NaN, NaN => true
  | _, _ => num_strict_eq x y
  end.

(** [x + 1], as [x++] computes it. *)
Definition num_succ (x : number) : number :=
  match x with
  | Fin q => Fin (q + 1)%Q
  | other => other
  end.

(** The array index a number names when used as [a[x]]: the property key
    is [ToString(x)], which is an array index exactly when [x] is an integer in
    [0, 2^32 - 1). Any other number names an ordinary property. *)
Definition array_index (x : number) : option nat :=
  match x with
  | Fin q =>
      let n := Qnum q in
      let d := Zpos (Qden q) in
      if (n mod d =? 0) && (0 <=? n / d) && (n / d <? 2 ^ 32 - 1)
      then Some (Z.to_nat (n / d))
      else None
  | _ => None
  end.

(* ================================================================== *)
(** ** JavaScript values *)

(** The values a decoded message holds.  Objects and arrays carry the
    identity of the object ([ref]): [===] and the [Map] key equality compare
    objects by identity, not by content.  Payloads are not mutated by the
    handlers, so contents are kept in place. *)
Inductive value : Type :=
| VUndefined
| VNull
| VBool (b : bool)
| VNumber (n : number)
| VString (s : string)
| VArray (ref : nat) (elems : list value)
| VObject (ref : nat) (props : list (string * value)).

(** ToBoolean, as [!v] and [v || w] use it. *)
Definition truthy (v : value) : bool :=
  match v with
  | VUndefined | VNull => false
  | VBool b => b
  | VNumber NaN => false
  | VNumber (Infinity _) => true
  | VNumber (Fin q) => negb (Qnum q =? 0)
  | VString s => negb (String.eqb s EmptyString)
  | VArray _ _ | VObject _ _ => true
  end.

(** [v || w] *)
Definition js_or (v w : value) : value := if truthy v then v else w.

(** [v === w] *)
Definition strict_eq (v w : value) : bool :=
  match v, w with
  | VUndefined, VUndefined => true
  | VNull, VNull => true
  | VBool a, VBool b => Bool.eqb a b
  | VNumber a, VNumber b => num_strict_eq a b
  | VString a, VString b => String.eqb a b
  | VArray r _, VArray r' _ => Nat.eqb r r'
  | VObject r _, VObject r' _ => Nat.eqb r r'
  | _, _ => false
  end.

(** SameValueZero, the key equality of [Map.prototype.has/get/set]. *)
Definition same_value_zero (v w : value) : bool :=
  match v, w with
  | VNumber a, VNumber b => num_same_value_zero a b
  | _, _ => strict_eq v w
  end.

(** [Array.isArray(v)] *)
Definition is_array (v : value) : bool :=
  match v with
  | VArray _ _ => true
  | _ => false
  end.

(** The elements of an array; the handlers read them only after
    [Array.isArray] has answered true. *)
Definition array_elems (v : value) : list value :=
  match v with
  | VArray _ elems => elems
  | _ => []
  end.

(** [typeof v === 'number'] *)
Definition is_number (v : value) : bool :=
  match v with
  | VNumber _ => true
  | _ => false
  end.

(** The number a value is; the handlers compare it only behind
    [typeof v !== 'number' ||], which short-circuits on anything else. *)
Definition as_number (v : value) : number :=
  match v with
  | VNumber n => n
  | _ => NaN
  end.

(** [v.name] for the field names the handlers read ([type], [id],
    [question], [options], [closes_at], [poll_id], [option_index]): an own
    property of an object, [undefined] on any other value that has
    properties.  On [null] and [undefined] there is nothing to read: see
    [nullish]. *)
Fixpoint lookup_prop (props : list (string * value)) (name : string) : value :=
  match props with
  | [] => VUndefined
  | (k, v) :: rest => if String.eqb k name then v else lookup_prop rest name
  end.

Definition get_prop (v : value) (name : string) : value :=
  match v with
  | VObject _ props => lookup_prop props name
  | _ => VUndefined
  end.

(** [null] and [undefined]: destructuring them ([const { id } = payload])
    throws a TypeError. *)
Definition nullish (v : value) : bool :=
  match v with
  | VUndefined | VNull => true
  | _ => false
  end.

(** Whether an object has an own property of that name. *)
Definition has_own (props : list (string * value)) (name : string) : bool :=
  existsb (fun kv => String.eqb (fst kv) name) props.

(** Whether [ToString(v)] gives a string, as a template literal needs for
    [${v}].  A decoded object with an own [toString] property has none: the
    property is not callable, and [valueOf] gives back the object, so the
    conversion throws a TypeError.  An array is joined from the strings of
    its elements ([null] and [undefined] give the empty string). *)
Fixpoint printable (v : value) : bool :=
  match v with
  | VArray _ elems => forallb printable elems
  | VObject _ props => negb (has_own props "toString")
  | _ => true
  end.

(* ================================================================== *)
(** ** [Map]: an insertion-ordered association without duplicate keys *)

Module JsMap.
Section Ops.
Variables (K V : Type) (key_eq : K -> K -> bool).

Definition t := list (K * V).

Definition empty : t := [].

Fixpoint get (m : t) (k : K) : option V :=
  match m with
  | [] => None
  | (k', v) :: rest => if key_eq k' k then Some v else get rest k
  end.

Definition has (m : t) (k : K) : bool :=
  match get m k with Some _ => true | None => false end.

(** [set] overwrites the value of a key that is present, in its place, and
    appends a new key at the end. *)
Fixpoint set (m : t) (k : K) (v : V) : t :=
  match m with
  | [] => [(k, v)]
  | (k', v') :: rest =>
      if key_eq k' k then (k', v) :: rest else (k', v') :: set rest k v
  end.

Definition size (m : t) : nat := List.length m.
Definition keys (m : t) : list K := map fst m.
Definition values (m : t) : list V := map snd m.
End Ops.
Arguments empty {K V}.
Arguments get {K V} key_eq m k.
Arguments has {K V} key_eq m k.
Arguments set {K V} key_eq m k v.
Arguments size {K V} m.
Arguments keys {K V} m.
Arguments values {K V} m.
End JsMap.

(* ================================================================== *)
(** ** Poll records *)

(** [poll.meta]. [options] holds the elements of the array the create payload
    carried: a record is built only after [Array.isArray(options)]. *)
Record Meta : Type := {
  question : value;
  options : list value;
  closes_at : value;
  creator : string;
  created_at : Z
}.

(** The [tallies] array: its indexed slots, [None] for a hole.  A property
    written under a key that is not an array index does not touch the slots,
    and neither spread, [indexOf], [forEach] nor [JSON.stringify] sees it. *)
Definition cells := list (option number).

Record Result : Type := {
  tallies : cells;
  total_votes : nat;
  closed_at : Z;
  winner_index : Z;
  winner_option : value
}.

(** A poll: [votes] maps [senderHex] to the recorded [option_index]; the
    [result] property is absent until the poll is closed. *)
Record Poll : Type := {
  meta : Meta;
  votes : JsMap.t string number;
  closed : bool;
  result : option Result
}.

(** [this.polls] *)
Definition store := JsMap.t value Poll.

(* ================================================================== *)
(** ** What a handler does to the outside *)

(** A template literal, kept as its parts. *)
Inductive part : Type :=
| Lit (s : string)
| Interp (v : value).

Definition template := list part.


(** The object handed to [JSON.stringify] for a [contractPut]. *)
Inductive document : Type :=
| MetaDoc (question : value) (options : list value) (created_at : Z)
| ResultDoc (r : Result).

(** The [poll:result] announcement. *)
Record ResultMessage : Type := {
  msg_type : string;
  msg_poll_id : value;
  msg_question : value;
  msg_options : list value;
  msg_result : Result
}.

(** Console lines, by the statement that prints them, with the values they
    interpolate.  [senderHex] is printed as [senderHex.slice(0, 8)]. *)
Inductive console_line : Type :=
| Log_attached (channel : value)
| Warn_create_invalid
| Warn_create_exists (id : value)
| Log_created (question id : value) (n_options : nat)
| Warn_vote_unknown (poll_id : value)
| Warn_vote_closed (poll_id : value)
| Warn_vote_invalid_index (option_index : value)
| Warn_vote_duplicate (senderHex : string)
| Log_vote_recorded (poll_id : value) (option_index : number)
    (senderHex : string) (n_votes : nat)
| Warn_close_unknown (poll_id : value)
| Warn_close_closed (poll_id : value)
| Log_closed (poll_id : value)
| Log_option (i : nat) (opt : value) (tally : option number)
| Log_winner (winner_option : value) (tally : option number)
| Log_committed (poll_id : value)
| Warn_no_contractPut
| Error_handler.

(** The payload values a line converts to strings with [${...}], in the
    order of the template (numbers and strings always convert). *)
Definition line_values (l : console_line) : list value :=
  match l with
  | Log_attached channel => [channel]
  | Warn_create_invalid => []
  | Warn_create_exists id => [id]
  | Log_created question id _ => [question; id]
  | Warn_vote_unknown poll_id => [poll_id]
  | Warn_vote_closed poll_id => [poll_id]
  | Warn_vote_invalid_index option_index => [option_index]
  | Warn_vote_duplicate _ => []
  | Log_vote_recorded poll_id _ _ _ => [poll_id]
  | Warn_close_unknown poll_id => [poll_id]
  | Warn_close_closed poll_id => [poll_id]
  | Log_closed poll_id => [poll_id]
  | Log_option _ opt _ => [opt]
  | Log_winner winner_option _ => [winner_option]
  | Log_committed poll_id => [poll_id]
  | Warn_no_contractPut => []
  | Error_handler => []
  end.

Inductive effect : Type :=
| Console (line : console_line)
| ContractPut (key : template) (doc : document)
| SendSidechannel (channel : value) (msg : ResultMessage).

(** An effect together with the poll store as it is when the effect happens:
    what [getPoll] would answer at that moment. *)
Record observed : Type := {
  what : effect;
  seen : store
}.

Definition trace := list observed.

(** The peer handed to [attach]: each method may be missing; when called it
    either fulfils ([true]) or throws or rejects ([false]). *)
Record Peer : Type := {
  contractPut : option (template -> document -> bool);
  sendSidechannel : option (value -> ResultMessage -> bool)
}.

(** The [TracPoll] instance. *)
Record TracPoll : Type := {
  polls : store;
  peer : option Peer;
  channel : value
}.

(** [new TracPoll()] *)
Definition new_TracPoll : TracPoll :=
  {| polls := JsMap.empty; peer := None; channel := VUndefined |}.

Definition with_polls (this : TracPoll) (ps : store) : TracPoll :=
  {| polls := ps; peer := peer this; channel := channel this |}.

(* ================================================================== *)
(** ** The handler monad: instance state, trace, exceptions *)

Inductive completion (A : Type) : Type :=
| Returned (a : A)
| Thrown.
Arguments Returned {A} a.
Arguments Thrown {A}.

Definition M (A : Type) : Type := TracPoll -> completion A * TracPoll * trace.

Definition ret {A} (a : A) : M A := fun this => (Returned a, this, []).

Definition bind {A B} (m : M A) (k : A -> M B) : M B :=
  fun this =>
    match m this with
    | (Returned a, this1, t1) =>
        match k a this1 with
        | (c, this2, t2) => (c, this2, t1 ++ t2)
        end
    | (Thrown, this1, t1) => (Thrown, this1, t1)
    end.

Notation "x <- m ;; k" := (bind m (fun x => k))
  (at level 61, m at next level, right associativity).
Notation "m ;;; k" := (bind m (fun _ => k))
  (at level 61, right associativity).

Definition get_this : M TracPoll := fun this => (Returned this, this, []).

Definition set_polls (ps : store) : M unit :=
  fun this => (Returned tt, with_polls this ps, []).

Definition emit (e : effect) : M unit :=
  fun this => (Returned tt, this, [{| what := e; seen := polls this |}]).

Definition throw {A} : M A := fun this => (Thrown, this, []).

(** Building a template literal: it throws a TypeError when one of the
    interpolated values has no string form. *)
Definition interpolate (vs : list value) : M unit :=
  if forallb printable vs then ret tt else throw.

(** [console.log(`...`)], [console.warn(`...`)]: the template is built, then
    the line is printed. *)
Definition console (l : console_line) : M unit :=
  interpolate (line_values l) ;;; emit (Console l).

(** [await f(...)]: the call is made, then the handler goes on or throws. *)
Definition await (e : effect) (fulfils : bool) : M unit :=
  emit e ;;; if fulfils then ret tt else throw.

(** [for (x of xs) body(x)] *)
Fixpoint for_each {A} (xs : list A) (body : A -> M unit) : M unit :=
  match xs with
  | [] => ret tt
  | x :: rest => body x ;;; for_each rest body
  end.

(* ================================================================== *)
(** ** The tally array *)

(** [new Array(n).fill(0)] *)
Definition zero_filled (n : nat) : cells := repeat (Some (of_int 0)) n.

(** [a[k]] for an array index [k]: [None] is [undefined], from a hole or
    from beyond the length. *)
Definition get_cell (a : cells) (k : nat) : option number := nth k a None.

(** [a[k] = v] for an array index [k]: a write beyond the length extends
    the array, leaving holes below [k]. *)
Fixpoint set_cell (a : cells) (k : nat) (v : number) : cells :=
  match a, k with
  | [], O => [Some v]
  | [], S k' => None :: set_cell [] k' v
  | _ :: rest, O => Some v :: rest
  | c :: rest, S k' => c :: set_cell rest k' v
  end.

(** ToNumber of what a slot reads as: [undefined] is [NaN]. *)
Definition cell_number (c : option number) : number :=
  match c with
  | Some n => n
  | None => NaN
  end.

(** [a[x]++] for a number [x]: under an array index the slot is replaced by
    its successor; under any other key the slots are left alone. *)
Definition increment (a : cells) (x : number) : cells :=
  match array_index x with
  | Some k => set_cell a k (num_succ (cell_number (get_cell a k)))
  | None => a
  end.

(** [Math.max(...xs)]: [-Infinity] for no argument, [NaN] as soon as one
    argument is [NaN]. *)
Definition max2 (a b : number) : number :=
  match a, b with
  | NaN, _ | _, NaN => NaN
  | _, _ => if num_lt a b then b else a
  end.

Definition Math_max (xs : list number) : number :=
  fold_left max2 xs (Infinity true).

(** [...a]: every slot up to the length, a hole read as [undefined]. *)
Definition spread (a : cells) : list number := map cell_number a.

(** [a.indexOf(v)]: the first slot strictly equal to [v], holes skipped,
    [-1] when there is none. *)
Fixpoint indexOf_from (a : cells) (v : number) (i : Z) : Z :=
  match a with
  | [] => -1
  | Some x :: rest => if num_strict_eq x v then i else indexOf_from rest v (i + 1)
  | None :: rest => indexOf_from rest v (i + 1)
  end.

Definition indexOf (a : cells) (v : number) : Z := indexOf_from a v 0.

(** [xs[i]] for the integer [i] that [indexOf] returned. *)
Definition element_at {A} (xs : list A) (i : Z) (undefined : A) : A :=
  if i <? 0 then undefined else nth (Z.to_nat i) xs undefined.

(** The tally loop of [_onClose]. *)
Definition count_votes (n_options : nat) (vs : JsMap.t string number) : cells :=
  fold_left increment (JsMap.values vs) (zero_filled n_options).

(* ================================================================== *)
(** ** Sender keys *)

(** [senderKey] is a [Buffer] or something else, known by what [String(...)]
    makes of it. *)
Inductive senderKey : Type :=
| KeyBuffer (bytes : list byte)
| KeyOther (as_string : string).

Definition hex_digit (n : nat) : ascii :=
  nth n ["0"; "1"; "2"; "3"; "4"; "5"; "6"; "7"; "8"; "9";
         "a"; "b"; "c"; "d"; "e"; "f"]%char "0"%char.

Definition hex_of_byte (b : byte) : string :=
  let n := Byte.to_nat b in
  String (hex_digit (n / 16)) (String (hex_digit (n mod 16)) EmptyString).

(** [buf.toString('hex')] *)
Definition to_hex (bytes : list byte) : string :=
  String.concat "" (map hex_of_byte bytes).

Definition sender_hex (k : senderKey) : string :=
  match k with
  | KeyBuffer bytes => to_hex bytes
  | KeyOther s => s
  end.

(* ================================================================== *)
(** ** The handlers *)

Definition polls_get (ps : store) (id : value) : option Poll :=
  JsMap.get same_value_zero ps id.

Definition polls_has (ps : store) (id : value) : bool :=
  JsMap.has same_value_zero ps id.

Definition polls_set (ps : store) (id : value) (p : Poll) : store :=
  JsMap.set same_value_zero ps id p.

(** [_onCreate (payload, senderHex)]; [now] is what [Date.now()] answers. *)
Definition _onCreate (payload : value) (senderHex : string) (now : Z) : M unit :=
  if nullish payload then throw else
  let id := get_prop payload "id" in
  let question := get_prop payload "question" in
  let options := get_prop payload "options" in
  let closes_at := get_prop payload "closes_at" in
  if negb (truthy id) || negb (truthy question) || negb (is_array options)
     || (List.length (array_elems options) <? 2)%nat
  then console Warn_create_invalid
  else
    this <- get_this ;;
    if polls_has (polls this) id
    then console (Warn_create_exists id)
    else
      set_polls (polls_set (polls this) id
        {| meta := {| question := question;
                      options := array_elems options;
                      closes_at := js_or closes_at VNull;
                      creator := senderHex;
                      created_at := now |};
           votes := JsMap.empty;
           closed := false;
           result := None |}) ;;;
      console (Log_created question id (List.length (array_elems options))).

(** [_onVote (payload, senderHex)] *)
Definition _onVote (payload : value) (senderHex : string) : M unit :=
  if nullish payload then throw else
  let poll_id := get_prop payload "poll_id" in
  let option_index := get_prop payload "option_index" in
  this <- get_this ;;
  match polls_get (polls this) poll_id with
  | None => console (Warn_vote_unknown poll_id)
  | Some poll =>
      if closed poll
      then console (Warn_vote_closed poll_id)
      else if negb (is_number option_index)
              || num_lt (as_number option_index) (of_int 0)
              || num_ge (as_number option_index)
                   (of_nat (List.length (options (meta poll))))
      then console (Warn_vote_invalid_index option_index)
      else if JsMap.has String.eqb (votes poll) senderHex
      then console (Warn_vote_duplicate senderHex)
      else
        let votes' :=
          JsMap.set String.eqb (votes poll) senderHex (as_number option_index) in
        set_polls (polls_set (polls this) poll_id
          {| meta := meta poll; votes := votes';
             closed := closed poll; result := result poll |}) ;;;
        console (Log_vote_recorded poll_id (as_number option_index)
                   senderHex (JsMap.size votes'))
  end.

(** The [result] object built by [_onClose]. *)
Definition tally (poll : Poll) (now : Z) : Result :=
  let tallies := count_votes (List.length (options (meta poll))) (votes poll) in
  {| tallies := tallies;
     total_votes := JsMap.size (votes poll);
     closed_at := now;
     winner_index := indexOf tallies (Math_max (spread tallies));
     winner_option :=
       element_at (options (meta poll))
         (indexOf tallies (Math_max (spread tallies))) VUndefined |}.

Definition meta_key (poll_id : value) : template :=
  [Lit "polls/"; Interp poll_id; Lit "/meta"].

Definition result_key (poll_id : value) : template :=
  [Lit "polls/"; Interp poll_id; Lit "/result"].

(** [options.forEach((opt, i) => body)] *)
Fixpoint for_each_indexed {A} (xs : list A) (i : nat) (body : A -> nat -> M unit)
  : M unit :=
  match xs with
  | [] => ret tt
  | x :: rest => body x i ;;; for_each_indexed rest (S i) body
  end.

(** [_onClose (payload, senderHex)]; [now] is what [Date.now()] answers. *)
Definition _onClose (payload : value) (senderHex : string) (now : Z) : M unit :=
  if nullish payload then throw else
  let poll_id := get_prop payload "poll_id" in
  this <- get_this ;;
  match polls_get (polls this) poll_id with
  | None => console (Warn_close_unknown poll_id)
  | Some poll =>
      if closed poll
      then console (Warn_close_closed poll_id)
      else
        let result := tally poll now in
        set_polls (polls_set (polls this) poll_id
          {| meta := meta poll; votes := votes poll;
             closed := true; result := Some result |}) ;;;
        console (Log_closed poll_id) ;;;
        for_each_indexed (options (meta poll)) 0%nat
          (fun opt i => console (Log_option i opt (get_cell (tallies result) i))) ;;;
        console (Log_winner (winner_option result)
                   (element_at (tallies result) (winner_index result) None)) ;;;
        match peer this with
        | Some {| contractPut := Some put |} =>
            let doc := MetaDoc (question (meta poll)) (options (meta poll))
                         (created_at (meta poll)) in
            interpolate [poll_id] ;;;
            await (ContractPut (meta_key poll_id) doc)
                  (put (meta_key poll_id) doc) ;;;
            interpolate [poll_id] ;;;
            await (ContractPut (result_key poll_id) (ResultDoc result))
                  (put (result_key poll_id) (ResultDoc result)) ;;;
            console (Log_committed poll_id)
        | _ => console Warn_no_contractPut
        end ;;;
        match peer this with
        | Some {| sendSidechannel := Some send |} =>
            let msg := {| msg_type := "poll:result";
                          msg_poll_id := poll_id;
                          msg_question := question (meta poll);
                          msg_options := options (meta poll);
                          msg_result := result |} in
            await (SendSidechannel (channel this) msg) (send (channel this) msg)
        | _ => ret tt
        end
  end.

(** [_handleMessage (payload, senderKey)] *)
Definition _handleMessage (payload : value) (key : senderKey) (now : Z) : M unit :=
  if negb (truthy payload) || negb (truthy (get_prop payload "type"))
  then ret tt
  else
    let senderHex := sender_hex key in
    let type := get_prop payload "type" in
    if strict_eq type (VString "poll:create") then _onCreate payload senderHex now
    else if strict_eq type (VString "poll:vote") then _onVote payload senderHex
    else if strict_eq type (VString "poll:close") then _onClose payload senderHex now
    else ret tt.

(** The callback an [attach] call registers for ['sidechannel:message'].
    [captured] is the [channel] parameter of that call, which the callback
    closes over: a message of another channel is skipped, a handler that
    throws is reported on the console and goes no further. *)
Definition on_message (captured : value) (ch payload : value) (key : senderKey)
  (now : Z) : M unit :=
  fun this =>
    if negb (strict_eq ch captured)
    then (Returned tt, this, [])
    else
      match _handleMessage payload key now this with
      | (Returned _, this', t) => (Returned tt, this', t)
      | (Thrown, this', t) =>
          (Returned tt, this',
           t ++ [{| what := Console Error_handler; seen := polls this' |}])
      end.

(** [attach (peer, channel = 'tracpoll-votes')].  The listener it registers
    on the peer is [on_message ch]: every call registers one more, and each
    keeps the channel of its own call. *)
Definition attach (p : Peer) (ch : value) : M unit :=
  let ch := match ch with VUndefined => VString "tracpoll-votes" | _ => ch end in
  (fun this =>
     (Returned tt, {| polls := polls this; peer := Some p; channel := ch |}, [])) ;;;
  console (Log_attached ch).

(** [getPoll (pollId)]: [None] is [null]. *)
Record Snapshot : Type := {
  snap_meta : Meta;
  snap_total_votes : nat;
  snap_closed : bool;
  snap_result : option Result
}.

Definition getPoll (this : TracPoll) (pollId : value) : option Snapshot :=
  match polls_get (polls this) pollId with
  | None => None
  | Some poll =>
      Some {| snap_meta := meta poll;
              snap_total_votes := JsMap.size (votes poll);
              snap_closed := closed poll;
              snap_result := result poll |}
  end.

(** [listPolls ()] *)
Definition listPolls (this : TracPoll) : list value := JsMap.keys (polls this).

(* ================================================================== *)
(** ** Running deliveries *)

(** One ['sidechannel:message'] event as one registered listener gets it:
    [d_captured] is the channel that listener closed over, [d_now] the clock
    reading its handler sees.  An event heard by several listeners is as
    many deliveries. *)
Record delivery : Type := {
  d_captured : value;
  d_channel : value;
  d_payload : value;
  d_senderKey : senderKey;
  d_now : Z
}.

Definition deliver (d : delivery) : M unit :=
  on_message (d_captured d) (d_channel d) (d_payload d) (d_senderKey d) (d_now d).

(** The instance after a sequence of deliveries, one handled after the
    other.  A handler touches the store only before its first [await]
    ([_onClose] alone awaits, and after that reads nothing but its own
    [result] and the poll's meta), so a delivery that arrives while a close
    is waiting on the peer finds the store this function gives it. *)
Definition run (ds : list delivery) (this : TracPoll) : TracPoll :=
  fold_left (fun st d => snd (fst (deliver d st))) ds this.

(** The state an instance is in once [attach] has been called on a fresh
    one. *)
Definition attached (p : Peer) (ch : value) : TracPoll :=
  snd (fst (attach p ch new_TracPoll)).

(** What a handler leaves behind when run on an instance. *)
Definition instance_after {A} (m : M A) (this : TracPoll) : TracPoll :=
  snd (fst (m this)).

Definition trace_of {A} (m : M A) (this : TracPoll) : trace := snd (m this).

Definition completion_of {A} (m : M A) (this : TracPoll) : completion A :=
  fst (fst (m this)).

(** A computation that leaves the instance as it finds it. *)
Definition keeps_instance {A} (m : M A) : Prop :=
  forall this, instance_after m this = this.

(** An effect that leaves the process: a write to the replicated log or a
    broadcast. *)
Definition is_external (e : effect) : bool :=
  match e with
  | Console _ => false
  | ContractPut _ _ | SendSidechannel _ _ => true
  end.

Definition external_calls (t : trace) : list effect :=
  filter is_external (map what t).

(* ================================================================== *)
(** ** Vocabulary of the properties *)

(** An option index that is an integer in [0, n). *)
Definition is_valid_index (n : nat) (x : number) : bool :=
  match array_index x with
  | Some k => (k <? n)%nat
  | None => false
  end.

(** The condition under which [_onVote] gives up on [option_index]. *)
Definition index_refused (n : nat) (option_index : value) : bool :=
  negb (is_number option_index)
  || num_lt (as_number option_index) (of_int 0)
  || num_ge (as_number option_index) (of_nat n).

(** Whether the recorded option index [x] is the integer [i]. *)
Definition names_option (i : nat) (x : number) : bool :=
  match array_index x with
  | Some k => (k =? i)%nat
  | None => false
  end.

(** How many voters have [i] as their recorded option index. *)
Definition votes_for (i : nat) (vs : JsMap.t string number) : nat :=
  List.length (filter (names_option i) (JsMap.values vs)).

(** The counts [cs] with one more at position [k]. *)
Fixpoint bump (cs : list nat) (k : nat) : list nat :=
  match cs, k with
  | [], _ => []
  | c :: rest, O => S c :: rest
  | c :: rest, S k' => c :: bump rest k'
  end.

(** Counting the recorded votes per option in the integers: a recorded
    index that is no array index counts for no option. *)
Definition bump_at (cs : list nat) (x : number) : list nat :=
  match array_index x with
  | Some k => bump cs k
  | None => cs
  end.

Definition tally_counts (n_options : nat) (vs : JsMap.t string number)
  : list nat :=
  fold_left bump_at (JsMap.values vs) (repeat 0%nat n_options).

(** The position of the first [m] in [cs], from [i] on. *)
Fixpoint first_index_from (cs : list nat) (m : nat) (i : nat) : option nat :=
  match cs with
  | [] => None
  | c :: rest => if (c =? m)%nat then Some i else first_index_from rest m (S i)
  end.

(** The slots of a tally array that holds the counts [cs]. *)
Definition cells_of_counts (cs : list nat) : cells :=
  map (fun c => Some (of_nat c)) cs.

(** [w] is the smallest index at which the array [a] is largest. *)
Definition first_maximum (a : cells) (w : Z) : Prop :=
  0 <= w < Z.of_nat (List.length a) /\
  (forall j, (j < List.length a)%nat ->
     num_le (cell_number (get_cell a j))
            (cell_number (get_cell a (Z.to_nat w))) = true) /\
  (forall j, (j < Z.to_nat w)%nat ->
     num_lt (cell_number (get_cell a j))
            (cell_number (get_cell a (Z.to_nat w))) = true).

(** One step in the life of a poll record: [p] before, [p'] after. *)
Record evolves (p p' : Poll) : Prop := {
  ev_meta : meta p' = meta p;
  ev_votes_grow :
    exists more, votes p' = votes p ++ more /\ (closed p = true -> more = []);
  ev_closed_stays : closed p = true -> closed p' = true /\ result p' = result p;
  ev_result_with_close :
    closed p = false ->
    (closed p' = false /\ result p' = result p) \/
    (closed p' = true /\ votes p' = votes p /\ exists r, result p' = Some r)
}.

(** What holds of every record of a store built by the handlers. *)
Record poll_ok (p : Poll) : Prop := {
  ok_options : (2 <= List.length (options (meta p)))%nat;
  ok_voters : NoDup (JsMap.keys (votes p));
  ok_indices :
    Forall (fun x => index_refused (List.length (options (meta p))) (VNumber x) = false)
           (JsMap.values (votes p));
  ok_open : closed p = false -> result p = None;
  ok_closed : closed p = true -> result p = Some (tally p (match result p with
                                                           | Some r => closed_at r
                                                           | None => 0
                                                           end))
}.

Definition store_ok (ps : store) : Prop := Forall (fun kp => poll_ok (snd kp)) ps.

(* ------------------------------------------------------------------ *)
(** Sample messages and peers *)

Definition create_payload (id question options : value) : value :=
  VObject 0 [("type", VString "poll:create"); ("id", id);
             ("question", question); ("options", options)].

Definition vote_payload (poll_id option_index : value) : value :=
  VObject 0 [("type", VString "poll:vote"); ("poll_id", poll_id);
             ("option_index", option_index)].

Definition close_payload (poll_id : value) : value :=
  VObject 0 [("type", VString "poll:close"); ("poll_id", poll_id)].

(** A peer with both methods, which always fulfil. *)
Definition willing_peer : Peer :=
  {| contractPut := Some (fun _ _ => true);
     sendSidechannel := Some (fun _ _ => true) |}.

Definition votes_channel : value := VString "tracpoll-votes".

Definition message (payload : value) (sender : string) (now : Z) : delivery :=
  {| d_captured := votes_channel; d_channel := votes_channel;
     d_payload := payload;
     d_senderKey := KeyOther sender; d_now := now |}.

Definition strings (l : list string) : list value := map VString l.

Definition three_options : value := VArray 1 (strings ["A"; "B"; "C"]).

Definition nine_options : value :=
  VArray 1 (strings ["o1"; "o2"; "o3"; "o4"; "o5"; "o6"; "o7"; "o8"; "o9"]).


(* ------------------------------------------------------------------ *)
(** The handlers as a transition system on the store *)

(** The record [_onCreate] inserts. *)
Definition fresh_poll (question : value) (options : list value)
  (closes_at : value) (creator : string) (created_at : Z) : Poll :=
  {| meta := {| question := question; options := options;
                closes_at := closes_at; creator := creator;
                created_at := created_at |};
     votes := JsMap.empty; closed := false; result := None |}.

(** The record [_onVote] leaves after [votes.set(senderHex, x)]. *)
Definition with_vote (p : Poll) (senderHex : string) (x : number) : Poll :=
  {| meta := meta p; votes := JsMap.set String.eqb (votes p) senderHex x;
     closed := closed p; result := result p |}.

(** The record [_onClose] leaves. *)
Definition closed_with (p : Poll) (r : Result) : Poll :=
  {| meta := meta p; votes := votes p; closed := true; result := Some r |}.

(** What one delivery can do to the store. *)
Inductive store_step : store -> store -> Prop :=
| step_dropped : forall ps, store_step ps ps
| step_created : forall ps id question options closes_at creator now,
    polls_has ps id = false ->
    (2 <= List.length options)%nat ->
    store_step ps
      (polls_set ps id (fresh_poll question options closes_at creator now))
| step_voted : forall ps id p senderHex x,
    polls_get ps id = Some p ->
    closed p = false ->
    index_refused (List.length (options (meta p))) (VNumber x) = false ->
    JsMap.has String.eqb (votes p) senderHex = false ->
    store_step ps (polls_set ps id (with_vote p senderHex x))
| step_closed : forall ps id p now,
    polls_get ps id = Some p ->
    closed p = false ->
    store_step ps (polls_set ps id (closed_with p (tally p now))).

(** The instance after a sequence of vote events, each a payload with the
    [senderHex] it is handled for. *)
Definition cast (events : list (value * string)) (this : TracPoll) : TracPoll :=
  fold_left (fun st e => instance_after (_onVote (fst e) (snd e)) st) events this.

(** What [votes] records for an accepted vote event. *)
Definition ballot (e : value * string) : string * number :=
  (snd e, as_number (get_prop (fst e) "option_index")).

(** A vote event for poll [pid] whose option index is an integer in
    [0, n). *)
Definition valid_vote_for (pid : value) (n : nat) (e : value * string) : Prop :=
  get_prop (fst e) "poll_id" = pid /\
  exists x, get_prop (fst e) "option_index" = VNumber x /\
            is_valid_index n x = true.

(* ------------------------------------------------------------------ *)
(** Vocabulary of the further properties *)

(** A message type [_handleMessage] has a case for. *)
Definition recognized (type : value) : bool :=
  strict_eq type (VString "poll:create")
  || strict_eq type (VString "poll:vote")
  || strict_eq type (VString "poll:close").

(** A value that is not an object: two decodings of it are the same
    value. *)
Definition primitive (v : value) : bool :=
  match v with
  | VArray _ _ | VObject _ _ => false
  | _ => true
  end.

(** Two decodings of the same message text: the same content, arrays and
    objects with identities of their own. *)
Inductive same_json : value -> value -> Prop :=
| same_undefined : same_json VUndefined VUndefined
| same_null : same_json VNull VNull
| same_bool : forall b, same_json (VBool b) (VBool b)
| same_number : forall n, same_json (VNumber n) (VNumber n)
| same_string : forall s, same_json (VString s) (VString s)
| same_array : forall r r' elems elems',
    Forall2 same_json elems elems' ->
    same_json (VArray r elems) (VArray r' elems')
| same_object : forall r r' props props',
    Forall2 (fun kv kv' => fst kv = fst kv' /\ same_json (snd kv) (snd kv'))
            props props' ->
    same_json (VObject r props) (VObject r' props').

(** The message of [d] decoded once more and handed to the same listener,
    at another time. *)
Definition delivered_again (d : delivery) (payload' : value) (now : Z)
  : delivery :=
  {| d_captured := d_captured d; d_channel := d_channel d;
     d_payload := payload'; d_senderKey := d_senderKey d; d_now := now |}.

(** Whether the lines a close prints can be built: the poll id, every
    option and the winner option have a string form. *)
Definition lines_printable (poll_id : value) (poll : Poll) (r : Result) : bool :=
  printable poll_id
  && forallb printable (options (meta poll))
  && printable (winner_option r).

(** A computation that leaves the instance alone, calls no peer method and
    whose effects all see the store it started with. *)
Definition quiet {A} (m : M A) : Prop :=
  forall this,
    instance_after m this = this /\
    external_calls (trace_of m this) = [] /\
    Forall (fun o => seen o = polls this) (trace_of m this).

(** What the create guard leaves in a stored meta. *)
Definition meta_ok (m : Meta) : Prop :=
  truthy (question m) = true /\
  (2 <= List.length (options m))%nat /\
  (closes_at m = VNull \/ truthy (closes_at m) = true).

(** No two of the keys are the same key of a [Map]. *)
Fixpoint distinct_keys (ks : list value) : Prop :=
  match ks with
  | [] => True
  | k :: rest =>
      Forall (fun k' => same_value_zero k k' = false) rest /\ distinct_keys rest
  end.

(** A lower-case hexadecimal digit. *)
Definition is_hex_digit (c : ascii) : bool :=
  existsb (Ascii.eqb c)
    ["0"; "1"; "2"; "3"; "4"; "5"; "6"; "7"; "8"; "9";
     "a"; "b"; "c"; "d"; "e"; "f"]%char.

Fixpoint all_chars (f : ascii -> bool) (s : string) : bool :=
  match s with
  | EmptyString => true
  | String c rest => f c && all_chars f rest
  end.

(** A computation that leaves [this.peer] and [this.channel] alone. *)
Definition keeps_frame {A} (m : M A) : Prop :=
  forall this,
    peer (instance_after m this) = peer this /\
    channel (instance_after m this) = channel this.

(** What a handler can have done to the store: nothing, a new record under a
    new truthy id, or another record with the same meta under an id that was
    there. *)
Inductive store_change (ps : store) : store -> Prop :=
| change_none : store_change ps ps
| change_inserted : forall id p,
    truthy id = true ->
    polls_has ps id = false ->
    meta_ok (meta p) ->
    votes p = JsMap.empty -> closed p = false -> result p = None ->
    store_change ps (polls_set ps id p)
| change_updated : forall id p p',
    polls_get ps id = Some p ->
    closed p = false ->
    meta p' = meta p ->
    store_change ps (polls_set ps id p').

(** [this.peer.contractPut] and [this.peer.sendSidechannel], when [this.peer]
    is there and has them. *)
Definition put_method (this : TracPoll) : option (template -> document -> bool) :=
  match peer this with
  | Some p => contractPut p
  | None => None
  end.

Definition send_method (this : TracPoll) : option (value -> ResultMessage -> bool) :=
  match peer this with
  | Some p => sendSidechannel p
  | None => None
  end.

Definition meta_doc_of (poll : Poll) : document :=
  MetaDoc (question (meta poll)) (options (meta poll)) (created_at (meta poll)).

Definition announcement_of (poll_id : value) (poll : Poll) (r : Result)
  : ResultMessage :=
  {| msg_type := "poll:result"; msg_poll_id := poll_id;
     msg_question := question (meta poll);
     msg_options := options (meta poll); msg_result := r |}.

(** The ways the broadcast at the end of a close can go. *)
Inductive broadcast_outcome (this : TracPoll) (poll_id : value) (poll : Poll)
  (r : Result) : completion unit -> list effect -> Prop :=
| broadcast_none :
    send_method this = None ->
    broadcast_outcome this poll_id poll r (Returned tt) []
| broadcast_sent : forall send,
    send_method this = Some send ->
    send (channel this) (announcement_of poll_id poll r) = true ->
    broadcast_outcome this poll_id poll r (Returned tt)
      [SendSidechannel (channel this) (announcement_of poll_id poll r)]
| broadcast_rejected : forall send,
    send_method this = Some send ->
    send (channel this) (announcement_of poll_id poll r) = false ->
    broadcast_outcome this poll_id poll r Thrown
      [SendSidechannel (channel this) (announcement_of poll_id poll r)].

(** The ways the commit of a close can go, with what it does after the
    winner line has been printed. *)
Inductive commit_outcome (this : TracPoll) (poll_id : value) (poll : Poll)
  (r : Result) : completion unit -> list effect -> Prop :=
| commit_no_put : forall c effs,
    put_method this = None ->
    broadcast_outcome this poll_id poll r c effs ->
    commit_outcome this poll_id poll r c (Console Warn_no_contractPut :: effs)
| commit_meta_rejected : forall put,
    put_method this = Some put ->
    put (meta_key poll_id) (meta_doc_of poll) = false ->
    commit_outcome this poll_id poll r Thrown
      [ContractPut (meta_key poll_id) (meta_doc_of poll)]
| commit_result_rejected : forall put,
    put_method this = Some put ->
    put (meta_key poll_id) (meta_doc_of poll) = true ->
    put (result_key poll_id) (ResultDoc r) = false ->
    commit_outcome this poll_id poll r Thrown
      [ContractPut (meta_key poll_id) (meta_doc_of poll);
       ContractPut (result_key poll_id) (ResultDoc r)]
| commit_written : forall put c effs,
    put_method this = Some put ->
    put (meta_key poll_id) (meta_doc_of poll) = true ->
    put (result_key poll_id) (ResultDoc r) = true ->
    broadcast_outcome this poll_id poll r c effs ->
    commit_outcome this poll_id poll r c
      (ContractPut (meta_key poll_id) (meta_doc_of poll)
       :: ContractPut (result_key poll_id) (ResultDoc r)
       :: Console (Log_committed poll_id) :: effs).

(** The lines [_onClose] prints for the options, one per option. *)
Definition option_lines (opts : list value) (a : cells) : list effect :=
  map (fun io => Console (Log_option (fst io) (snd io) (get_cell a (fst io))))
      (combine (seq 0 (List.length opts)) opts).

Definition observe (ps : store) (e : effect) : observed :=
  {| what := e; seen := ps |}.

(** Whether a recorded option index is an array index, so that the tally
    loop counts it in a slot. *)
Definition counted (x : number) : bool :=
  match array_index x with
  | Some _ => true
  | None => false
  end.

(** The value of a lower-case hexadecimal digit. *)
Definition hex_value (c : ascii) : option nat :=
  let n := nat_of_ascii c in
  if (48 <=? n)%nat && (n <=? 57)%nat then Some (n - 48)%nat
  else if (97 <=? n)%nat && (n <=? 102)%nat then Some (n - 87)%nat
  else None.

(** The byte two hexadecimal digits stand for. *)
Definition unhex_byte (hi lo : ascii) : option byte :=
  match hex_value hi, hex_value lo with
  | Some h, Some l => Byte.of_nat (16 * h + l)
  | _, _ => None
  end.

(** Reading back what [to_hex] writes. *)
Fixpoint unhex (s : string) : option (list byte) :=
  match s with
  | EmptyString => Some []
  | String hi (String lo rest) =>
      match unhex_byte hi lo, unhex rest with
      | Some b, Some bs => Some (b :: bs)
      | _, _ => None
      end
  | String _ EmptyString => None
  end.

(* ================================================================== *)
(** * Properties *)

(** ** Running a computation *)

Lemma instance_after_bind :
  forall (A B : Type) (m : M A) (k : A -> M B) (this : TracPoll),
    instance_after (bind m k) this
    = match completion_of m this with
      | Returned a => instance_after (k a) (instance_after m this)
      | Thrown => instance_after m this
      end.
Proof.
  intros A B m k this. unfold instance_after, completion_of, bind.
  destruct (m this) as [[[a|] this1] t1]; cbn; [|reflexivity].
  destruct (k a this1) as [[c this2] t2]. reflexivity.
Qed.

Lemma external_calls_app :
  forall t1 t2, external_calls (t1 ++ t2) = external_calls t1 ++ external_calls t2.
Proof.
  intros t1 t2. unfold external_calls. now rewrite map_app, filter_app.
Qed.

(** A line is printed when its values have a string form; otherwise the
    template throws and nothing is printed. *)
Lemma console_run :
  forall l this,
    console l this
    = if forallb printable (line_values l)
      then (Returned tt, this, [observe (polls this) (Console l)])
      else (Thrown, this, []).
Proof.
  intros l this. unfold console, interpolate, bind.
  destruct (forallb printable (line_values l)); reflexivity.
Qed.

Lemma interpolate_run :
  forall vs this,
    interpolate vs this
    = if forallb printable vs then (Returned tt, this, []) else (Thrown, this, []).
Proof.
  intros vs this. unfold interpolate. destruct (forallb printable vs); reflexivity.
Qed.

Lemma keeps_bind :
  forall (A B : Type) (m : M A) (k : A -> M B),
    keeps_instance m -> (forall a, keeps_instance (k a)) ->
    keeps_instance (bind m k).
Proof.
  intros A B m k Hm Hk this. rewrite instance_after_bind, Hm.
  destruct (completion_of m this); [apply Hk | reflexivity].
Qed.

Lemma keeps_ret : forall (A : Type) (a : A), keeps_instance (ret a).
Proof. intros A a this. reflexivity. Qed.

Lemma keeps_throw : forall A : Type, keeps_instance (@throw A).
Proof. intros A this. reflexivity. Qed.

Lemma keeps_emit : forall e, keeps_instance (emit e).
Proof. intros e this. reflexivity. Qed.

Lemma keeps_interpolate : forall vs, keeps_instance (interpolate vs).
Proof.
  intros vs this. unfold instance_after. rewrite interpolate_run.
  destruct (forallb printable vs); reflexivity.
Qed.

Lemma keeps_console : forall l, keeps_instance (console l).
Proof.
  intros l this. unfold instance_after. rewrite console_run.
  destruct (forallb printable (line_values l)); reflexivity.
Qed.

Lemma keeps_await : forall e b, keeps_instance (await e b).
Proof.
  intros e b. unfold await. apply keeps_bind; [apply keeps_emit|].
  intros _. destruct b; [apply keeps_ret | apply keeps_throw].
Qed.

Create HintDb keeps.

#[local] Hint Resolve keeps_ret keeps_throw keeps_emit keeps_console keeps_await
  keeps_interpolate : keeps.

(** Printing a line is quiet, whether or not the line can be built. *)
Lemma quiet_console : forall l, quiet (console l).
Proof.
  intros l this. unfold instance_after, trace_of. rewrite console_run.
  destruct (forallb printable (line_values l)); repeat split;
    repeat constructor.
Qed.

(** A payload with a field that is not [undefined] is an object. *)
Lemma prop_defined_not_nullish :
  forall payload name,
    get_prop payload name <> VUndefined -> nullish payload = false.
Proof.
  intros [| | b | n | s | r e | r p] name H; cbn in *; congruence.
Qed.

Lemma truthy_prop_not_nullish :
  forall payload name,
    truthy (get_prop payload name) = true -> nullish payload = false.
Proof.
  intros payload name H. apply (prop_defined_not_nullish payload name).
  intros E. rewrite E in H. discriminate.
Qed.

(** ** How a handler runs *)

Lemma get_this_bind :
  forall (B : Type) (k : TracPoll -> M B) (this : TracPoll),
    bind get_this k this = k this this.
Proof.
  intros B k this. unfold bind, get_this.
  destruct (k this this) as [[c this'] t]. reflexivity.
Qed.

Lemma set_polls_bind :
  forall (B : Type) (ps : store) (k : unit -> M B) (this : TracPoll),
    bind (set_polls ps) k this = k tt (with_polls this ps).
Proof.
  intros B ps k this. unfold bind, set_polls.
  destruct (k tt (with_polls this ps)) as [[c this'] t]. reflexivity.
Qed.

(** [_onCreate], branch by branch. *)
Lemma _onCreate_run :
  forall payload senderHex now this,
    let id := get_prop payload "id" in
    let question := get_prop payload "question" in
    let options := get_prop payload "options" in
    _onCreate payload senderHex now this
    = if nullish payload then (Thrown, this, [])
      else if negb (truthy id) || negb (truthy question) || negb (is_array options)
              || (List.length (array_elems options) <? 2)%nat
      then console Warn_create_invalid this
      else if polls_has (polls this) id
      then console (Warn_create_exists id) this
      else console (Log_created question id (List.length (array_elems options)))
             (with_polls this
                (polls_set (polls this) id
                   (fresh_poll question (array_elems options)
                      (js_or (get_prop payload "closes_at") VNull) senderHex now))).
Proof.
  intros payload senderHex now this id question options. unfold _onCreate.
  destruct (nullish payload); [reflexivity|]. cbv zeta.
  fold id question options.
  destruct (negb (truthy id) || negb (truthy question) || negb (is_array options)
            || (List.length (array_elems options) <? 2)%nat); [reflexivity|].
  rewrite get_this_bind.
  destruct (polls_has (polls this) id); [reflexivity|].
  rewrite set_polls_bind. reflexivity.
Qed.

(** [_onVote], branch by branch. *)
Lemma _onVote_run :
  forall payload senderHex this,
    let poll_id := get_prop payload "poll_id" in
    let option_index := get_prop payload "option_index" in
    _onVote payload senderHex this
    = if nullish payload then (Thrown, this, [])
      else match polls_get (polls this) poll_id with
           | None => console (Warn_vote_unknown poll_id) this
           | Some poll =>
               if closed poll then console (Warn_vote_closed poll_id) this
               else if index_refused (List.length (options (meta poll))) option_index
               then console (Warn_vote_invalid_index option_index) this
               else if JsMap.has String.eqb (votes poll) senderHex
               then console (Warn_vote_duplicate senderHex) this
               else
                 console (Log_vote_recorded poll_id (as_number option_index) senderHex
                            (JsMap.size
                               (votes (with_vote poll senderHex
                                         (as_number option_index)))))
                   (with_polls this
                      (polls_set (polls this) poll_id
                         (with_vote poll senderHex (as_number option_index))))
           end.
Proof.
  intros payload senderHex this poll_id option_index. unfold _onVote.
  destruct (nullish payload); [reflexivity|]. cbv zeta.
  fold poll_id option_index. rewrite get_this_bind.
  destruct (polls_get (polls this) poll_id) as [poll|]; [|reflexivity].
  unfold with_vote, index_refused.
  destruct (closed poll); [reflexivity|].
  destruct (negb (is_number option_index)
            || num_lt (as_number option_index) (of_int 0)
            || num_ge (as_number option_index)
                 (of_nat (List.length (options (meta poll))))); [reflexivity|].
  destruct (JsMap.has String.eqb (votes poll) senderHex); [reflexivity|].
  rewrite set_polls_bind. reflexivity.
Qed.

(** No handler of a create or vote event calls the peer. *)
Lemma console_calls :
  forall l this, external_calls (trace_of (console l) this) = [].
Proof. intros l this. apply quiet_console. Qed.

Lemma _onCreate_calls :
  forall payload senderHex now this,
    external_calls (trace_of (_onCreate payload senderHex now) this) = [].
Proof.
  intros payload senderHex now this. unfold trace_of.
  rewrite _onCreate_run. cbv zeta.
  repeat match goal with
         | |- context [if ?b then _ else _] => destruct b
         end; try reflexivity; apply console_calls.
Qed.

Lemma _onVote_calls :
  forall payload senderHex this,
    external_calls (trace_of (_onVote payload senderHex) this) = [].
Proof.
  intros payload senderHex this. unfold trace_of.
  rewrite _onVote_run. cbv zeta.
  destruct (nullish payload); [reflexivity|].
  destruct (polls_get (polls this) (get_prop payload "poll_id")) as [poll|];
    [|apply console_calls].
  repeat match goal with
         | |- context [if ?b then _ else _] => destruct b
         end; apply console_calls.
Qed.

(** ** Events that are dropped *)

(** A create event that the guard refuses or whose id is taken leaves the
    instance as it was. *)
Lemma create_rejected :
  forall (this : TracPoll) (payload : value) (senderHex : string) (now : Z),
    truthy (get_prop payload "id") = false \/
    truthy (get_prop payload "question") = false \/
    is_array (get_prop payload "options") = false \/
    (List.length (array_elems (get_prop payload "options")) < 2)%nat \/
    polls_has (polls this) (get_prop payload "id") = true ->
    instance_after (_onCreate payload senderHex now) this = this.
Proof.
  intros this payload senderHex now H.
  unfold instance_after. rewrite _onCreate_run. cbv zeta.
  destruct (nullish payload); [reflexivity|].
  destruct (negb (truthy (get_prop payload "id"))
            || negb (truthy (get_prop payload "question"))
            || negb (is_array (get_prop payload "options"))
            || (List.length (array_elems (get_prop payload "options")) <? 2)%nat)
    eqn:G; [apply keeps_console|].
  apply orb_false_elim in G. destruct G as [G G4].
  apply orb_false_elim in G. destruct G as [G G3].
  apply orb_false_elim in G. destruct G as [G1 G2].
  apply negb_false_iff in G1, G2, G3. apply Nat.ltb_ge in G4.
  destruct H as [H | [H | [H | [H | H]]]]; try congruence; try lia.
  rewrite H. apply keeps_console.
Qed.

(** C9. A create event whose [id] already names a poll is a no-op: the
    instance is left exactly as it was, so the record under that id keeps its
    question, options, creator, creation time, votes, closed flag and result;
    nothing leaves the process.  The handler returns, after one warning,
    whenever the payload is an object and its [id] has a string form (as
    every string, number or boolean has). *)
Theorem create_existing_id_is_noop :
  forall (this : TracPoll) (payload : value) (senderHex : string) (now : Z)
         (original : Poll),
    polls_get (polls this) (get_prop payload "id") = Some original ->
    instance_after (_onCreate payload senderHex now) this = this /\
    polls_get (polls (instance_after (_onCreate payload senderHex now) this))
              (get_prop payload "id") = Some original /\
    (nullish payload = false -> printable (get_prop payload "id") = true ->
     completion_of (_onCreate payload senderHex now) this = Returned tt) /\
    external_calls (trace_of (_onCreate payload senderHex now) this) = [].
Proof.
  intros this payload senderHex now original Hget.
  assert (Hhas : polls_has (polls this) (get_prop payload "id") = true).
  { unfold polls_has, JsMap.has. unfold polls_get in Hget. now rewrite Hget. }
  assert (E : instance_after (_onCreate payload senderHex now) this = this).
  { apply create_rejected. auto. }
  split; [exact E|]. split; [rewrite E; exact Hget|].
  split; [|apply _onCreate_calls].
  intros Hobj Hid. unfold completion_of. rewrite _onCreate_run. cbv zeta.
  rewrite Hobj, Hhas.
  destruct (negb (truthy (get_prop payload "id"))
            || negb (truthy (get_prop payload "question"))
            || negb (is_array (get_prop payload "options"))
            || (List.length (array_elems (get_prop payload "options")) <? 2)%nat);
    rewrite console_run; cbn [line_values forallb]; [reflexivity|].
  rewrite Hid. reflexivity.
Qed.

Lemma create_existing_id_is_noop_witness :
  let this := run [message (create_payload (VString "p1") (VString "Q")
                              (VArray 1 (strings ["A"; "B"]))) "admin" 7]
                  (attached willing_peer VUndefined) in
  let again := create_payload (VString "p1") (VString "other")
                 (VArray 2 (strings ["C"; "D"; "E"])) in
  instance_after (_onCreate again "mallory" 9) this = this /\
  completion_of (_onCreate again "mallory" 9) this = Returned tt.
Proof.
  intros this again.
  pose proof (create_existing_id_is_noop this again "mallory" 9 _
                (eq_refl : polls_get (polls this) (get_prop again "id")
                           = Some {| meta := {| question := VString "Q";
                                                options := strings ["A"; "B"];
                                                closes_at := VNull;
                                                creator := "admin";
                                                created_at := 7 |};
                                     votes := []; closed := false;
                                     result := None |})) as H.
  split; [exact (proj1 H)|].
  exact (proj1 (proj2 (proj2 H)) eq_refl eq_refl).
Defined.

(** A vote by a sender the poll has already recorded is dropped. *)
Lemma vote_duplicate_ignored :
  forall (this : TracPoll) (payload : value) (senderHex : string) (poll : Poll),
    polls_get (polls this) (get_prop payload "poll_id") = Some poll ->
    JsMap.has String.eqb (votes poll) senderHex = true ->
    instance_after (_onVote payload senderHex) this = this.
Proof.
  intros this payload senderHex poll Hget Hhas.
  unfold instance_after. rewrite _onVote_run. cbv zeta.
  destruct (nullish payload); [reflexivity|].
  rewrite Hget, Hhas.
  repeat match goal with
         | |- context [if ?b then _ else _] => destruct b
         end; apply keeps_console.
Qed.

(** C6. A vote event whose sender is already a key of the poll's [votes]
    changes nothing, whatever option index it carries: the instance is left
    as it was, so [votes.size] and every recorded option index are the
    same. *)
Theorem vote_by_recorded_sender_is_idempotent :
  forall (this : TracPoll) (payload : value) (senderHex : string) (poll : Poll),
    polls_get (polls this) (get_prop payload "poll_id") = Some poll ->
    JsMap.has String.eqb (votes poll) senderHex = true ->
    instance_after (_onVote payload senderHex) this = this /\
    (forall id p,
        polls_get (polls this) id = Some p ->
        exists p',
          polls_get (polls (instance_after (_onVote payload senderHex) this)) id
            = Some p' /\
          JsMap.size (votes p') = JsMap.size (votes p) /\
          votes p' = votes p).
Proof.
  intros this payload senderHex poll Hget Hhas.
  pose proof (vote_duplicate_ignored this payload senderHex poll Hget Hhas) as E.
  split; [exact E|].
  intros id p Hp. rewrite E. exists p. auto.
Qed.

Lemma vote_by_recorded_sender_is_idempotent_witness :
  let this := run [message (create_payload (VString "p1") (VString "Q")
                              (VArray 1 (strings ["A"; "B"]))) "admin" 7;
                   message (vote_payload (VString "p1") (VNumber (of_int 0)))
                           "alice" 8]
                  (attached willing_peer VUndefined) in
  instance_after
    (_onVote (vote_payload (VString "p1") (VNumber (of_int 1))) "alice") this
  = this.
Proof.
  intros this.
  refine (proj1 (vote_by_recorded_sender_is_idempotent this
                   (vote_payload (VString "p1") (VNumber (of_int 1))) "alice"
                   _ _ _)).
  - vm_compute. reflexivity.
  - vm_compute. reflexivity.
Defined.

(** [_onClose] up to the point where validation has passed. *)
Lemma _onClose_ignored_run :
  forall (this : TracPoll) (payload : value) (senderHex : string) (now : Z),
    (polls_get (polls this) (get_prop payload "poll_id") = None \/
     exists poll,
       polls_get (polls this) (get_prop payload "poll_id") = Some poll /\
       closed poll = true) ->
    exists line,
      (line = Warn_close_unknown (get_prop payload "poll_id") \/
       line = Warn_close_closed (get_prop payload "poll_id")) /\
      _onClose payload senderHex now this
      = if nullish payload then (Thrown, this, []) else console line this.
Proof.
  intros this payload senderHex now H. unfold _onClose.
  destruct H as [Hnone | [poll [Hsome Hclosed]]].
  - eexists. split; [left; reflexivity|].
    destruct (nullish payload); [reflexivity|].
    cbv zeta. rewrite get_this_bind, Hnone. reflexivity.
  - eexists. split; [right; reflexivity|].
    destruct (nullish payload); [reflexivity|].
    cbv zeta. rewrite get_this_bind, Hsome, Hclosed. reflexivity.
Qed.

(** A close of a closed poll or of an unknown id leaves the instance as it
    was and calls no peer method. *)
Lemma close_ignored :
  forall (this : TracPoll) (payload : value) (senderHex : string) (now : Z),
    (polls_get (polls this) (get_prop payload "poll_id") = None \/
     exists poll,
       polls_get (polls this) (get_prop payload "poll_id") = Some poll /\
       closed poll = true) ->
    instance_after (_onClose payload senderHex now) this = this /\
    external_calls (trace_of (_onClose payload senderHex now) this) = [] /\
    Forall (fun o => seen o = polls this)
           (trace_of (_onClose payload senderHex now) this).
Proof.
  intros this payload senderHex now H.
  destruct (_onClose_ignored_run this payload senderHex now H) as [line [_ E]].
  unfold instance_after, trace_of. rewrite E.
  destruct (nullish payload).
  - cbn. auto.
  - apply quiet_console.
Qed.

Lemma close_noop :
  forall (this : TracPoll) (payload : value) (senderHex : string) (now : Z),
    (polls_get (polls this) (get_prop payload "poll_id") = None \/
     exists poll,
       polls_get (polls this) (get_prop payload "poll_id") = Some poll /\
       closed poll = true) ->
    instance_after (_onClose payload senderHex now) this = this.
Proof.
  intros this payload senderHex now H.
  apply (close_ignored this payload senderHex now H).
Qed.

(** C7. A close event for a poll that is already closed, or for an id that
    names no poll, has no effect: the instance is left as it was (so the
    stored result is neither recomputed nor replaced and [closed] keeps its
    value), and neither a write to the replicated log nor a broadcast is
    made.  This holds whether the handler returns after its warning or
    throws while building it. *)
Theorem close_of_closed_or_unknown_is_noop :
  forall (this : TracPoll) (payload : value) (senderHex : string) (now : Z),
    (polls_get (polls this) (get_prop payload "poll_id") = None \/
     exists poll,
       polls_get (polls this) (get_prop payload "poll_id") = Some poll /\
       closed poll = true) ->
    instance_after (_onClose payload senderHex now) this = this /\
    (forall id, polls_get (polls (instance_after (_onClose payload senderHex now)
                                                 this)) id
                = polls_get (polls this) id) /\
    external_calls (trace_of (_onClose payload senderHex now) this) = [].
Proof.
  intros this payload senderHex now H.
  destruct (close_ignored this payload senderHex now H) as [E [C _]].
  split; [exact E|]. split; [|exact C].
  intros id. rewrite E. reflexivity.
Qed.

Lemma close_of_closed_or_unknown_is_noop_witness :
  let this := run [message (create_payload (VString "p1") (VString "Q")
                              (VArray 1 (strings ["A"; "B"]))) "admin" 7;
                   message (close_payload (VString "p1")) "admin" 8]
                  (attached willing_peer VUndefined) in
  instance_after (_onClose (close_payload (VString "p1")) "admin" 9) this = this /\
  instance_after (_onClose (close_payload (VString "zz")) "admin" 9) this = this /\
  instance_after
    (_onClose (close_payload (VObject 5 [("toString", VNull)])) "admin" 9) this
  = this.
Proof.
  intros this. split; [|split].
  - refine (proj1 (close_of_closed_or_unknown_is_noop this
                     (close_payload (VString "p1")) "admin" 9 _)).
    right. eexists. split; vm_compute; reflexivity.
  - refine (proj1 (close_of_closed_or_unknown_is_noop this
                     (close_payload (VString "zz")) "admin" 9 _)).
    left. vm_compute. reflexivity.
  - refine (proj1 (close_of_closed_or_unknown_is_noop this
                     (close_payload (VObject 5 [("toString", VNull)])) "admin" 9 _)).
    left. vm_compute. reflexivity.
Defined.

(** ** The create guard *)

(** The only bound [_onCreate] puts on the number of options is the lower
    one: any payload with a truthy [id] not yet taken, a truthy [question]
    and an array of at least two options is inserted. *)
Lemma create_accepted :
  forall (this : TracPoll) (payload : value) (senderHex : string) (now : Z),
    truthy (get_prop payload "id") = true ->
    truthy (get_prop payload "question") = true ->
    is_array (get_prop payload "options") = true ->
    (2 <= List.length (array_elems (get_prop payload "options")))%nat ->
    polls_has (polls this) (get_prop payload "id") = false ->
    polls (instance_after (_onCreate payload senderHex now) this)
    = polls_set (polls this) (get_prop payload "id")
        {| meta := {| question := get_prop payload "question";
                      options := array_elems (get_prop payload "options");
                      closes_at := js_or (get_prop payload "closes_at") VNull;
                      creator := senderHex;
                      created_at := now |};
           votes := JsMap.empty;
           closed := false;
           result := None |}.
Proof.
  intros this payload senderHex now H1 H2 H3 H4 H5.
  unfold instance_after. rewrite _onCreate_run. cbv zeta.
  rewrite (truthy_prop_not_nullish payload "id" H1), H1, H2, H3.
  apply Nat.ltb_ge in H4. rewrite H4. cbn [negb orb]. rewrite H5.
  rewrite console_run.
  match goal with |- context [if ?b then _ else _] => destruct b end;
    reflexivity.
Qed.

(** C1. The create guard has no upper bound on the number of options: on a
    fresh instance a create event with nine options is not rejected, the
    poll is inserted with all nine.  (A create with two options is inserted
    as well, and one option is refused.) *)
Theorem create_with_nine_options_is_inserted :
  let this := attached willing_peer VUndefined in
  let after payload := instance_after (_onCreate payload "admin" 7) this in
  (exists p,
     polls_get (polls (after (create_payload (VString "p9") (VString "Q")
                                nine_options)))
               (VString "p9") = Some p /\
     List.length (options (meta p)) = 9%nat /\ closed p = false) /\
  (exists p,
     polls_get (polls (after (create_payload (VString "p2") (VString "Q")
                                (VArray 1 (strings ["A"; "B"])))))
               (VString "p2") = Some p /\
     options (meta p) = strings ["A"; "B"]) /\
  after (create_payload (VString "p1") (VString "Q") (VArray 1 (strings ["A"])))
  = this.
Proof.
  cbv zeta. split; [|split].
  - eexists. split; [vm_compute; reflexivity|]. split; reflexivity.
  - eexists. split; [vm_compute; reflexivity|]. reflexivity.
  - vm_compute. reflexivity.
Qed.

(** ** The vote guard *)

(** A vote whose [option_index] the guard refuses ([typeof] not a number,
    below zero, or at least [options.length]) leaves the instance as it
    was. *)
Lemma vote_refused_index_is_ignored :
  forall (this : TracPoll) (payload : value) (senderHex : string) (poll : Poll),
    polls_get (polls this) (get_prop payload "poll_id") = Some poll ->
    index_refused (List.length (options (meta poll)))
                  (get_prop payload "option_index") = true ->
    instance_after (_onVote payload senderHex) this = this.
Proof.
  intros this payload senderHex poll Hget Href.
  unfold instance_after. rewrite _onVote_run. cbv zeta.
  destruct (nullish payload); [reflexivity|].
  rewrite Hget, Href. destruct (closed poll); apply keeps_console.
Qed.

(** A vote on an id that names no poll, or on a closed poll, leaves the
    instance as it was. *)
Lemma vote_unknown_or_closed_is_ignored :
  forall (this : TracPoll) (payload : value) (senderHex : string),
    (polls_get (polls this) (get_prop payload "poll_id") = None \/
     exists poll,
       polls_get (polls this) (get_prop payload "poll_id") = Some poll /\
       closed poll = true) ->
    instance_after (_onVote payload senderHex) this = this.
Proof.
  intros this payload senderHex H.
  unfold instance_after. rewrite _onVote_run. cbv zeta.
  destruct (nullish payload); [reflexivity|].
  destruct H as [Hnone | [poll [Hsome Hclosed]]].
  - rewrite Hnone. apply keeps_console.
  - rewrite Hsome, Hclosed. apply keeps_console.
Qed.

(** An option index equal to [options.length] is refused, as is any value
    that is not a number. *)
Lemma index_refused_at_length :
  forall n : nat, index_refused n (VNumber (of_nat n)) = true.
Proof.
  intros n. unfold index_refused, num_ge, num_le, of_nat, of_int. cbn.
  unfold Qle_bool. cbn. rewrite Z.leb_refl. apply orb_true_r.
Qed.

Lemma index_refused_not_a_number :
  forall (n : nat) (v : value), is_number v = false -> index_refused n v = true.
Proof.
  intros n v H. unfold index_refused. rewrite H. reflexivity.
Qed.

(** [NaN] is a number that is neither below zero nor at least the length:
    the guard lets it through as well. *)
Lemma nan_passes_vote_guard :
  forall n : nat, index_refused n (VNumber NaN) = false.
Proof. reflexivity. Qed.

(** C2. The guard of [_onVote] asks for a number in [0, options.length) but
    not for an integer: on an open poll with two options a vote with
    [option_index = 0.5] is recorded under the sender, and the close that
    follows counts one vote in [total_votes] and none in [tallies]. *)
Theorem vote_with_fractional_index_is_recorded :
  let half := VNumber (Fin (1 # 2)) in
  let this := run [message (create_payload (VString "p1") (VString "Q")
                              (VArray 1 (strings ["A"; "B"]))) "admin" 7]
                  (attached willing_peer VUndefined) in
  let voted := instance_after (_onVote (vote_payload (VString "p1") half) "alice")
                 this in
  let closed_ := instance_after (_onClose (close_payload (VString "p1")) "admin" 9)
                   voted in
  is_valid_index 2 (Fin (1 # 2)) = false /\
  option_map votes (polls_get (polls this) (VString "p1")) = Some [] /\
  option_map votes (polls_get (polls voted) (VString "p1"))
    = Some [("alice", Fin (1 # 2))] /\
  option_map result (polls_get (polls closed_) (VString "p1"))
    = Some (Some {| tallies := cells_of_counts [0%nat; 0%nat];
                    total_votes := 1;
                    closed_at := 9;
                    winner_index := 0;
                    winner_option := VString "A" |}).
Proof.
  cbv zeta. repeat split; vm_compute; reflexivity.
Qed.

(** ** The commit sequence *)

Lemma bind_returned :
  forall (A B : Type) (m : M A) (k : A -> M B) this a this1 t1,
    m this = (Returned a, this1, t1) ->
    bind m k this = (let '(c, this2, t2) := k a this1 in (c, this2, t1 ++ t2)).
Proof. intros A B m k this a this1 t1 E. unfold bind. rewrite E. reflexivity. Qed.

Lemma bind_thrown :
  forall (A B : Type) (m : M A) (k : A -> M B) this this1 t1,
    m this = (Thrown, this1, t1) ->
    bind m k this = (Thrown, this1, t1).
Proof. intros A B m k this this1 t1 E. unfold bind. rewrite E. reflexivity. Qed.

Lemma console_bind :
  forall (B : Type) (l : console_line) (k : unit -> M B) (this : TracPoll),
    bind (console l) k this
    = if forallb printable (line_values l)
      then (let '(c, this', t) := k tt this in
            (c, this', observe (polls this) (Console l) :: t))
      else (Thrown, this, []).
Proof.
  intros B l k this. unfold bind at 1. rewrite console_run.
  destruct (forallb printable (line_values l)); reflexivity.
Qed.

(** The loop over the options prints one line per option, as long as the
    options have a string form. *)
Lemma for_each_indexed_lines :
  forall (line : value -> nat -> console_line) (xs : list value) (i : nat)
         (this : TracPoll),
    (forall x j, line_values (line x j) = [x]) ->
    forallb printable xs = true ->
    for_each_indexed xs i (fun x j => console (line x j)) this
    = (Returned tt, this,
       map (observe (polls this))
           (map (fun io => Console (line (snd io) (fst io)))
                (combine (seq i (List.length xs)) xs))).
Proof.
  intros line xs. induction xs as [|x xs IH]; intros i this Hline Hxs;
    [reflexivity|].
  cbn [forallb] in Hxs. apply andb_prop in Hxs. destruct Hxs as [Hx Hxs].
  cbn [for_each_indexed]. rewrite console_bind, Hline. cbn [forallb].
  rewrite Hx. cbn [andb]. rewrite IH by assumption. reflexivity.
Qed.

(** At the first option without a string form the loop throws. *)
Lemma for_each_indexed_throws :
  forall (line : value -> nat -> console_line) (xs : list value) (i : nat)
         (this : TracPoll),
    (forall x j, line_values (line x j) = [x]) ->
    forallb printable xs = false ->
    exists t,
      for_each_indexed xs i (fun x j => console (line x j)) this
      = (Thrown, this, t) /\
      Forall (fun o => seen o = polls this) t /\
      external_calls t = [].
Proof.
  intros line xs. induction xs as [|x xs IH]; intros i this Hline Hxs;
    [discriminate|].
  cbn [forallb] in Hxs. cbn [for_each_indexed].
  rewrite console_bind, Hline. cbn [forallb].
  destruct (printable x); cbn [andb] in *.
  - destruct (IH (S i) this Hline Hxs) as [t [E [Hseen Hext]]].
    rewrite E. eexists. split; [reflexivity|].
    split; [constructor; [reflexivity | exact Hseen] | exact Hext].
  - exists []. repeat split; constructor.
Qed.

Lemma external_calls_observe :
  forall ps effs,
    external_calls (map (observe ps) effs) = filter is_external effs.
Proof.
  intros ps effs. unfold external_calls. rewrite map_map. cbn [observe what].
  now rewrite map_id.
Qed.

Lemma external_calls_console :
  forall ps l t, external_calls (observe ps (Console l) :: t) = external_calls t.
Proof. reflexivity. Qed.

Lemma option_lines_internal :
  forall opts a, filter is_external (option_lines opts a) = [].
Proof.
  intros opts a. unfold option_lines.
  induction (combine (seq 0 (List.length opts)) opts) as [|io l IH];
    [reflexivity | exact IH].
Qed.

Lemma close_trace_external :
  forall ps first opts a winner effs,
    external_calls
      (map (observe ps)
           (Console first :: option_lines opts a ++ Console winner :: effs))
    = filter is_external effs.
Proof.
  intros. rewrite external_calls_observe. cbn [filter is_external].
  rewrite filter_app, option_lines_internal. reflexivity.
Qed.

Lemma Forall_seen_observe :
  forall ps effs, Forall (fun o => seen o = ps) (map (observe ps) effs).
Proof.
  intros ps effs. apply Forall_map. apply Forall_forall. intros e _. reflexivity.
Qed.

Ltac method_fact Hpeer :=
  unfold put_method, send_method; rewrite Hpeer; reflexivity.

Ltac solve_broadcast Hpeer :=
  first [ eapply broadcast_none; method_fact Hpeer
        | eapply broadcast_sent; [method_fact Hpeer | eassumption]
        | eapply broadcast_rejected; [method_fact Hpeer | eassumption] ].

Ltac solve_commit Hpeer :=
  first [ eapply commit_meta_rejected; [method_fact Hpeer | eassumption]
        | eapply commit_result_rejected;
            [method_fact Hpeer | eassumption | eassumption]
        | eapply commit_written;
            [method_fact Hpeer | eassumption | eassumption
             | solve_broadcast Hpeer]
        | eapply commit_no_put; [method_fact Hpeer | solve_broadcast Hpeer] ].

(** A close that passes validation, run to its end.  The record is marked
    closed first.  When the poll id, the options and the winner option have
    a string form, the lines for the poll are printed and the handler
    follows one of the commit outcomes; otherwise it throws while it builds
    one of those lines, before any call to the peer. *)
Lemma _onClose_accepted_run :
  forall this payload senderHex now poll,
    nullish payload = false ->
    polls_get (polls this) (get_prop payload "poll_id") = Some poll ->
    closed poll = false ->
    let poll_id := get_prop payload "poll_id" in
    let r := tally poll now in
    let ps' := polls_set (polls this) poll_id (closed_with poll r) in
    (lines_printable poll_id poll r = true /\
     exists c effs,
       commit_outcome this poll_id poll r c effs /\
       _onClose payload senderHex now this
       = (c, with_polls this ps',
          map (observe ps')
              (Console (Log_closed poll_id)
               :: option_lines (options (meta poll)) (tallies r)
               ++ Console (Log_winner (winner_option r)
                             (element_at (tallies r) (winner_index r) None))
               :: effs))) \/
    (lines_printable poll_id poll r = false /\
     exists t,
       _onClose payload senderHex now this = (Thrown, with_polls this ps', t) /\
       Forall (fun o => seen o = ps') t /\
       external_calls t = []).
Proof.
  intros this payload senderHex now poll Hobj Hget Hopen poll_id r ps'.
  assert (Hline : forall (x : value) (j : nat),
             line_values (Log_option j x (get_cell (tallies r) j)) = [x])
    by reflexivity.
  unfold _onClose. rewrite Hobj. cbv zeta. rewrite get_this_bind.
  fold poll_id. fold poll_id in Hget. rewrite Hget, Hopen.
  fold r. fold (closed_with poll r). fold ps'. rewrite set_polls_bind.
  set (this' := with_polls this ps').
  assert (Hps : polls this' = ps') by reflexivity.
  unfold lines_printable.
  rewrite console_bind. cbn [line_values forallb].
  destruct (printable poll_id) eqn:Hp; cbn [andb].
  2: { right. split; [reflexivity|]. exists []. repeat split; constructor. }
  destruct (forallb printable (options (meta poll))) eqn:Hopts; cbn [andb].
  2: { right. split; [reflexivity|].
       destruct (for_each_indexed_throws
                   (fun opt i => Log_option i opt (get_cell (tallies r) i))
                   (options (meta poll)) 0%nat this' Hline Hopts)
         as [t [E [Hseen Hext]]].
       rewrite (bind_thrown _ _ _ _ _ _ _ E). eexists. split; [reflexivity|].
       rewrite Hps in *. split.
       - constructor; [reflexivity | exact Hseen].
       - exact Hext. }
  pose proof (for_each_indexed_lines
                (fun opt i => Log_option i opt (get_cell (tallies r) i))
                (options (meta poll)) 0%nat this' Hline Hopts) as E.
  cbv beta in E.
  rewrite (bind_returned _ _ _ _ _ _ _ _ E), console_bind.
  cbn [line_values forallb].
  destruct (printable (winner_option r)) eqn:Hw; cbn [andb].
  2: { right. split; [reflexivity|]. eexists. split; [reflexivity|].
       rewrite Hps. split.
       - constructor; [reflexivity|]. rewrite app_nil_r.
         apply Forall_seen_observe.
       - rewrite app_nil_r, external_calls_console, external_calls_observe.
         apply (option_lines_internal (options (meta poll)) (tallies r)). }
  left. split; [reflexivity|].
  destruct (peer this) as [[[put|] [send|]]|] eqn:Hpeer.
  all: change (peer this') with (peer this); change (channel this') with (channel this).
  all: rewrite ?Hpeer.
  all: cbv beta iota delta [bind interpolate await emit ret throw forallb
                                 console line_values].
  all: rewrite ?Hp; cbn [andb].
  all: fold (meta_doc_of poll); fold (announcement_of poll_id poll r).
  all: repeat match goal with
       | |- context [if ?b then _ else _] => destruct b eqn:?
       end.
  all: rewrite Hps; cbn [app]; rewrite ?app_nil_r.
  all: match goal with
       | |- exists c effs, _ /\ (?c0, _, _ :: _ ++ _ :: ?tail) = _ =>
           exists c0, (map what tail)
       end.
  all: split; [cbn [map what]; solve_commit Hpeer|].
  all: cbn [map]; rewrite map_app; reflexivity.
Qed.

(** A close that passes validation: the store after it, whatever the peer
    is, whatever its calls answer and whether or not the lines can be
    printed. *)
Lemma _onClose_accepted :
  forall this payload senderHex now poll,
    nullish payload = false ->
    polls_get (polls this) (get_prop payload "poll_id") = Some poll ->
    closed poll = false ->
    instance_after (_onClose payload senderHex now) this
    = with_polls this
        (polls_set (polls this) (get_prop payload "poll_id")
                   (closed_with poll (tally poll now))) /\
    Forall (fun o => seen o
                     = polls_set (polls this) (get_prop payload "poll_id")
                                 (closed_with poll (tally poll now)))
           (trace_of (_onClose payload senderHex now) this).
Proof.
  intros this payload senderHex now poll Hobj Hget Hopen.
  unfold instance_after, trace_of.
  destruct (_onClose_accepted_run this payload senderHex now poll Hobj Hget Hopen)
    as [[_ [c [effs [_ E]]]] | [_ [t [E [Hseen _]]]]]; rewrite E; cbn [fst snd].
  - split; [reflexivity | apply Forall_seen_observe].
  - split; [reflexivity | exact Hseen].
Qed.

Lemma _onClose_accepted_polls :
  forall this payload senderHex now poll,
    nullish payload = false ->
    polls_get (polls this) (get_prop payload "poll_id") = Some poll ->
    closed poll = false ->
    polls (instance_after (_onClose payload senderHex now) this)
    = polls_set (polls this) (get_prop payload "poll_id")
                (closed_with poll (tally poll now)).
Proof.
  intros this payload senderHex now poll Hobj Hget Hopen.
  rewrite (proj1 (_onClose_accepted this payload senderHex now poll
                    Hobj Hget Hopen)).
  reflexivity.
Qed.




(** ** The handlers refine the transition system *)

Lemma _onCreate_step :
  forall this payload senderHex now,
    store_step (polls this)
               (polls (instance_after (_onCreate payload senderHex now) this)).
Proof.
  intros this payload senderHex now.
  unfold instance_after. rewrite _onCreate_run. cbv zeta.
  destruct (nullish payload); [apply step_dropped|].
  destruct (negb (truthy (get_prop payload "id"))
            || negb (truthy (get_prop payload "question"))
            || negb (is_array (get_prop payload "options"))
            || (List.length (array_elems (get_prop payload "options")) <? 2)%nat)
    eqn:G.
  { fold (instance_after (console Warn_create_invalid) this).
    rewrite keeps_console. apply step_dropped. }
  apply orb_false_elim in G. destruct G as [_ G]. apply Nat.ltb_ge in G.
  destruct (polls_has (polls this) (get_prop payload "id")) eqn:H.
  { match goal with
    | |- context [snd (fst (console ?l this))] =>
        fold (instance_after (console l) this)
    end.
    rewrite keeps_console. apply step_dropped. }
  match goal with
  | |- context [snd (fst (console ?l ?t))] =>
      fold (instance_after (console l) t)
  end.
  rewrite keeps_console. cbn [polls with_polls].
  apply step_created; assumption.
Qed.

(** An accepted vote: the store after it. *)
Lemma _onVote_accepted :
  forall this payload senderHex poll x,
    polls_get (polls this) (get_prop payload "poll_id") = Some poll ->
    closed poll = false ->
    get_prop payload "option_index" = VNumber x ->
    index_refused (List.length (options (meta poll))) (VNumber x) = false ->
    JsMap.has String.eqb (votes poll) senderHex = false ->
    instance_after (_onVote payload senderHex) this
    = with_polls this
        (polls_set (polls this) (get_prop payload "poll_id")
                   (with_vote poll senderHex x)).
Proof.
  intros this payload senderHex poll x Hget Hopen Hx Hidx Hhas.
  assert (Hobj : nullish payload = false).
  { apply (prop_defined_not_nullish payload "option_index"). congruence. }
  unfold instance_after. rewrite _onVote_run. cbv zeta.
  rewrite Hobj, Hget, Hopen, Hx, Hidx, Hhas.
  match goal with
  | |- context [snd (fst (console ?l ?t))] =>
      fold (instance_after (console l) t)
  end.
  rewrite keeps_console. reflexivity.
Qed.

Lemma index_accepted_is_number :
  forall n v, index_refused n v = false -> exists x, v = VNumber x.
Proof.
  intros n v G. unfold index_refused in G.
  apply orb_false_elim in G. destruct G as [G _].
  apply orb_false_elim in G. destruct G as [G _].
  apply negb_false_iff in G.
  destruct v; try discriminate G. eauto.
Qed.

Lemma _onVote_step :
  forall this payload senderHex,
    store_step (polls this)
               (polls (instance_after (_onVote payload senderHex) this)).
Proof.
  intros this payload senderHex.
  destruct (polls_get (polls this) (get_prop payload "poll_id")) as [poll|] eqn:Hget.
  2: { rewrite vote_unknown_or_closed_is_ignored by auto. apply step_dropped. }
  destruct (closed poll) eqn:Hclosed.
  { rewrite vote_unknown_or_closed_is_ignored by eauto. apply step_dropped. }
  destruct (index_refused (List.length (options (meta poll)))
                          (get_prop payload "option_index")) eqn:G.
  { rewrite (vote_refused_index_is_ignored this payload senderHex poll) by auto.
    apply step_dropped. }
  destruct (JsMap.has String.eqb (votes poll) senderHex) eqn:Hhas.
  { rewrite (vote_duplicate_ignored this payload senderHex poll Hget Hhas).
    apply step_dropped. }
  destruct (index_accepted_is_number _ _ G) as [x Hx]. rewrite Hx in G.
  rewrite (_onVote_accepted this payload senderHex poll x) by auto.
  now apply step_voted.
Qed.

Lemma _onClose_step :
  forall this payload senderHex now,
    store_step (polls this)
               (polls (instance_after (_onClose payload senderHex now) this)).
Proof.
  intros this payload senderHex now.
  destruct (nullish payload) eqn:Hobj.
  { unfold instance_after, _onClose. rewrite Hobj. apply step_dropped. }
  destruct (polls_get (polls this) (get_prop payload "poll_id")) as [poll|] eqn:Hget.
  2: { rewrite (close_noop this payload senderHex now (or_introl Hget)).
       apply step_dropped. }
  destruct (closed poll) eqn:Hclosed.
  { rewrite (close_noop this payload senderHex now
               (or_intror (ex_intro _ poll (conj Hget Hclosed)))).
    apply step_dropped. }
  rewrite (proj1 (_onClose_accepted this payload senderHex now poll
                    Hobj Hget Hclosed)).
  now apply step_closed.
Qed.

Lemma _handleMessage_step :
  forall this payload key now,
    store_step (polls this)
               (polls (instance_after (_handleMessage payload key now) this)).
Proof.
  intros this payload key now. unfold _handleMessage.
  destruct (negb (truthy payload) || negb (truthy (get_prop payload "type")));
    [apply step_dropped|].
  destruct (strict_eq (get_prop payload "type") (VString "poll:create"));
    [apply _onCreate_step|].
  destruct (strict_eq (get_prop payload "type") (VString "poll:vote"));
    [apply _onVote_step|].
  destruct (strict_eq (get_prop payload "type") (VString "poll:close"));
    [apply _onClose_step | apply step_dropped].
Qed.

(** What the listener makes of its handler: the same instance, the same
    trace but for the report of a failure. *)
Lemma deliver_instance :
  forall d this,
    instance_after (deliver d) this
    = if strict_eq (d_channel d) (d_captured d)
      then instance_after (_handleMessage (d_payload d) (d_senderKey d) (d_now d))
                          this
      else this.
Proof.
  intros d this. unfold deliver, on_message, instance_after.
  destruct (strict_eq (d_channel d) (d_captured d)); [|reflexivity].
  cbn [negb].
  destruct (_handleMessage (d_payload d) (d_senderKey d) (d_now d) this)
    as [[[u|] this'] t]; reflexivity.
Qed.

Lemma deliver_step :
  forall this d,
    store_step (polls this) (polls (instance_after (deliver d) this)).
Proof.
  intros this d. rewrite deliver_instance.
  destruct (strict_eq (d_channel d) (d_captured d));
    [apply _handleMessage_step | apply step_dropped].
Qed.

(** A message of another channel than the one the listener was registered
    for is skipped: nothing is handled, nothing is printed. *)
Lemma deliver_other_channel :
  forall this d,
    strict_eq (d_channel d) (d_captured d) = false ->
    deliver d this = (Returned tt, this, []).
Proof.
  intros this d H. unfold deliver, on_message. rewrite H. reflexivity.
Qed.

(** ** Facts about [Map] *)

Module JsMapFacts.
Section Facts.
Context {K V : Type} (key_eq : K -> K -> bool).

Lemma has_false_get :
  forall (m : JsMap.t K V) k,
    JsMap.has key_eq m k = false <-> JsMap.get key_eq m k = None.
Proof.
  intros m k. unfold JsMap.has.
  destruct (JsMap.get key_eq m k); split; congruence.
Qed.

Lemma get_In :
  forall (m : JsMap.t K V) k v,
    JsMap.get key_eq m k = Some v -> exists k', In (k', v) m.
Proof.
  induction m as [|[k0 v0] m IH]; cbn; intros k v H; [discriminate|].
  destruct (key_eq k0 k).
  - inversion H; subst. eauto.
  - destruct (IH _ _ H) as [k' Hin]. eauto.
Qed.

Lemma set_absent :
  forall (m : JsMap.t K V) k v,
    JsMap.get key_eq m k = None -> JsMap.set key_eq m k v = m ++ [(k, v)].
Proof.
  induction m as [|[k0 v0] m IH]; cbn; intros k v H; [reflexivity|].
  destruct (key_eq k0 k); [discriminate|]. now rewrite IH.
Qed.

Lemma get_app_l :
  forall (m l : JsMap.t K V) k v,
    JsMap.get key_eq m k = Some v -> JsMap.get key_eq (m ++ l) k = Some v.
Proof.
  induction m as [|[k0 v0] m IH]; cbn; intros l k v H; [discriminate|].
  destruct (key_eq k0 k); auto.
Qed.

Lemma get_set_hit :
  forall (m : JsMap.t K V) k v v',
    JsMap.get key_eq m k = Some v ->
    JsMap.get key_eq (JsMap.set key_eq m k v') k = Some v'.
Proof.
  induction m as [|[k0 v0] m IH]; cbn; intros k v v' H; [discriminate|].
  destruct (key_eq k0 k) eqn:E; cbn; rewrite E; eauto.
Qed.

(** Writing under a key that is present touches the entry [get] finds
    under that key and no other. *)
Lemma get_set_present :
  forall (m : JsMap.t K V) k v v',
    JsMap.get key_eq m k = Some v ->
    forall id p,
      JsMap.get key_eq m id = Some p ->
      exists p',
        JsMap.get key_eq (JsMap.set key_eq m k v') id = Some p' /\
        (p' = p \/ (p = v /\ p' = v')).
Proof.
  induction m as [|[k0 v0] m IH]; cbn; intros k v v' H id p Hid;
    [discriminate|].
  destruct (key_eq k0 k) eqn:E.
  - inversion H; subst. cbn.
    destruct (key_eq k0 id); eauto.
    inversion Hid; subst. eauto.
  - cbn. destruct (key_eq k0 id); eauto.
Qed.

Lemma Forall_set :
  forall (P : V -> Prop) (m : JsMap.t K V) k v,
    Forall (fun kv => P (snd kv)) m -> P v ->
    Forall (fun kv => P (snd kv)) (JsMap.set key_eq m k v).
Proof.
  intros P. induction m as [|[k0 v0] m IH]; cbn; intros k v Hm Hv.
  - constructor; auto.
  - inversion Hm; subst. destruct (key_eq k0 k); constructor; auto.
Qed.

Lemma Forall_get :
  forall (P : V -> Prop) (m : JsMap.t K V) k v,
    Forall (fun kv => P (snd kv)) m ->
    JsMap.get key_eq m k = Some v -> P v.
Proof.
  intros P m k v Hm Hget. destruct (get_In _ _ _ Hget) as [k' Hin].
  rewrite Forall_forall in Hm. exact (Hm _ Hin).
Qed.
End Facts.
End JsMapFacts.

Lemma votes_has_false_not_In :
  forall (vs : JsMap.t string number) (s : string),
    JsMap.has String.eqb vs s = false -> ~ In s (JsMap.keys vs).
Proof.
  intros vs s H. apply JsMapFacts.has_false_get in H.
  induction vs as [|[k v] vs IH]; cbn in *; [tauto|].
  destruct (String.eqb k s) eqn:E; [discriminate|].
  apply String.eqb_neq in E. intros [Heq | Hin]; [congruence|].
  exact (IH H Hin).
Qed.

(** ** Invariants of the transition system *)

Lemma evolves_refl : forall p, evolves p p.
Proof.
  intros p. constructor; auto.
  exists []. split; [now rewrite app_nil_r | auto].
Qed.

Lemma with_vote_appends :
  forall p senderHex x,
    JsMap.has String.eqb (votes p) senderHex = false ->
    votes (with_vote p senderHex x) = votes p ++ [(senderHex, x)].
Proof.
  intros p senderHex x H. cbn.
  apply JsMapFacts.set_absent. now apply JsMapFacts.has_false_get.
Qed.

Lemma evolves_with_vote :
  forall p senderHex x,
    closed p = false ->
    JsMap.has String.eqb (votes p) senderHex = false ->
    evolves p (with_vote p senderHex x).
Proof.
  intros p senderHex x Hopen Hhas. constructor.
  - reflexivity.
  - exists [(senderHex, x)]. split; [now apply with_vote_appends | congruence].
  - congruence.
  - intros _. left. auto.
Qed.

Lemma evolves_closed_with :
  forall p r, closed p = false -> evolves p (closed_with p r).
Proof.
  intros p r Hopen. constructor.
  - reflexivity.
  - exists []. split; [cbn; now rewrite app_nil_r | auto].
  - congruence.
  - intros _. right. cbn. eauto.
Qed.

(** Every record of the store is still there after a step, under the same
    id, and has evolved. *)
Lemma store_step_evolves :
  forall ps ps',
    store_step ps ps' ->
    forall id p,
      polls_get ps id = Some p ->
      exists p', polls_get ps' id = Some p' /\ evolves p p'.
Proof.
  intros ps ps' S. destruct S as
      [ps | ps id0 q o c cr now Hfresh Hlen
       | ps id0 p0 s x Hget Hopen Hidx Hhas
       | ps id0 p0 now Hget Hopen]; intros id p Hp.
  - exists p. split; [assumption | apply evolves_refl].
  - exists p. split; [|apply evolves_refl].
    unfold polls_set, polls_has, polls_get in *.
    apply JsMapFacts.has_false_get in Hfresh.
    rewrite (JsMapFacts.set_absent _ _ _ _ Hfresh).
    now apply JsMapFacts.get_app_l.
  - unfold polls_set, polls_get in *.
    destruct (JsMapFacts.get_set_present same_value_zero ps id0 p0
                (with_vote p0 s x) Hget id p Hp) as [p' [Hp' [E | [E1 E2]]]];
      exists p'; split; auto; subst.
    + apply evolves_refl.
    + now apply evolves_with_vote.
  - unfold polls_set, polls_get in *.
    destruct (JsMapFacts.get_set_present same_value_zero ps id0 p0
                (closed_with p0 (tally p0 now)) Hget id p Hp)
      as [p' [Hp' [E | [E1 E2]]]];
      exists p'; split; auto; subst.
    + apply evolves_refl.
    + now apply evolves_closed_with.
Qed.

Lemma poll_ok_fresh :
  forall q o c cr now,
    (2 <= List.length o)%nat -> poll_ok (fresh_poll q o c cr now).
Proof.
  intros q o c cr now H. constructor; cbn; auto; try constructor; discriminate.
Qed.

Lemma poll_ok_with_vote :
  forall p senderHex x,
    poll_ok p ->
    closed p = false ->
    index_refused (List.length (options (meta p))) (VNumber x) = false ->
    JsMap.has String.eqb (votes p) senderHex = false ->
    poll_ok (with_vote p senderHex x).
Proof.
  intros p senderHex x [Ho Hv Hi Hop Hcl] Hopen Hidx Hhas.
  constructor; try rewrite with_vote_appends by assumption.
  - exact Ho.
  - unfold JsMap.keys. rewrite map_app. apply NoDup_app; auto.
    + cbn. constructor; [tauto | constructor].
    + intros a Ha [E | []]. cbn in E. subst a.
      exact (votes_has_false_not_In _ _ Hhas Ha).
  - unfold JsMap.values. rewrite map_app. apply Forall_app. split; auto.
    cbn. constructor; auto.
  - exact Hop.
  - cbn. congruence.
Qed.

Lemma poll_ok_closed_with :
  forall p now,
    poll_ok p -> poll_ok (closed_with p (tally p now)).
Proof.
  intros p now [Ho Hv Hi Hop Hcl]. constructor; auto.
  cbn. discriminate.
Qed.

Lemma store_step_ok :
  forall ps ps', store_step ps ps' -> store_ok ps -> store_ok ps'.
Proof.
  intros ps ps' S Hok. unfold store_ok in *. destruct S as
      [ps | ps id0 q o c cr now Hfresh Hlen
       | ps id0 p0 s x Hget Hopen Hidx Hhas
       | ps id0 p0 now Hget Hopen].
  - assumption.
  - apply JsMapFacts.Forall_set; [assumption | now apply poll_ok_fresh].
  - apply JsMapFacts.Forall_set; [assumption|].
    apply poll_ok_with_vote; auto.
    exact (JsMapFacts.Forall_get _ poll_ok _ _ _ Hok Hget).
  - apply JsMapFacts.Forall_set; [assumption|].
    apply poll_ok_closed_with.
    exact (JsMapFacts.Forall_get _ poll_ok _ _ _ Hok Hget).
Qed.

(** Every store reached by deliveries from an empty store is well formed. *)
Lemma run_store_ok :
  forall ds this, store_ok (polls this) -> store_ok (polls (run ds this)).
Proof.
  induction ds as [|d ds IH]; intros this H; [exact H|].
  cbn. apply IH. fold (instance_after (deliver d) this).
  eapply store_step_ok; [apply deliver_step | exact H].
Qed.

Lemma run_from_empty_ok :
  forall ds this0 id p,
    polls this0 = JsMap.empty ->
    polls_get (polls (run ds this0)) id = Some p ->
    poll_ok p.
Proof.
  intros ds this0 id p H0 Hget.
  assert (Hok : store_ok (polls (run ds this0))).
  { apply run_store_ok. rewrite H0. constructor. }
  exact (JsMapFacts.Forall_get _ poll_ok _ _ _ Hok Hget).
Qed.

(** ** The life of a poll record *)

(** C5. In every store reached by a sequence of deliveries from an empty
    store, each poll record has every voter at most once, has no result
    while it is open and has one once it is closed; and whatever is
    delivered next, the record is still there and has evolved: same meta;
    [votes] is the old [votes] with entries added at the end, none when the
    poll was closed; a closed poll stays closed with the result it had; an
    open poll either stays open without a result or becomes closed, with
    the votes it had and a result, in that one step. *)
Theorem poll_lifecycle_invariants :
  forall (this0 : TracPoll) (ds : list delivery) (d : delivery)
         (id : value) (p : Poll),
    polls this0 = JsMap.empty ->
    polls_get (polls (run ds this0)) id = Some p ->
    NoDup (JsMap.keys (votes p)) /\
    (closed p = false -> result p = None) /\
    (closed p = true -> exists r, result p = Some r) /\
    exists p',
      polls_get (polls (instance_after (deliver d) (run ds this0))) id = Some p' /\
      evolves p p'.
Proof.
  intros this0 ds d id p H0 Hget.
  pose proof (run_from_empty_ok ds this0 id p H0 Hget) as [Ho Hv Hi Hop Hcl].
  split; [exact Hv|]. split; [exact Hop|]. split.
  - intros Hc. eexists. exact (Hcl Hc).
  - exact (store_step_evolves _ _ (deliver_step (run ds this0) d) id p Hget).
Qed.

Lemma poll_lifecycle_invariants_witness :
  let this0 := attached willing_peer VUndefined in
  let ds := [message (create_payload (VString "p1") (VString "Q")
                        (VArray 1 (strings ["A"; "B"]))) "admin" 7;
             message (vote_payload (VString "p1") (VNumber (of_int 1))) "alice" 8] in
  let d := message (close_payload (VString "p1")) "admin" 9 in
  let p := {| meta := {| question := VString "Q"; options := strings ["A"; "B"];
                         closes_at := VNull; creator := "admin"; created_at := 7 |};
              votes := [("alice", of_int 1)]; closed := false; result := None |} in
  exists p',
    polls_get (polls (instance_after (deliver d) (run ds this0))) (VString "p1")
      = Some p' /\
    evolves p p'.
Proof.
  intros this0 ds d p.
  refine (proj2 (proj2 (proj2
    (poll_lifecycle_invariants this0 ds d (VString "p1") p _ _)))).
  - reflexivity.
  - vm_compute. reflexivity.
Defined.

(** ** Numbers that are counts *)

Lemma num_lt_of_nat :
  forall a b : nat, num_lt (of_nat a) (of_nat b) = (a <? b)%nat.
Proof.
  intros a b. unfold num_lt, of_nat, of_int, Qle_bool.
  cbn [inject_Z Qnum Qden]. rewrite !Z.mul_1_r.
  destruct (Nat.ltb_spec a b).
  - apply negb_true_iff, Z.leb_gt. lia.
  - apply negb_false_iff, Z.leb_le. lia.
Qed.

Lemma num_le_of_nat :
  forall a b : nat, num_le (of_nat a) (of_nat b) = (a <=? b)%nat.
Proof.
  intros a b. unfold num_le, of_nat, of_int, Qle_bool.
  cbn [inject_Z Qnum Qden]. rewrite !Z.mul_1_r.
  destruct (Nat.leb_spec a b).
  - apply Z.leb_le. lia.
  - apply Z.leb_gt. lia.
Qed.

Lemma num_strict_eq_of_nat :
  forall a b : nat, num_strict_eq (of_nat a) (of_nat b) = (a =? b)%nat.
Proof.
  intros a b. unfold num_strict_eq, of_nat, of_int.
  destruct (Nat.eqb_spec a b) as [E | N].
  - subst. apply Qeq_bool_refl.
  - apply not_true_iff_false. intros H. apply Qeq_bool_iff in H.
    unfold Qeq in H. cbn [inject_Z Qnum Qden] in H. lia.
Qed.

Lemma num_succ_of_nat : forall c : nat, num_succ (of_nat c) = of_nat (S c).
Proof.
  intros c. unfold num_succ, of_nat, of_int, inject_Z, Qplus. cbn [Qnum Qden].
  f_equal. f_equal. lia.
Qed.

Lemma max2_of_nat :
  forall a b : nat, max2 (of_nat a) (of_nat b) = of_nat (Nat.max a b).
Proof.
  intros a b. unfold max2. rewrite num_lt_of_nat.
  change (of_nat a) with (Fin (inject_Z (Z.of_nat a))).
  change (of_nat b) with (Fin (inject_Z (Z.of_nat b))).
  cbv beta iota.
  destruct (Nat.ltb_spec a b).
  - rewrite Nat.max_r by lia. reflexivity.
  - rewrite Nat.max_l by lia. reflexivity.
Qed.

(** An index the vote guard lets through is, when it is an array index at
    all, below the number of options. *)
Lemma accepted_index_in_range :
  forall (n : nat) (x : number) (k : nat),
    index_refused n (VNumber x) = false ->
    array_index x = Some k ->
    (k < n)%nat.
Proof.
  intros n x k Hacc Hidx. unfold index_refused in Hacc. cbn in Hacc.
  apply orb_false_elim in Hacc. destruct Hacc as [_ Hge].
  destruct x as [| |[a d]]; cbn in Hidx; try discriminate.
  match type of Hidx with
  | (if ?g then _ else _) = _ => destruct g eqn:G; [|discriminate]
  end.
  inversion Hidx; subst k; clear Hidx.
  apply andb_prop in G. destruct G as [G G3].
  apply andb_prop in G. destruct G as [G1 G2].
  apply Z.eqb_eq in G1. apply Z.leb_le in G2.
  unfold num_ge, num_le, of_nat, of_int, Qle_bool in Hge. cbn in Hge.
  apply Z.leb_gt in Hge.
  pose proof (Z.div_mod a (Z.pos d) ltac:(lia)) as Hdm.
  rewrite G1, Z.add_0_r in Hdm.
  assert (a / Z.pos d < Z.of_nat n) by nia.
  lia.
Qed.

(** An integer in [0, n) passes the vote guard. *)
Lemma valid_index_accepted :
  forall (n : nat) (x : number),
    is_valid_index n x = true -> index_refused n (VNumber x) = false.
Proof.
  intros n x H. unfold is_valid_index in H.
  destruct (array_index x) as [k|] eqn:Hidx; [|discriminate].
  apply Nat.ltb_lt in H.
  destruct x as [| |[a d]]; cbn in Hidx; try discriminate.
  match type of Hidx with
  | (if ?g then _ else _) = _ => destruct g eqn:G; [|discriminate]
  end.
  inversion Hidx; subst k; clear Hidx.
  apply andb_prop in G. destruct G as [G G3].
  apply andb_prop in G. destruct G as [G1 G2].
  apply Z.eqb_eq in G1. apply Z.leb_le in G2.
  pose proof (Z.div_mod a (Z.pos d) ltac:(lia)) as Hdm.
  rewrite G1, Z.add_0_r in Hdm.
  unfold index_refused, num_ge, num_le, num_lt, of_nat, of_int, Qle_bool. cbn.
  apply orb_false_intro.
  - apply negb_false_iff. apply Z.leb_le. nia.
  - apply Z.leb_gt. nia.
Qed.

(** ** The tally array holds the counts *)

Lemma bump_length : forall cs k, List.length (bump cs k) = List.length cs.
Proof.
  induction cs as [|c cs IH]; intros [|k]; cbn; auto.
Qed.

Lemma nth_bump :
  forall cs k i,
    (k < List.length cs)%nat ->
    nth i (bump cs k) 0%nat
    = (nth i cs 0 + if (k =? i)%nat then 1 else 0)%nat.
Proof.
  induction cs as [|c cs IH]; intros k i Hk; cbn in Hk; [lia|].
  destruct k as [|k], i as [|i]; cbn [bump nth Nat.eqb]; try lia.
  apply IH. lia.
Qed.

Lemma list_sum_bump :
  forall cs k,
    (k < List.length cs)%nat -> list_sum (bump cs k) = S (list_sum cs).
Proof.
  induction cs as [|c cs IH]; intros k Hk; cbn in Hk; [lia|].
  destruct k as [|k]; cbn [bump].
  - change (list_sum (S c :: cs)) with (S c + list_sum cs)%nat.
    change (list_sum (c :: cs)) with (c + list_sum cs)%nat. lia.
  - change (list_sum (c :: bump cs k)) with (c + list_sum (bump cs k))%nat.
    change (list_sum (c :: cs)) with (c + list_sum cs)%nat.
    rewrite IH by lia. lia.
Qed.

Lemma get_cell_counts :
  forall cs k,
    (k < List.length cs)%nat ->
    get_cell (cells_of_counts cs) k = Some (of_nat (nth k cs 0%nat)).
Proof.
  induction cs as [|c cs IH]; intros k Hk; cbn in Hk; [lia|].
  destruct k as [|k]; [reflexivity|]. apply IH. lia.
Qed.

Lemma set_cell_counts :
  forall cs k,
    (k < List.length cs)%nat ->
    set_cell (cells_of_counts cs) k
             (num_succ (cell_number (get_cell (cells_of_counts cs) k)))
    = cells_of_counts (bump cs k).
Proof.
  induction cs as [|c cs IH]; intros k Hk; cbn in Hk; [lia|].
  destruct k as [|k].
  - cbn [cells_of_counts map set_cell get_cell nth cell_number bump].
    now rewrite num_succ_of_nat.
  - cbn [cells_of_counts map set_cell bump]. f_equal. apply IH. lia.
Qed.

Lemma increment_counts :
  forall cs x,
    index_refused (List.length cs) (VNumber x) = false ->
    increment (cells_of_counts cs) x = cells_of_counts (bump_at cs x).
Proof.
  intros cs x Hacc. unfold increment, bump_at.
  destruct (array_index x) as [k|] eqn:Hidx; [|reflexivity].
  apply set_cell_counts. eapply accepted_index_in_range; eauto.
Qed.

Lemma bump_at_length :
  forall cs x, List.length (bump_at cs x) = List.length cs.
Proof.
  intros cs x. unfold bump_at. destruct (array_index x); auto using bump_length.
Qed.

Lemma fold_bump_at_length :
  forall xs cs, List.length (fold_left bump_at xs cs) = List.length cs.
Proof.
  induction xs as [|x xs IH]; intros cs; cbn; [reflexivity|].
  now rewrite IH, bump_at_length.
Qed.

Lemma fold_increment_counts :
  forall xs cs,
    Forall (fun x => index_refused (List.length cs) (VNumber x) = false) xs ->
    fold_left increment xs (cells_of_counts cs)
    = cells_of_counts (fold_left bump_at xs cs).
Proof.
  induction xs as [|x xs IH]; intros cs H; cbn; [reflexivity|].
  inversion H as [|? ? Hx Hxs]; subst.
  rewrite increment_counts by assumption.
  apply IH. now rewrite bump_at_length.
Qed.

Lemma zero_filled_counts :
  forall n, zero_filled n = cells_of_counts (repeat 0%nat n).
Proof.
  induction n as [|n IH]; cbn; [reflexivity|].
  unfold zero_filled in IH. now rewrite IH.
Qed.

(** With indices the guard let through, the tally loop computes the counts. *)
Lemma count_votes_counts :
  forall n vs,
    Forall (fun x => index_refused n (VNumber x) = false) (JsMap.values vs) ->
    count_votes n vs = cells_of_counts (tally_counts n vs).
Proof.
  intros n vs H. unfold count_votes, tally_counts.
  rewrite zero_filled_counts. apply fold_increment_counts.
  now rewrite repeat_length.
Qed.

Lemma tally_counts_length :
  forall n vs, List.length (tally_counts n vs) = n.
Proof.
  intros n vs. unfold tally_counts.
  now rewrite fold_bump_at_length, repeat_length.
Qed.

Lemma nth_fold_bump_at :
  forall xs cs i,
    Forall (fun x => index_refused (List.length cs) (VNumber x) = false) xs ->
    nth i (fold_left bump_at xs cs) 0%nat
    = (nth i cs 0 + List.length (filter (names_option i) xs))%nat.
Proof.
  induction xs as [|x xs IH]; intros cs i H; cbn [fold_left filter]; [cbn; lia|].
  inversion H as [|? ? Hx Hxs]; subst.
  rewrite IH by now rewrite bump_at_length.
  unfold bump_at, names_option.
  destruct (array_index x) as [k|] eqn:Hidx; [|reflexivity].
  rewrite nth_bump by (eapply accepted_index_in_range; eauto).
  destruct (k =? i)%nat; cbn [List.length]; lia.
Qed.

Lemma nth_tally_counts :
  forall n vs i,
    Forall (fun x => index_refused n (VNumber x) = false) (JsMap.values vs) ->
    nth i (tally_counts n vs) 0%nat = votes_for i vs.
Proof.
  intros n vs i H. unfold tally_counts, votes_for.
  rewrite nth_fold_bump_at by now rewrite repeat_length.
  now rewrite nth_repeat.
Qed.

Lemma list_sum_fold_bump_at :
  forall xs cs,
    Forall (fun x => is_valid_index (List.length cs) x = true) xs ->
    list_sum (fold_left bump_at xs cs) = (list_sum cs + List.length xs)%nat.
Proof.
  induction xs as [|x xs IH]; intros cs H; cbn [fold_left List.length]; [lia|].
  inversion H as [|? ? Hx Hxs]; subst.
  rewrite IH by now rewrite bump_at_length.
  unfold bump_at. unfold is_valid_index in Hx.
  destruct (array_index x) as [k|]; [|discriminate].
  apply Nat.ltb_lt in Hx. rewrite list_sum_bump by assumption. lia.
Qed.

Lemma list_sum_repeat_0 : forall n, list_sum (repeat 0%nat n) = 0%nat.
Proof. induction n; cbn; auto. Qed.

Lemma list_sum_tally_counts :
  forall n vs,
    Forall (fun x => is_valid_index n x = true) (JsMap.values vs) ->
    list_sum (tally_counts n vs) = JsMap.size vs.
Proof.
  intros n vs H. unfold tally_counts.
  rewrite list_sum_fold_bump_at by now rewrite repeat_length.
  rewrite list_sum_repeat_0. unfold JsMap.size, JsMap.values.
  now rewrite length_map.
Qed.

(** ** Tallies of accepted votes *)

Lemma votes_not_In_has_false :
  forall (vs : JsMap.t string number) (s : string),
    ~ In s (JsMap.keys vs) -> JsMap.has String.eqb vs s = false.
Proof.
  intros vs s H. apply JsMapFacts.has_false_get.
  induction vs as [|[k v] vs IH]; cbn in *; [reflexivity|].
  destruct (String.eqb_spec k s) as [E | N]; [tauto|].
  apply IH. tauto.
Qed.

(** Valid votes by new, distinct senders on an open poll are all recorded,
    in the order they come. *)
Lemma cast_accepted :
  forall events this pid poll,
    polls_get (polls this) pid = Some poll ->
    closed poll = false ->
    Forall (valid_vote_for pid (List.length (options (meta poll)))) events ->
    NoDup (JsMap.keys (votes poll) ++ map snd events) ->
    polls_get (polls (cast events this)) pid
    = Some {| meta := meta poll;
              votes := votes poll ++ map ballot events;
              closed := false;
              result := result poll |}.
Proof.
  induction events as [|[payload s] events IH];
    intros this pid poll Hget Hopen Hvalid Hnodup.
  - cbn. rewrite app_nil_r, Hget, <- Hopen. now destruct poll.
  - inversion Hvalid as [|? ? [Hpid [x [Hx Hidx]]] Hrest]; subst.
    cbn [fst snd] in *.
    assert (Hfresh : JsMap.has String.eqb (votes poll) s = false).
    { apply votes_not_In_has_false. intros Hin.
      apply NoDup_remove_2 in Hnodup. apply Hnodup.
      apply in_or_app. now left. }
    cbn [cast fold_left fst snd]. fold (cast events).
    pose proof (_onVote_accepted this payload s poll x Hget Hopen Hx
                  (valid_index_accepted _ _ Hidx) Hfresh) as Hstep.
    rewrite (IH _ (get_prop payload "poll_id") (with_vote poll s x)).
    + rewrite with_vote_appends by assumption.
      unfold ballot at 2. cbn [fst snd map meta with_vote result].
      rewrite Hx. cbn [as_number]. now rewrite <- app_assoc.
    + rewrite Hstep. unfold polls_get, polls_set.
      eapply JsMapFacts.get_set_hit. exact Hget.
    + exact Hopen.
    + exact Hrest.
    + rewrite with_vote_appends by assumption.
      unfold JsMap.keys. rewrite map_app, <- app_assoc. exact Hnodup.
Qed.

(** C3. On an open poll whose recorded votes all carry valid option
    indices, any sequence of vote events for that poll with valid option
    indices and distinct senders that have not voted yet is accepted in
    full; a close event (an object, as every payload that [_handleMessage]
    hands on is) that follows leaves a result whose [tallies] hold, for
    every option [i], the number of voters whose recorded option index is
    [i], and the sum of the tallies, [total_votes] and the number of
    (distinct) voters are the same number. *)
Theorem tally_counts_accepted_votes :
  forall (this : TracPoll) (pid : value) (poll : Poll)
         (events : list (value * string))
         (close_event : value) (senderHex : string) (now : Z),
    polls_get (polls this) pid = Some poll ->
    closed poll = false ->
    Forall (fun x => is_valid_index (List.length (options (meta poll))) x = true)
           (JsMap.values (votes poll)) ->
    Forall (valid_vote_for pid (List.length (options (meta poll)))) events ->
    NoDup (JsMap.keys (votes poll) ++ map snd events) ->
    get_prop close_event "poll_id" = pid ->
    nullish close_event = false ->
    exists p r counts,
      polls_get (polls (instance_after (_onClose close_event senderHex now)
                          (cast events this))) pid = Some p /\
      closed p = true /\
      result p = Some r /\
      votes p = votes poll ++ map ballot events /\
      NoDup (JsMap.keys (votes p)) /\
      tallies r = cells_of_counts counts /\
      List.length counts = List.length (options (meta poll)) /\
      (forall i, (i < List.length (options (meta poll)))%nat ->
         nth i counts 0%nat = votes_for i (votes p)) /\
      list_sum counts = total_votes r /\
      total_votes r = List.length (JsMap.keys (votes p)).
Proof.
  intros this pid poll events close_event senderHex now
         Hget Hopen Hold Hnew Hnodup Hpid Hobj.
  set (n := List.length (options (meta poll))) in *.
  set (voted := {| meta := meta poll;
                   votes := votes poll ++ map ballot events;
                   closed := false;
                   result := result poll |}).
  assert (Hcast : polls_get (polls (cast events this)) pid = Some voted)
    by (apply cast_accepted; assumption).
  assert (Hvals : Forall (fun x => is_valid_index n x = true)
                         (JsMap.values (votes voted))).
  { unfold JsMap.values. cbn [votes voted]. rewrite map_app.
    apply Forall_app. split; [exact Hold|].
    clear -Hnew. induction Hnew as [|[payload s] es [_ [x [Hx Hi]]] _ IH];
      cbn; constructor; auto.
    cbn in Hx. rewrite Hx. exact Hi. }
  assert (Hacc : Forall (fun x => index_refused n (VNumber x) = false)
                        (JsMap.values (votes voted))).
  { eapply Forall_impl; [|exact Hvals]. cbn. intros x.
    apply valid_index_accepted. }
  exists (closed_with voted (tally voted now)), (tally voted now),
         (tally_counts n (votes voted)).
  split.
  { subst pid. rewrite (_onClose_accepted_polls _ _ _ _ voted Hobj Hcast eq_refl).
    unfold polls_get, polls_set. eapply JsMapFacts.get_set_hit. exact Hcast. }
  split; [reflexivity|]. split; [reflexivity|]. split; [reflexivity|].
  split.
  { cbn [votes closed_with voted]. unfold JsMap.keys. rewrite map_app.
    replace (map fst (map ballot events)) with (map snd events); [exact Hnodup|].
    rewrite map_map. reflexivity. }
  split.
  { cbn [tallies tally]. apply count_votes_counts. exact Hacc. }
  split; [apply tally_counts_length|].
  split.
  { intros i _. cbn [votes closed_with]. apply nth_tally_counts. exact Hacc. }
  split.
  { cbn [total_votes tally]. apply list_sum_tally_counts. exact Hvals. }
  cbn [total_votes tally votes closed_with]. unfold JsMap.size, JsMap.keys.
  now rewrite length_map.
Qed.

Lemma tally_counts_accepted_votes_witness :
  let this := run [message (create_payload (VString "p1") (VString "Q")
                              (VArray 1 (strings ["X"; "Y"]))) "admin" 7]
                  (attached willing_peer VUndefined) in
  let poll := fresh_poll (VString "Q") (strings ["X"; "Y"]) VNull "admin" 7 in
  let events := [(vote_payload (VString "p1") (VNumber (of_int 1)), "alice");
                 (vote_payload (VString "p1") (VNumber (of_int 0)), "bob");
                 (vote_payload (VString "p1") (VNumber (of_int 1)), "carol")] in
  exists p r counts,
    polls_get (polls (instance_after
                        (_onClose (close_payload (VString "p1")) "admin" 9)
                        (cast events this))) (VString "p1") = Some p /\
    closed p = true /\
    result p = Some r /\
    votes p = votes poll ++ map ballot events /\
    NoDup (JsMap.keys (votes p)) /\
    tallies r = cells_of_counts counts /\
    List.length counts = List.length (options (meta poll)) /\
    (forall i, (i < List.length (options (meta poll)))%nat ->
       nth i counts 0%nat = votes_for i (votes p)) /\
    list_sum counts = total_votes r /\
    total_votes r = List.length (JsMap.keys (votes p)).
Proof.
  intros this poll events.
  apply (tally_counts_accepted_votes this (VString "p1") poll events
           (close_payload (VString "p1")) "admin" 9).
  - vm_compute. reflexivity.
  - reflexivity.
  - constructor.
  - repeat constructor; eexists; split; reflexivity.
  - cbn. repeat constructor; cbn; intuition discriminate.
  - reflexivity.
  - reflexivity.
Defined.

(** The end-to-end scenario: poll [p1] with options X and Y, three senders
    voting 1, 0, 1, then a close. *)
Example end_to_end_scenario :
  let ds := [message (create_payload (VString "p1") (VString "Q")
                        (VArray 1 (strings ["X"; "Y"]))) "admin" 7;
             message (vote_payload (VString "p1") (VNumber (of_int 1))) "alice" 8;
             message (vote_payload (VString "p1") (VNumber (of_int 0))) "bob" 8;
             message (vote_payload (VString "p1") (VNumber (of_int 1))) "carol" 8] in
  let this := run ds (attached willing_peer VUndefined) in
  let close := message (close_payload (VString "p1")) "admin" 9 in
  let r := {| tallies := cells_of_counts [1%nat; 2%nat]; total_votes := 3;
              closed_at := 9; winner_index := 1; winner_option := VString "Y" |} in
  option_map result (polls_get (polls (instance_after (deliver close) this))
                               (VString "p1")) = Some (Some r) /\
  external_calls (trace_of (deliver close) this)
  = [ContractPut (meta_key (VString "p1"))
       (MetaDoc (VString "Q") (strings ["X"; "Y"]) 7);
     ContractPut (result_key (VString "p1")) (ResultDoc r);
     SendSidechannel votes_channel
       {| msg_type := "poll:result"; msg_poll_id := VString "p1";
          msg_question := VString "Q"; msg_options := strings ["X"; "Y"];
          msg_result := r |}].
Proof.
  cbv zeta. split; vm_compute; reflexivity.
Qed.

(** ** The winner *)

Lemma spread_counts : forall cs, spread (cells_of_counts cs) = map of_nat cs.
Proof.
  intros cs. unfold spread, cells_of_counts. rewrite map_map. reflexivity.
Qed.

Lemma fold_max2_counts :
  forall cs a,
    fold_left max2 (map of_nat cs) (of_nat a) = of_nat (fold_left Nat.max cs a).
Proof.
  induction cs as [|c cs IH]; intros a; cbn [map fold_left]; [reflexivity|].
  now rewrite max2_of_nat, IH.
Qed.

Lemma Math_max_counts :
  forall c cs,
    Math_max (spread (cells_of_counts (c :: cs)))
    = of_nat (fold_left Nat.max cs c).
Proof.
  intros c cs. rewrite spread_counts. unfold Math_max. cbn [map fold_left].
  change (max2 (Infinity true) (of_nat c)) with (of_nat c).
  apply fold_max2_counts.
Qed.

Lemma fold_max_ge_init :
  forall cs a, (a <= fold_left Nat.max cs a)%nat.
Proof.
  induction cs as [|c cs IH]; intros a; cbn; [lia|].
  specialize (IH (Nat.max a c)). lia.
Qed.

Lemma fold_max_ge_all :
  forall cs a x, In x cs -> (x <= fold_left Nat.max cs a)%nat.
Proof.
  induction cs as [|c cs IH]; intros a x Hin; cbn; [contradiction|].
  destruct Hin as [E | Hin]; [|now apply IH].
  subst. pose proof (fold_max_ge_init cs (Nat.max a x)). lia.
Qed.

Lemma fold_max_In :
  forall cs a, In (fold_left Nat.max cs a) (a :: cs).
Proof.
  induction cs as [|c cs IH]; intros a; cbn [fold_left]; [now left|].
  destruct (IH (Nat.max a c)) as [E | Hin].
  - destruct (Nat.max_spec a c) as [[_ M] | [_ M]]; rewrite M in *.
    + right. left. exact E.
    + left. exact E.
  - right. right. exact Hin.
Qed.

Lemma indexOf_from_counts :
  forall cs m i,
    indexOf_from (cells_of_counts cs) (of_nat m) (Z.of_nat i)
    = match first_index_from cs m i with
      | Some k => Z.of_nat k
      | None => -1
      end.
Proof.
  induction cs as [|c cs IH]; intros m i; [reflexivity|].
  cbn [cells_of_counts map indexOf_from first_index_from].
  rewrite num_strict_eq_of_nat.
  destruct (c =? m)%nat; [reflexivity|].
  replace (Z.of_nat i + 1) with (Z.of_nat (S i)) by lia. apply IH.
Qed.

Lemma first_index_from_spec :
  forall cs m i,
    In m cs ->
    exists k,
      first_index_from cs m i = Some (i + k)%nat /\
      (k < List.length cs)%nat /\
      nth k cs 0%nat = m /\
      (forall j, (j < k)%nat -> nth j cs 0%nat <> m).
Proof.
  induction cs as [|c cs IH]; intros m i Hin; [contradiction|].
  cbn [first_index_from].
  destruct (Nat.eqb_spec c m) as [E | N].
  - exists 0%nat. rewrite Nat.add_0_r. cbn. repeat split; auto; try lia.
  - destruct Hin as [E | Hin]; [contradiction|].
    destruct (IH m (S i) Hin) as [k [Hk [Hlt [Hnth Hbefore]]]].
    exists (S k). rewrite Hk. cbn [List.length nth].
    repeat split; auto; try lia; try (f_equal; lia).
    intros [|j] Hj; cbn; [exact N | apply Hbefore; lia].
Qed.

Lemma cells_of_counts_length :
  forall cs, List.length (cells_of_counts cs) = List.length cs.
Proof. intros cs. apply length_map. Qed.

(** On counts, [indexOf(Math.max(...))] is the first position of the
    largest count. *)
Lemma winner_of_counts :
  forall cs,
    cs <> [] ->
    first_maximum (cells_of_counts cs)
      (indexOf (cells_of_counts cs) (Math_max (spread (cells_of_counts cs)))).
Proof.
  intros [|c cs] Hne; [contradiction|].
  rewrite Math_max_counts. set (m := fold_left Nat.max cs c).
  unfold indexOf. change 0 with (Z.of_nat 0). rewrite indexOf_from_counts.
  destruct (first_index_from_spec (c :: cs) m 0 (fold_max_In cs c))
    as [k [Hk [Hlt [Hnth Hbefore]]]].
  rewrite Hk. cbn [Nat.add]. unfold first_maximum.
  rewrite cells_of_counts_length, Nat2Z.id.
  split; [lia|]. split.
  - intros j Hj. rewrite !get_cell_counts by assumption.
    cbn [cell_number]. rewrite num_le_of_nat, Hnth. apply Nat.leb_le.
    assert (Hin : In (nth j (c :: cs) 0%nat) (c :: cs)) by now apply nth_In.
    destruct Hin as [E | Hin].
    + rewrite <- E. apply fold_max_ge_init.
    + now apply fold_max_ge_all.
  - intros j Hj. rewrite !get_cell_counts by lia.
    cbn [cell_number]. rewrite num_lt_of_nat, Hnth. apply Nat.ltb_lt.
    assert (Hle : (nth j (c :: cs) 0 <= m)%nat).
    { assert (Hin : In (nth j (c :: cs) 0%nat) (c :: cs))
        by (apply nth_In; lia).
      destruct Hin as [E | Hin].
      - rewrite <- E. apply fold_max_ge_init.
      - now apply fold_max_ge_all. }
    specialize (Hbefore j Hj). lia.
Qed.

(** The result computed for a well-formed record names as winner the first
    option with the largest tally. *)
Lemma tally_winner :
  forall p now,
    poll_ok p ->
    first_maximum (tallies (tally p now)) (winner_index (tally p now)) /\
    winner_option (tally p now)
    = nth (Z.to_nat (winner_index (tally p now))) (options (meta p)) VUndefined.
Proof.
  intros p now [Ho Hv Hi Hop Hcl].
  assert (Hmax : first_maximum (tallies (tally p now))
                               (winner_index (tally p now))).
  { cbn [tallies winner_index tally].
    rewrite (count_votes_counts _ _ Hi).
    apply winner_of_counts. intros E.
    pose proof (tally_counts_length (List.length (options (meta p))) (votes p)) as L.
    rewrite E in L. cbn in L. lia. }
  split; [exact Hmax|].
  destruct Hmax as [[Hlo _] _].
  cbn [winner_option winner_index tally] in *. unfold element_at.
  destruct (Z.ltb_spec (indexOf (count_votes (List.length (options (meta p)))
                                             (votes p))
                                (Math_max (spread (count_votes
                                   (List.length (options (meta p))) (votes p)))))
                       0); [lia | reflexivity].
Qed.

(** C4. In every store reached by deliveries from an empty store, the
    result of a closed poll names as [winner_index] the smallest index at
    which [tallies] is largest, and [winner_option] is the option at that
    index.  With options A, B, C and two voters choosing 0 and 1, in either
    order, [tallies] is [1, 1, 0], [winner_index] is 0 and [winner_option]
    is A. *)
Theorem winner_is_first_maximum :
  (forall (this0 : TracPoll) (ds : list delivery) (id : value) (p : Poll)
          (r : Result),
      polls this0 = JsMap.empty ->
      polls_get (polls (run ds this0)) id = Some p ->
      result p = Some r ->
      first_maximum (tallies r) (winner_index r) /\
      winner_option r
      = nth (Z.to_nat (winner_index r)) (options (meta p)) VUndefined) /\
  (forall first second,
      (first = ("alice", 0) /\ second = ("bob", 1)) \/
      (first = ("bob", 1) /\ second = ("alice", 0)) ->
      option_map result
        (polls_get
           (polls (run [message (create_payload (VString "p") (VString "Q")
                                   three_options) "admin" 7;
                        message (vote_payload (VString "p")
                                   (VNumber (of_int (snd first)))) (fst first) 8;
                        message (vote_payload (VString "p")
                                   (VNumber (of_int (snd second)))) (fst second) 8;
                        message (close_payload (VString "p")) "admin" 9]
                       (attached willing_peer VUndefined)))
           (VString "p"))
      = Some (Some {| tallies := cells_of_counts [1%nat; 1%nat; 0%nat];
                      total_votes := 2;
                      closed_at := 9;
                      winner_index := 0;
                      winner_option := VString "A" |})).
Proof.
  split.
  - intros this0 ds id p r H0 Hget Hres.
    pose proof (run_from_empty_ok ds this0 id p H0 Hget) as Hok.
    assert (Hr : r = tally p (closed_at r)).
    { destruct Hok as [_ _ _ Hop Hcl].
      destruct (closed p) eqn:Hc.
      - specialize (Hcl eq_refl). rewrite Hres in Hcl. now inversion Hcl.
      - rewrite (Hop eq_refl) in Hres. discriminate. }
    rewrite Hr. apply tally_winner. exact Hok.
  - intros first second [[E1 E2] | [E1 E2]]; subst; vm_compute; reflexivity.
Qed.

Lemma winner_is_first_maximum_witness :
  let ds := [message (create_payload (VString "p") (VString "Q") three_options)
               "admin" 7;
             message (vote_payload (VString "p") (VNumber (of_int 2))) "alice" 8;
             message (close_payload (VString "p")) "admin" 9] in
  let r := {| tallies := cells_of_counts [0%nat; 0%nat; 1%nat];
              total_votes := 1; closed_at := 9;
              winner_index := 2; winner_option := VString "C" |} in
  first_maximum (tallies r) (winner_index r) /\
  winner_option r = nth (Z.to_nat (winner_index r)) (strings ["A"; "B"; "C"]) VUndefined.
Proof.
  intros ds r.
  refine (proj1 winner_is_first_maximum (attached willing_peer VUndefined) ds
            (VString "p")
            {| meta := {| question := VString "Q";
                          options := strings ["A"; "B"; "C"];
                          closes_at := VNull; creator := "admin";
                          created_at := 7 |};
               votes := [("alice", of_int 2)];
               closed := true; result := Some r |} r _ _ _).
  - reflexivity.
  - vm_compute. reflexivity.
  - reflexivity.
Defined.

(** ** Closing without votes *)

(* ================================================================== *)
(** * Further properties of the handlers *)

(** ** The key equality of the poll store *)

Lemma num_same_value_zero_refl : forall x, num_same_value_zero x x = true.
Proof.
  intros [| b | q]; cbn; auto using Bool.eqb_reflx, Qeq_bool_refl.
Qed.

Lemma num_same_value_zero_sym :
  forall x y, num_same_value_zero x y = num_same_value_zero y x.
Proof.
  intros [| a | p] [| b | q]; cbn; auto.
  - destruct a, b; reflexivity.
  - apply eq_true_iff_eq. rewrite !Qeq_bool_iff. split; apply Qeq_sym.
Qed.

Lemma num_same_value_zero_trans :
  forall x y z,
    num_same_value_zero x y = true -> num_same_value_zero y z = true ->
    num_same_value_zero x z = true.
Proof.
  intros [| a | p] [| b | q] [| c | r]; cbn; auto; try discriminate.
  - destruct a, b, c; auto.
  - rewrite !Qeq_bool_iff. apply Qeq_trans.
Qed.

Lemma same_value_zero_refl : forall v, same_value_zero v v = true.
Proof.
  intros [| | b | n | s | r e | r p]; cbn;
    auto using Bool.eqb_reflx, num_same_value_zero_refl, String.eqb_refl,
               Nat.eqb_refl.
Qed.

Lemma same_value_zero_sym :
  forall v w, same_value_zero v w = same_value_zero w v.
Proof.
  intros [| | a | m | s | r e | r p] [| | b | n | t | r' e' | r' p']; cbn; auto.
  - destruct a, b; reflexivity.
  - apply num_same_value_zero_sym.
  - apply String.eqb_sym.
  - apply Nat.eqb_sym.
  - apply Nat.eqb_sym.
Qed.

Lemma same_value_zero_trans :
  forall u v w,
    same_value_zero u v = true -> same_value_zero v w = true ->
    same_value_zero u w = true.
Proof.
  intros [| | a | m | s | r e | r p] [| | b | n | t | r' e' | r' p']
         [| | c | o | x | r'' e'' | r'' p'']; cbn; auto; try discriminate.
  - destruct a, b, c; auto.
  - apply num_same_value_zero_trans.
  - rewrite !String.eqb_eq. congruence.
  - rewrite !Nat.eqb_eq. congruence.
  - rewrite !Nat.eqb_eq. congruence.
Qed.

(** Writing under a key leaves what is read under another key. *)
Lemma polls_get_set_other :
  forall (ps : store) (k id : value) (p : Poll),
    same_value_zero k id = false ->
    polls_get (polls_set ps k p) id = polls_get ps id.
Proof.
  unfold polls_get, polls_set.
  induction ps as [|[k0 p0] ps IH]; intros k id p Hne; cbn.
  - now rewrite Hne.
  - destruct (same_value_zero k0 k) eqn:E; cbn.
    + destruct (same_value_zero k0 id) eqn:E'; [|reflexivity].
      rewrite same_value_zero_sym in E.
      now rewrite (same_value_zero_trans _ _ _ E E') in Hne.
    + destruct (same_value_zero k0 id); auto.
Qed.

(** What is written under a key is read under it. *)
Lemma polls_get_set_same :
  forall (ps : store) (k : value) (p : Poll),
    polls_get (polls_set ps k p) k = Some p.
Proof.
  unfold polls_get, polls_set.
  induction ps as [|[k0 p0] ps IH]; intros k p; cbn.
  - now rewrite same_value_zero_refl.
  - destruct (same_value_zero k0 k) eqn:E; cbn; rewrite E; auto.
Qed.

(** ** Handlers never touch the peer or the channel *)

Lemma frame_of_keeps :
  forall (A : Type) (m : M A), keeps_instance m -> keeps_frame m.
Proof. intros A m H this. now rewrite H. Qed.

Ltac console_state :=
  repeat match goal with
         | |- context [snd (fst (console ?l ?t))] =>
             change (snd (fst (console l t))) with (instance_after (console l) t);
             rewrite (keeps_console l t)
         end.

Lemma _onCreate_frame :
  forall payload senderHex now, keeps_frame (_onCreate payload senderHex now).
Proof.
  intros payload senderHex now this.
  unfold instance_after. rewrite _onCreate_run. cbv zeta.
  repeat match goal with
         | |- context [if ?b then _ else _] => destruct b
         end; console_state; split; reflexivity.
Qed.

Lemma _onVote_frame :
  forall payload senderHex, keeps_frame (_onVote payload senderHex).
Proof.
  intros payload senderHex this.
  unfold instance_after. rewrite _onVote_run. cbv zeta.
  destruct (nullish payload); [split; reflexivity|].
  destruct (polls_get (polls this) (get_prop payload "poll_id")) as [poll|];
    [|console_state; split; reflexivity].
  repeat match goal with
         | |- context [if ?b then _ else _] => destruct b
         end; console_state; split; reflexivity.
Qed.

Lemma _onClose_frame :
  forall payload senderHex now, keeps_frame (_onClose payload senderHex now).
Proof.
  intros payload senderHex now this.
  destruct (nullish payload) eqn:Hobj.
  { unfold instance_after, _onClose. rewrite Hobj. split; reflexivity. }
  destruct (polls_get (polls this) (get_prop payload "poll_id")) as [poll|] eqn:Hget.
  2: { rewrite (close_noop this payload senderHex now (or_introl Hget)).
       split; reflexivity. }
  destruct (closed poll) eqn:Hclosed.
  { rewrite (close_noop this payload senderHex now
               (or_intror (ex_intro _ poll (conj Hget Hclosed)))).
    split; reflexivity. }
  rewrite (proj1 (_onClose_accepted this payload senderHex now poll
                    Hobj Hget Hclosed)).
  split; reflexivity.
Qed.

Lemma _handleMessage_frame :
  forall payload key now, keeps_frame (_handleMessage payload key now).
Proof.
  intros payload key now. unfold _handleMessage.
  destruct (negb (truthy payload) || negb (truthy (get_prop payload "type")));
    [apply frame_of_keeps; auto with keeps|].
  destruct (strict_eq (get_prop payload "type") (VString "poll:create"));
    [apply _onCreate_frame|].
  destruct (strict_eq (get_prop payload "type") (VString "poll:vote"));
    [apply _onVote_frame|].
  destruct (strict_eq (get_prop payload "type") (VString "poll:close"));
    [apply _onClose_frame | apply frame_of_keeps; auto with keeps].
Qed.

Lemma deliver_frame : forall d, keeps_frame (deliver d).
Proof.
  intros d this. rewrite deliver_instance.
  destruct (strict_eq (d_channel d) (d_captured d));
    [apply _handleMessage_frame | split; reflexivity].
Qed.

(** ** What a delivery can change in the store *)

Lemma js_or_null :
  forall v, js_or v VNull = VNull \/ truthy (js_or v VNull) = true.
Proof.
  intros v. unfold js_or. destruct (truthy v) eqn:T; auto.
Qed.

Lemma _onCreate_change :
  forall this payload senderHex now,
    store_change (polls this)
                 (polls (instance_after (_onCreate payload senderHex now) this)).
Proof.
  intros this payload senderHex now.
  destruct (truthy (get_prop payload "id")) eqn:G1.
  2: { rewrite create_rejected by auto. constructor. }
  destruct (truthy (get_prop payload "question")) eqn:G2.
  2: { rewrite create_rejected by auto. constructor. }
  destruct (is_array (get_prop payload "options")) eqn:G3.
  2: { rewrite create_rejected by auto. constructor. }
  destruct (Nat.ltb_spec (List.length (array_elems (get_prop payload "options"))) 2)
    as [G4 | G4].
  { rewrite create_rejected by auto. constructor. }
  destruct (polls_has (polls this) (get_prop payload "id")) eqn:G5.
  { rewrite create_rejected by auto 6. constructor. }
  rewrite create_accepted by assumption.
  apply change_inserted; auto.
  repeat split; auto. apply js_or_null.
Qed.

Lemma _onVote_change :
  forall this payload senderHex,
    store_change (polls this)
                 (polls (instance_after (_onVote payload senderHex) this)).
Proof.
  intros this payload senderHex.
  destruct (polls_get (polls this) (get_prop payload "poll_id")) as [poll|] eqn:Hget.
  2: { rewrite vote_unknown_or_closed_is_ignored by auto. constructor. }
  destruct (closed poll) eqn:Hclosed.
  { rewrite vote_unknown_or_closed_is_ignored by eauto. constructor. }
  destruct (index_refused (List.length (options (meta poll)))
                          (get_prop payload "option_index")) eqn:G.
  { rewrite (vote_refused_index_is_ignored this payload senderHex poll) by auto.
    constructor. }
  destruct (JsMap.has String.eqb (votes poll) senderHex) eqn:Hhas.
  { rewrite (vote_duplicate_ignored this payload senderHex poll Hget Hhas).
    constructor. }
  destruct (index_accepted_is_number _ _ G) as [x Hx]. rewrite Hx in G.
  rewrite (_onVote_accepted this payload senderHex poll x) by auto.
  now apply change_updated with (p := poll).
Qed.

Lemma _onClose_change :
  forall this payload senderHex now,
    store_change (polls this)
                 (polls (instance_after (_onClose payload senderHex now) this)).
Proof.
  intros this payload senderHex now.
  destruct (nullish payload) eqn:Hobj.
  { unfold instance_after, _onClose. rewrite Hobj. constructor. }
  destruct (polls_get (polls this) (get_prop payload "poll_id")) as [poll|] eqn:Hget.
  2: { rewrite (close_noop this payload senderHex now (or_introl Hget)).
       constructor. }
  destruct (closed poll) eqn:Hclosed.
  { rewrite (close_noop this payload senderHex now
               (or_intror (ex_intro _ poll (conj Hget Hclosed)))).
    constructor. }
  rewrite (_onClose_accepted_polls this payload senderHex now poll) by auto.
  now apply change_updated with (p := poll).
Qed.

Lemma deliver_change :
  forall this d,
    store_change (polls this) (polls (instance_after (deliver d) this)).
Proof.
  intros this d. rewrite deliver_instance.
  destruct (strict_eq (d_channel d) (d_captured d)); [|constructor].
  unfold _handleMessage.
  destruct (negb (truthy (d_payload d))
            || negb (truthy (get_prop (d_payload d) "type"))); [constructor|].
  destruct (strict_eq (get_prop (d_payload d) "type") (VString "poll:create"));
    [apply _onCreate_change|].
  destruct (strict_eq (get_prop (d_payload d) "type") (VString "poll:vote"));
    [apply _onVote_change|].
  destruct (strict_eq (get_prop (d_payload d) "type") (VString "poll:close"));
    [apply _onClose_change | constructor].
Qed.

(** ** More facts about [Map] *)

Lemma keys_set_present :
  forall (K V : Type) (key_eq : K -> K -> bool) (m : JsMap.t K V) k v v',
    JsMap.get key_eq m k = Some v ->
    JsMap.keys (JsMap.set key_eq m k v') = JsMap.keys m.
Proof.
  intros K V key_eq. induction m as [|[k0 v0] m IH]; cbn; intros k v v' H;
    [discriminate|].
  destruct (key_eq k0 k); cbn; [reflexivity|].
  f_equal. eapply IH. exact H.
Qed.

Lemma get_none_keys :
  forall (K V : Type) (key_eq : K -> K -> bool) (m : JsMap.t K V) k,
    JsMap.get key_eq m k = None <->
    Forall (fun k' => key_eq k' k = false) (JsMap.keys m).
Proof.
  intros K V key_eq. induction m as [|[k0 v0] m IH]; cbn; intros k.
  - split; auto.
  - destruct (key_eq k0 k) eqn:E; split; intros H.
    + discriminate.
    + inversion H; congruence.
    + constructor; [assumption | now apply IH].
    + inversion H; subst. now apply IH.
Qed.

Lemma distinct_keys_snoc :
  forall ks k,
    distinct_keys ks ->
    Forall (fun k' => same_value_zero k' k = false) ks ->
    distinct_keys (ks ++ [k]).
Proof.
  induction ks as [|k0 ks IH]; intros k Hd Hk; cbn.
  - split; constructor.
  - destruct Hd as [Hhead Hrest]. inversion Hk; subst. split.
    + apply Forall_app. split; [assumption|]. constructor; [assumption|constructor].
    + now apply IH.
Qed.

(** ** Messages that are not handled *)

(** X1. [_handleMessage] returns at once, with the instance untouched and
    nothing printed or sent, when the payload is falsy, when it has no truthy
    [type], or when its [type] is none of [poll:create], [poll:vote] and
    [poll:close]. *)
Theorem unrecognized_message_is_dropped :
  forall (this : TracPoll) (payload : value) (key : senderKey) (now : Z),
    truthy payload = false \/
    truthy (get_prop payload "type") = false \/
    recognized (get_prop payload "type") = false ->
    _handleMessage payload key now this = (Returned tt, this, []).
Proof.
  intros this payload key now H. unfold _handleMessage.
  destruct (truthy payload) eqn:P; [|reflexivity].
  destruct (truthy (get_prop payload "type")) eqn:T; [|reflexivity].
  cbn [negb orb].
  destruct H as [H | [H | H]]; try discriminate.
  unfold recognized in H.
  apply orb_false_elim in H. destruct H as [H H3].
  apply orb_false_elim in H. destruct H as [H1 H2].
  rewrite H1, H2, H3. reflexivity.
Qed.

Lemma unrecognized_message_is_dropped_witness :
  let this := attached willing_peer VUndefined in
  _handleMessage (VObject 0 [("type", VString "poll:reopen");
                             ("poll_id", VString "p1")])
                 (KeyOther "admin") 7 this
  = (Returned tt, this, []).
Proof.
  intros this. apply unrecognized_message_is_dropped.
  right. right. reflexivity.
Defined.

(** X2. No sequence of deliveries changes [this.peer] or [this.channel],
    and deliveries whose channel is not strictly equal to the channel their
    listener was registered for (the [channel] argument of the [attach] call
    that made it, whatever [this.channel] is by now) leave the whole
    instance as it was. *)
Theorem run_keeps_peer_and_channel :
  forall (ds : list delivery) (this : TracPoll),
    peer (run ds this) = peer this /\
    channel (run ds this) = channel this /\
    (Forall (fun d => strict_eq (d_channel d) (d_captured d) = false) ds ->
     run ds this = this).
Proof.
  induction ds as [|d ds IH]; intros this; [cbn; auto|].
  cbn [run fold_left]. fold (instance_after (deliver d) this).
  fold (run ds (instance_after (deliver d) this)).
  destruct (IH (instance_after (deliver d) this)) as [P [C O]].
  destruct (deliver_frame d this) as [P' C'].
  split; [congruence|]. split; [congruence|].
  intros H. inversion H as [|? ? Hd Hds]; subst.
  assert (E : instance_after (deliver d) this = this).
  { unfold instance_after. now rewrite deliver_other_channel. }
  rewrite E in *. auto.
Qed.

Lemma run_keeps_peer_and_channel_witness :
  let this := attached willing_peer votes_channel in
  run [{| d_captured := VString "room"; d_channel := votes_channel;
          d_payload := create_payload (VString "p1") (VString "Q")
                         (VArray 1 (strings ["A"; "B"]));
          d_senderKey := KeyOther "admin"; d_now := 7 |}] this = this.
Proof.
  intros this.
  refine (proj2 (proj2 (run_keeps_peer_and_channel _ this)) _).
  repeat constructor.
Defined.



(** ** The query surface *)

Lemma store_change_keys :
  forall ps ps',
    store_change ps ps' ->
    JsMap.keys ps' = JsMap.keys ps \/
    exists id,
      JsMap.keys ps' = JsMap.keys ps ++ [id] /\
      truthy id = true /\
      Forall (fun k => same_value_zero k id = false) (JsMap.keys ps).
Proof.
  intros ps ps' [| id p Hid Hfresh Hm Hv Hc Hr | id p p' Hget Hopen Hmeta].
  - now left.
  - right. exists id. unfold polls_set, polls_has in *.
    apply JsMapFacts.has_false_get in Hfresh.
    rewrite (JsMapFacts.set_absent _ _ _ _ Hfresh).
    unfold JsMap.keys at 1. rewrite map_app. repeat split; auto.
    now apply get_none_keys.
  - left. unfold polls_set, polls_get in *.
    eapply keys_set_present. exact Hget.
Qed.

Lemma run_cons :
  forall d ds this,
    run (d :: ds) this = run ds (instance_after (deliver d) this).
Proof. reflexivity. Qed.

(** X3. [listPolls()] only ever grows at its end: after any sequence of
    deliveries it lists the ids it listed before, in the same order,
    followed by the ids created since, and one delivery adds at most one
    id. *)
Theorem listPolls_is_append_only :
  forall (ds : list delivery) (this : TracPoll),
    (exists new, listPolls (run ds this) = listPolls this ++ new /\
                 (List.length new <= List.length ds)%nat).
Proof.
  induction ds as [|d ds IH]; intros this.
  - exists []. cbn. now rewrite app_nil_r.
  - rewrite run_cons.
    destruct (IH (instance_after (deliver d) this)) as [new [E L]].
    unfold listPolls in *.
    destruct (store_change_keys _ _ (deliver_change this d)) as [K | [id [K _]]];
      rewrite K in E.
    + exists new. split; [exact E | cbn; lia].
    + exists (id :: new). rewrite <- app_assoc in E. split; [exact E | cbn; lia].
Qed.

Lemma run_keys :
  forall ds this,
    distinct_keys (listPolls this) /\
    Forall (fun id => truthy id = true) (listPolls this) ->
    distinct_keys (listPolls (run ds this)) /\
    Forall (fun id => truthy id = true) (listPolls (run ds this)).
Proof.
  induction ds as [|d ds IH]; intros this [Hd Ht]; [now split|].
  rewrite run_cons. apply IH. unfold listPolls in *.
  destruct (store_change_keys _ _ (deliver_change this d))
    as [K | [id [K [Tid Fid]]]]; rewrite K.
  - now split.
  - split; [now apply distinct_keys_snoc|].
    apply Forall_app. split; [assumption|]. constructor; [assumption|constructor].
Qed.

(** X4. In a store built by deliveries from an empty one, no two listed
    ids are the same [Map] key and every listed id is truthy. *)
Theorem listed_ids_are_distinct_and_truthy :
  forall (ds : list delivery) (this0 : TracPoll),
    polls this0 = JsMap.empty ->
    distinct_keys (listPolls (run ds this0)) /\
    Forall (fun id => truthy id = true) (listPolls (run ds this0)).
Proof.
  intros ds this0 H0.
  apply run_keys. unfold listPolls. rewrite H0. cbn. repeat split; constructor.
Qed.

Lemma listed_ids_are_distinct_and_truthy_witness :
  let ds := [message (create_payload (VString "p1") (VString "Q")
                        (VArray 1 (strings ["A"; "B"]))) "admin" 7;
             message (create_payload (VNumber (of_int 2)) (VString "Q")
                        (VArray 1 (strings ["A"; "B"]))) "admin" 8;
             message (create_payload (VString "p1") (VString "R")
                        (VArray 1 (strings ["C"; "D"]))) "admin" 9] in
  distinct_keys [VString "p1"; VNumber (of_int 2)] /\
  Forall (fun id => truthy id = true) [VString "p1"; VNumber (of_int 2)].
Proof.
  intros ds.
  exact (listed_ids_are_distinct_and_truthy ds (attached willing_peer VUndefined)
           eq_refl).
Defined.

(** ** Closing a poll nobody voted on *)

(** A store whose ids are truthy has no poll under [undefined], the id a
    payload that is no object would give. *)
Lemma nullish_prop :
  forall payload name, nullish payload = true -> get_prop payload name = VUndefined.
Proof. intros [| | b | n | s | r e | r p] name H; try discriminate; reflexivity. Qed.

Lemma get_undefined_key :
  forall ps : store,
    Forall (fun k => truthy k = true) (JsMap.keys ps) ->
    polls_get ps VUndefined = None.
Proof.
  induction ps as [|[k p] ps IH]; intros H; [reflexivity|].
  inversion H as [|? ? Hk Hks]; subst. cbn in Hk |- *.
  destruct k; try discriminate Hk; cbn; auto.
Qed.

Lemma run_from_empty_object :
  forall ds this0 payload name p,
    polls this0 = JsMap.empty ->
    polls_get (polls (run ds this0)) (get_prop payload name) = Some p ->
    nullish payload = false.
Proof.
  intros ds this0 payload name p H0 Hget.
  destruct (nullish payload) eqn:Hobj; [|reflexivity].
  rewrite (nullish_prop payload name Hobj) in Hget.
  rewrite get_undefined_key in Hget; [discriminate|].
  apply (run_keys ds this0). unfold listPolls. rewrite H0. cbn.
  repeat split; constructor.
Qed.

Lemma fold_max_zeros :
  forall k, fold_left Nat.max (repeat 0%nat k) 0%nat = 0%nat.
Proof. induction k; cbn; auto. Qed.

(** C10. In every store reached by deliveries from an empty store, closing
    an open poll that has no recorded vote succeeds: the record becomes
    closed with a result whose [tallies] are all zero, one per option,
    [total_votes] is 0, [winner_index] is 0 and [winner_option] is the
    poll's first option. *)
Theorem close_without_votes :
  forall (this0 : TracPoll) (ds : list delivery)
         (payload : value) (senderHex : string) (now : Z) (p : Poll),
    polls this0 = JsMap.empty ->
    polls_get (polls (run ds this0)) (get_prop payload "poll_id") = Some p ->
    closed p = false ->
    votes p = JsMap.empty ->
    exists p' r first rest,
      polls_get (polls (instance_after (_onClose payload senderHex now)
                                       (run ds this0)))
                (get_prop payload "poll_id") = Some p' /\
      closed p' = true /\
      result p' = Some r /\
      tallies r = repeat (Some (of_int 0)) (List.length (options (meta p))) /\
      total_votes r = 0%nat /\
      winner_index r = 0 /\
      options (meta p) = first :: rest /\
      winner_option r = first.
Proof.
  intros this0 ds payload senderHex now p H0 Hget Hopen Hvotes.
  pose proof (run_from_empty_ok ds this0 _ p H0 Hget) as [Ho _ _ _ _].
  destruct (options (meta p)) as [|first rest] eqn:Hopts; [cbn in Ho; lia|].
  exists (closed_with p (tally p now)), (tally p now), first, rest.
  assert (Hw : indexOf (count_votes (List.length (options (meta p))) (votes p))
                 (Math_max (spread (count_votes (List.length (options (meta p)))
                                                (votes p)))) = 0).
  { rewrite Hvotes, Hopts. unfold count_votes. cbn [JsMap.values map fold_left
      JsMap.empty List.length].
    rewrite zero_filled_counts. cbn [repeat].
    rewrite Math_max_counts, fold_max_zeros.
    unfold indexOf. cbn [cells_of_counts map indexOf_from].
    now rewrite num_strict_eq_of_nat. }
  split.
  { rewrite (_onClose_accepted_polls _ _ _ _ p
               (run_from_empty_object ds this0 payload _ p H0 Hget) Hget Hopen).
    unfold polls_get, polls_set. eapply JsMapFacts.get_set_hit. exact Hget. }
  split; [reflexivity|]. split; [reflexivity|].
  split.
  { cbn [tallies tally]. rewrite Hvotes, Hopts. reflexivity. }
  split.
  { cbn [total_votes tally]. rewrite Hvotes. reflexivity. }
  split; [exact Hw|]. split; [reflexivity|].
  cbn [winner_option tally]. rewrite Hw, Hopts. reflexivity.
Qed.

Lemma close_without_votes_witness :
  let ds := [message (create_payload (VString "p") (VString "Q") three_options)
               "admin" 7] in
  let this0 := attached willing_peer VUndefined in
  exists p' r first rest,
    polls_get (polls (instance_after
                        (_onClose (close_payload (VString "p")) "admin" 9)
                        (run ds this0)))
              (VString "p") = Some p' /\
    closed p' = true /\
    result p' = Some r /\
    tallies r = repeat (Some (of_int 0)) 3 /\
    total_votes r = 0%nat /\
    winner_index r = 0 /\
    strings ["A"; "B"; "C"] = first :: rest /\
    winner_option r = first.
Proof.
  intros ds this0.
  refine (close_without_votes this0 ds (close_payload (VString "p")) "admin" 9
            (fresh_poll (VString "Q") (strings ["A"; "B"; "C"]) VNull "admin" 7)
            _ _ _ _).
  - reflexivity.
  - vm_compute. reflexivity.
  - reflexivity.
  - reflexivity.
Defined.

(** X5. [getPoll(id)] answers [null] exactly when no listed id is the same
    [Map] key as [id]. *)
Theorem getPoll_null_iff_not_listed :
  forall (this : TracPoll) (id : value),
    getPoll this id = None <->
    Forall (fun k => same_value_zero k id = false) (listPolls this).
Proof.
  intros this id. unfold getPoll, listPolls, polls_get.
  rewrite <- get_none_keys.
  destruct (JsMap.get same_value_zero (polls this) id); split; congruence.
Qed.

(** X6. A create event that passes the guard can be read back at once:
    [getPoll(id)] gives the question, the options, [closes_at] (or [null] for
    a falsy one), the sender as creator and the clock reading, with no votes,
    not closed and without a result; [listPolls()] ends with the new id. *)
Theorem getPoll_after_create :
  forall (this : TracPoll) (payload : value) (senderHex : string) (now : Z),
    truthy (get_prop payload "id") = true ->
    truthy (get_prop payload "question") = true ->
    is_array (get_prop payload "options") = true ->
    (2 <= List.length (array_elems (get_prop payload "options")))%nat ->
    getPoll this (get_prop payload "id") = None ->
    let after := instance_after (_onCreate payload senderHex now) this in
    getPoll after (get_prop payload "id")
    = Some {| snap_meta :=
                {| question := get_prop payload "question";
                   options := array_elems (get_prop payload "options");
                   closes_at := js_or (get_prop payload "closes_at") VNull;
                   creator := senderHex;
                   created_at := now |};
              snap_total_votes := 0;
              snap_closed := false;
              snap_result := None |} /\
    listPolls after = listPolls this ++ [get_prop payload "id"].
Proof.
  intros this payload senderHex now H1 H2 H3 H4 H5 after.
  assert (Hnone : polls_get (polls this) (get_prop payload "id") = None).
  { unfold getPoll in H5.
    destruct (polls_get (polls this) (get_prop payload "id")); congruence. }
  assert (Hhas : polls_has (polls this) (get_prop payload "id") = false).
  { unfold polls_has. now apply JsMapFacts.has_false_get. }
  subst after. unfold getPoll, listPolls.
  rewrite (create_accepted this payload senderHex now H1 H2 H3 H4 Hhas).
  rewrite polls_get_set_same. split; [reflexivity|].
  unfold polls_set. unfold polls_get in Hnone.
  rewrite (JsMapFacts.set_absent _ _ _ _ Hnone).
  unfold JsMap.keys. now rewrite map_app.
Qed.

Lemma getPoll_after_create_witness :
  let this := attached willing_peer VUndefined in
  let payload :=
    VObject 0 [("type", VString "poll:create"); ("id", VString "p1");
               ("question", VString "Q");
               ("options", VArray 1 (strings ["A"; "B"]));
               ("closes_at", VNumber (of_int 0))] in
  let after := instance_after (_onCreate payload "admin" 7) this in
  getPoll after (VString "p1")
  = Some {| snap_meta :=
              {| question := VString "Q"; options := strings ["A"; "B"];
                 closes_at := VNull; creator := "admin"; created_at := 7 |};
            snap_total_votes := 0; snap_closed := false; snap_result := None |} /\
  listPolls after = [VString "p1"].
Proof.
  intros this payload after.
  apply (getPoll_after_create this payload "admin" 7); reflexivity.
Defined.

(** ** What stays as it is *)

Lemma store_change_meta_ok :
  forall ps ps',
    store_change ps ps' ->
    Forall (fun kp => meta_ok (meta (snd kp))) ps ->
    Forall (fun kp => meta_ok (meta (snd kp))) ps'.
Proof.
  intros ps ps' [| id p Hid Hfresh Hm Hv Hc Hr | id p p' Hget Hopen Hmeta] H.
  - exact H.
  - apply (JsMapFacts.Forall_set _ (fun q => meta_ok (meta q))); assumption.
  - apply (JsMapFacts.Forall_set _ (fun q => meta_ok (meta q))); [assumption|].
    rewrite Hmeta.
    exact (JsMapFacts.Forall_get _ (fun q => meta_ok (meta q)) _ _ _ H Hget).
Qed.

(** X7. Every record of a store built by deliveries from an empty one has a
    truthy question, at least two options, and a [closes_at] that is either
    [null] or truthy. *)
Theorem stored_meta_is_well_formed :
  forall (ds : list delivery) (this0 : TracPoll) (id : value) (p : Poll),
    polls this0 = JsMap.empty ->
    polls_get (polls (run ds this0)) id = Some p ->
    meta_ok (meta p).
Proof.
  intros ds this0 id p H0 Hget.
  assert (G : forall ds this,
             Forall (fun kp => meta_ok (meta (snd kp))) (polls this) ->
             Forall (fun kp => meta_ok (meta (snd kp))) (polls (run ds this))).
  { clear. induction ds as [|d ds IH]; intros this H; [exact H|].
    rewrite run_cons. apply IH.
    eapply store_change_meta_ok; [apply deliver_change | exact H]. }
  assert (Hall : Forall (fun kp => meta_ok (meta (snd kp))) (polls (run ds this0))).
  { apply G. rewrite H0. constructor. }
  exact (JsMapFacts.Forall_get _ (fun q => meta_ok (meta q)) _ _ _ Hall Hget).
Qed.

Lemma stored_meta_is_well_formed_witness :
  meta_ok {| question := VString "Q"; options := strings ["A"; "B"];
             closes_at := VNull; creator := "admin"; created_at := 7 |}.
Proof.
  refine (stored_meta_is_well_formed
            [message (create_payload (VString "p1") (VString "Q")
                        (VArray 1 (strings ["A"; "B"]))) "admin" 7]
            (attached willing_peer VUndefined) (VString "p1")
            (fresh_poll (VString "Q") (strings ["A"; "B"]) VNull "admin" 7) _ _).
  - reflexivity.
  - vm_compute. reflexivity.
Defined.

Lemma evolves_closed_eq :
  forall p p', evolves p p' -> closed p = true -> p' = p.
Proof.
  intros [m v c r] [m' v' c' r'] [Hm [more [Hv Hmore]] Hc _] Hclosed.
  cbn in *. destruct (Hc Hclosed) as [Hc' Hr].
  rewrite (Hmore Hclosed), app_nil_r in Hv. congruence.
Qed.

(** X8. A poll record is never lost and never rewritten: after any
    sequence of deliveries the id still names a record with the same meta,
    whose votes are the old votes followed by the ones accepted since; and
    a record that was closed is exactly the record it was, votes and result
    included. *)
Theorem polls_persist :
  forall (ds : list delivery) (this : TracPoll) (id : value) (p : Poll),
    polls_get (polls this) id = Some p ->
    exists p',
      polls_get (polls (run ds this)) id = Some p' /\
      meta p' = meta p /\
      (exists more, votes p' = votes p ++ more) /\
      (closed p = true -> p' = p).
Proof.
  induction ds as [|d ds IH]; intros this id p Hget.
  - exists p. repeat split; auto. exists []. now rewrite app_nil_r.
  - rewrite run_cons.
    destruct (store_step_evolves _ _ (deliver_step this d) id p Hget)
      as [p1 [Hget1 Hev]].
    destruct (IH _ id p1 Hget1) as [p' [Hget' [Hm [[more Hv] Hc]]]].
    exists p'. split; [exact Hget'|].
    pose proof Hev as [Hm1 [more1 [Hv1 _]] Hc1 _].
    split; [congruence|]. split.
    + exists (more1 ++ more). rewrite Hv, Hv1. now rewrite app_assoc.
    + intros Hclosed.
      pose proof (evolves_closed_eq _ _ Hev Hclosed) as E. subst p1. auto.
Qed.

Lemma polls_persist_witness :
  let this := run [message (create_payload (VString "p1") (VString "Q")
                              (VArray 1 (strings ["A"; "B"]))) "admin" 7;
                   message (close_payload (VString "p1")) "admin" 8]
                  (attached willing_peer VUndefined) in
  let later := [message (vote_payload (VString "p1") (VNumber (of_int 0))) "alice" 9;
                message (close_payload (VString "p1")) "bob" 10;
                message (create_payload (VString "p1") (VString "R")
                           (VArray 1 (strings ["C"; "D"]))) "carol" 11] in
  polls_get (polls (run later this)) (VString "p1")
  = polls_get (polls this) (VString "p1").
Proof.
  intros this later.
  destruct (polls_get (polls this) (VString "p1")) as [p|] eqn:Hget;
    [|vm_compute in Hget; discriminate].
  destruct (polls_persist later this (VString "p1") p Hget)
    as [p' [Hget' [_ [_ Hfrozen]]]].
  rewrite Hget'. f_equal. apply Hfrozen.
  vm_compute in Hget. inversion Hget. reflexivity.
Defined.

Lemma _onCreate_polls_at :
  forall this payload senderHex now,
    polls (instance_after (_onCreate payload senderHex now) this) = polls this \/
    exists p,
      polls (instance_after (_onCreate payload senderHex now) this)
      = polls_set (polls this) (get_prop payload "id") p.
Proof.
  intros this payload senderHex now.
  destruct (truthy (get_prop payload "id")) eqn:G1.
  2: { rewrite create_rejected by auto. now left. }
  destruct (truthy (get_prop payload "question")) eqn:G2.
  2: { rewrite create_rejected by auto. now left. }
  destruct (is_array (get_prop payload "options")) eqn:G3.
  2: { rewrite create_rejected by auto. now left. }
  destruct (Nat.ltb_spec (List.length (array_elems (get_prop payload "options"))) 2)
    as [G4 | G4].
  { rewrite create_rejected by auto. now left. }
  destruct (polls_has (polls this) (get_prop payload "id")) eqn:G5.
  { rewrite create_rejected by auto 6. now left. }
  right. eexists. now apply create_accepted.
Qed.

Lemma _onVote_polls_at :
  forall this payload senderHex,
    polls (instance_after (_onVote payload senderHex) this) = polls this \/
    exists p,
      polls (instance_after (_onVote payload senderHex) this)
      = polls_set (polls this) (get_prop payload "poll_id") p.
Proof.
  intros this payload senderHex.
  destruct (polls_get (polls this) (get_prop payload "poll_id")) as [poll|] eqn:Hget.
  2: { rewrite vote_unknown_or_closed_is_ignored by auto. now left. }
  destruct (closed poll) eqn:Hclosed.
  { rewrite vote_unknown_or_closed_is_ignored by eauto. now left. }
  destruct (index_refused (List.length (options (meta poll)))
                          (get_prop payload "option_index")) eqn:G.
  { rewrite (vote_refused_index_is_ignored this payload senderHex poll) by auto.
    now left. }
  destruct (JsMap.has String.eqb (votes poll) senderHex) eqn:Hhas.
  { rewrite (vote_duplicate_ignored this payload senderHex poll Hget Hhas).
    now left. }
  destruct (index_accepted_is_number _ _ G) as [x Hx]. rewrite Hx in G.
  right. eexists.
  rewrite (_onVote_accepted this payload senderHex poll x) by auto.
  reflexivity.
Qed.

Lemma _onClose_polls_at :
  forall this payload senderHex now,
    polls (instance_after (_onClose payload senderHex now) this) = polls this \/
    exists p,
      polls (instance_after (_onClose payload senderHex now) this)
      = polls_set (polls this) (get_prop payload "poll_id") p.
Proof.
  intros this payload senderHex now.
  destruct (nullish payload) eqn:Hobj.
  { left. unfold instance_after, _onClose. rewrite Hobj. reflexivity. }
  destruct (polls_get (polls this) (get_prop payload "poll_id")) as [poll|] eqn:Hget.
  2: { rewrite (close_noop this payload senderHex now (or_introl Hget)).
       now left. }
  destruct (closed poll) eqn:Hclosed.
  { rewrite (close_noop this payload senderHex now
               (or_intror (ex_intro _ poll (conj Hget Hclosed)))).
    now left. }
  right. eexists.
  now apply (_onClose_accepted_polls this payload senderHex now poll).
Qed.

(** X9. A handler touches no poll but the one its payload names: whatever
    a create, vote or close event does, [polls.get(id)] is the same before
    and after for every [id] that is not the same [Map] key as the
    payload's [id] (for a create) or [poll_id] (for a vote or a close). *)
Theorem handlers_touch_one_poll :
  forall (this : TracPoll) (payload : value) (senderHex : string) (now : Z)
         (id : value),
    (same_value_zero (get_prop payload "id") id = false ->
     polls_get (polls (instance_after (_onCreate payload senderHex now) this)) id
     = polls_get (polls this) id) /\
    (same_value_zero (get_prop payload "poll_id") id = false ->
     polls_get (polls (instance_after (_onVote payload senderHex) this)) id
     = polls_get (polls this) id /\
     polls_get (polls (instance_after (_onClose payload senderHex now) this)) id
     = polls_get (polls this) id).
Proof.
  intros this payload senderHex now id. split; [|split].
  - destruct (_onCreate_polls_at this payload senderHex now) as [E | [p E]];
      rewrite E; [reflexivity | now apply polls_get_set_other].
  - destruct (_onVote_polls_at this payload senderHex) as [E | [p E]];
      rewrite E; [reflexivity | now apply polls_get_set_other].
  - destruct (_onClose_polls_at this payload senderHex now) as [E | [p E]];
      rewrite E; [reflexivity | now apply polls_get_set_other].
Qed.

Lemma handlers_touch_one_poll_witness :
  let this := run [message (create_payload (VString "p1") (VString "Q")
                              (VArray 1 (strings ["A"; "B"]))) "admin" 7;
                   message (create_payload (VString "p2") (VString "R")
                              (VArray 1 (strings ["C"; "D"]))) "admin" 7]
                  (attached willing_peer VUndefined) in
  polls_get (polls (instance_after
                      (_onClose (close_payload (VString "p2")) "admin" 9) this))
            (VString "p1")
  = polls_get (polls this) (VString "p1").
Proof.
  intros this.
  refine (proj2 (proj2 (handlers_touch_one_poll this
                          (close_payload (VString "p2")) "admin" 9
                          (VString "p1")) _)).
  reflexivity.
Defined.

(** ** Accepted votes *)

Lemma votes_get_snoc :
  forall (vs : JsMap.t string number) (s : string) (x : number) (s' : string),
    JsMap.has String.eqb vs s = false ->
    JsMap.get String.eqb (vs ++ [(s, x)]) s'
    = if String.eqb s s' then Some x else JsMap.get String.eqb vs s'.
Proof.
  induction vs as [|[k v] vs IH]; intros s x s' Hfresh; cbn; [reflexivity|].
  apply JsMapFacts.has_false_get in Hfresh. cbn in Hfresh.
  destruct (String.eqb_spec k s) as [E | N]; [discriminate|].
  apply JsMapFacts.has_false_get in Hfresh.
  rewrite (IH s x s' Hfresh).
  destruct (String.eqb_spec k s') as [E' | N']; [|reflexivity].
  subst s'. destruct (String.eqb_spec s k); [congruence | reflexivity].
Qed.

(** X10. A vote that passes the four checks (poll known, open, index let
    through by the guard, sender not recorded yet) is recorded and nothing
    else happens: afterwards the poll's [votes] give the sender that option
    index, have one entry more, give every other sender what they gave
    before; the poll is still open and no peer method has been called.  The
    handler then prints one line and returns; only when the poll id has no
    string form does it throw, while building that line, with the vote
    already recorded. *)
Theorem accepted_vote_is_recorded :
  forall (this : TracPoll) (payload : value) (senderHex : string)
         (poll : Poll) (x : number),
    polls_get (polls this) (get_prop payload "poll_id") = Some poll ->
    closed poll = false ->
    get_prop payload "option_index" = VNumber x ->
    index_refused (List.length (options (meta poll))) (VNumber x) = false ->
    JsMap.has String.eqb (votes poll) senderHex = false ->
    exists poll',
      polls_get (polls (instance_after (_onVote payload senderHex) this))
                (get_prop payload "poll_id") = Some poll' /\
      JsMap.get String.eqb (votes poll') senderHex = Some x /\
      JsMap.size (votes poll') = S (JsMap.size (votes poll)) /\
      (forall s, String.eqb senderHex s = false ->
                 JsMap.get String.eqb (votes poll') s
                 = JsMap.get String.eqb (votes poll) s) /\
      meta poll' = meta poll /\ closed poll' = false /\ result poll' = result poll /\
      completion_of (_onVote payload senderHex) this
      = (if printable (get_prop payload "poll_id") then Returned tt else Thrown) /\
      external_calls (trace_of (_onVote payload senderHex) this) = [] /\
      List.length (trace_of (_onVote payload senderHex) this)
      = (if printable (get_prop payload "poll_id") then 1%nat else 0%nat).
Proof.
  intros this payload senderHex poll x Hget Hopen Hx Hidx Hfresh.
  exists (with_vote poll senderHex x).
  split.
  { rewrite (_onVote_accepted this payload senderHex poll x) by assumption.
    unfold polls_get, polls_set. eapply JsMapFacts.get_set_hit. exact Hget. }
  rewrite with_vote_appends by assumption.
  split.
  { rewrite votes_get_snoc by assumption. now rewrite String.eqb_refl. }
  split.
  { unfold JsMap.size. rewrite length_app. cbn. lia. }
  split.
  { intros s Hs. rewrite votes_get_snoc by assumption. now rewrite Hs. }
  split; [reflexivity|]. split; [exact Hopen|]. split; [reflexivity|].
  assert (Hobj : nullish payload = false).
  { apply (prop_defined_not_nullish payload "option_index"). congruence. }
  split; [|split; [apply _onVote_calls|]].
  all: unfold completion_of, trace_of; rewrite _onVote_run; cbv zeta.
  all: rewrite Hobj, Hget, Hopen, Hx, Hidx, Hfresh, console_run.
  all: cbn [line_values forallb].
  all: destruct (printable (get_prop payload "poll_id")); reflexivity.
Qed.

Lemma accepted_vote_is_recorded_witness :
  let this := run [message (create_payload (VString "p1") (VString "Q")
                              (VArray 1 (strings ["A"; "B"]))) "admin" 7;
                   message (vote_payload (VString "p1") (VNumber (of_int 0)))
                           "alice" 8]
                  (attached willing_peer VUndefined) in
  let payload := vote_payload (VString "p1") (VNumber (of_int 1)) in
  exists poll',
    polls_get (polls (instance_after (_onVote payload "bob") this)) (VString "p1")
      = Some poll' /\
    JsMap.get String.eqb (votes poll') "bob" = Some (of_int 1).
Proof.
  intros this payload.
  destruct (accepted_vote_is_recorded this payload "bob"
              {| meta := {| question := VString "Q"; options := strings ["A"; "B"];
                            closes_at := VNull; creator := "admin";
                            created_at := 7 |};
                 votes := [("alice", of_int 0)]; closed := false; result := None |}
              (of_int 1))
    as [poll' [H1 [H2 _]]]; try reflexivity.
  exists poll'. split; assumption.
Defined.

(** ** Delivering a message twice *)

(** What two decodings of one text have in common. *)
Lemma same_json_primitive :
  forall v w, same_json v w -> primitive v = true -> w = v.
Proof. intros v w H P. destruct H; try reflexivity; discriminate. Qed.

Lemma same_json_truthy : forall v w, same_json v w -> truthy w = truthy v.
Proof. intros v w H. destruct H; reflexivity. Qed.

Lemma same_json_nullish : forall v w, same_json v w -> nullish w = nullish v.
Proof. intros v w H. destruct H; reflexivity. Qed.

Lemma same_json_is_array : forall v w, same_json v w -> is_array w = is_array v.
Proof. intros v w H. destruct H; reflexivity. Qed.

Lemma same_json_length :
  forall v w,
    same_json v w ->
    List.length (array_elems w) = List.length (array_elems v).
Proof.
  intros v w H. destruct H; try reflexivity.
  cbn. symmetry. eapply Forall2_length. eassumption.
Qed.

Lemma same_json_index_refused :
  forall n v w, same_json v w -> index_refused n w = index_refused n v.
Proof. intros n v w H. destruct H; reflexivity. Qed.

Lemma same_json_type :
  forall v w s, same_json v w -> strict_eq w (VString s) = strict_eq v (VString s).
Proof. intros v w s H. destruct H; reflexivity. Qed.

Lemma same_json_get_prop :
  forall v w name, same_json v w -> same_json (get_prop v name) (get_prop w name).
Proof.
  intros v w name H. destruct H as [| | | | | |r r' props props' H];
    cbn; try constructor.
  induction H as [|[k a] [k' b] props props' [Hk Hs] _ IH]; cbn in *.
  - constructor.
  - subst k'. destruct (String.eqb k name); assumption.
Qed.

Lemma same_json_key :
  forall v w name,
    same_json v w -> primitive (get_prop v name) = true ->
    get_prop w name = get_prop v name.
Proof.
  intros v w name H P. apply same_json_primitive; [|exact P].
  now apply same_json_get_prop.
Qed.

Lemma _onCreate_twice :
  forall this payload payload' senderHex now now',
    same_json payload payload' ->
    primitive (get_prop payload "id") = true ->
    let this1 := instance_after (_onCreate payload senderHex now) this in
    instance_after (_onCreate payload' senderHex now') this1 = this1.
Proof.
  intros this payload payload' senderHex now now' Hsame Hprim this1. subst this1.
  pose proof (same_json_key _ _ "id" Hsame Hprim) as Jid.
  pose proof (same_json_truthy _ _ (same_json_get_prop _ _ "question" Hsame)) as Jq.
  pose proof (same_json_is_array _ _ (same_json_get_prop _ _ "options" Hsame)) as Ja.
  pose proof (same_json_length _ _ (same_json_get_prop _ _ "options" Hsame)) as Jl.
  assert (Hdrop : forall t n,
            truthy (get_prop payload "id") = false \/
            truthy (get_prop payload "question") = false \/
            is_array (get_prop payload "options") = false \/
            (List.length (array_elems (get_prop payload "options")) < 2)%nat \/
            polls_has (polls t) (get_prop payload "id") = true ->
            instance_after (_onCreate payload' senderHex n) t = t).
  { intros t n H. apply create_rejected. rewrite Jid, Jq, Ja, Jl. exact H. }
  destruct (truthy (get_prop payload "id")) eqn:G1.
  2: { rewrite (create_rejected this payload) by auto. apply Hdrop. auto. }
  destruct (truthy (get_prop payload "question")) eqn:G2.
  2: { rewrite (create_rejected this payload) by auto. apply Hdrop. auto. }
  destruct (is_array (get_prop payload "options")) eqn:G3.
  2: { rewrite (create_rejected this payload) by auto. apply Hdrop. auto. }
  destruct (Nat.ltb_spec (List.length (array_elems (get_prop payload "options"))) 2)
    as [G4 | G4].
  { rewrite (create_rejected this payload) by auto. apply Hdrop. auto. }
  apply Hdrop. do 4 right.
  destruct (polls_has (polls this) (get_prop payload "id")) eqn:G5.
  - rewrite create_rejected by auto 6. exact G5.
  - rewrite create_accepted by assumption.
    unfold polls_has, JsMap.has. fold (polls_get (polls_set (polls this)
      (get_prop payload "id")
      {| meta := {| question := get_prop payload "question";
                    options := array_elems (get_prop payload "options");
                    closes_at := js_or (get_prop payload "closes_at") VNull;
                    creator := senderHex; created_at := now |};
         votes := JsMap.empty; closed := false; result := None |})
      (get_prop payload "id")).
    now rewrite polls_get_set_same.
Qed.

Lemma _onVote_twice :
  forall this payload payload' senderHex,
    same_json payload payload' ->
    primitive (get_prop payload "poll_id") = true ->
    let this1 := instance_after (_onVote payload senderHex) this in
    instance_after (_onVote payload' senderHex) this1 = this1.
Proof.
  intros this payload payload' senderHex Hsame Hprim this1. subst this1.
  pose proof (same_json_key _ _ "poll_id" Hsame Hprim) as Jid.
  pose proof (fun n => same_json_index_refused n _ _
                         (same_json_get_prop _ _ "option_index" Hsame)) as Jx.
  destruct (polls_get (polls this) (get_prop payload "poll_id")) as [poll|] eqn:Hget.
  2: { rewrite (vote_unknown_or_closed_is_ignored this payload) by auto.
       apply vote_unknown_or_closed_is_ignored. rewrite Jid. auto. }
  destruct (closed poll) eqn:Hclosed.
  { rewrite (vote_unknown_or_closed_is_ignored this payload) by eauto.
    apply vote_unknown_or_closed_is_ignored. rewrite Jid. eauto. }
  destruct (index_refused (List.length (options (meta poll)))
                          (get_prop payload "option_index")) eqn:G.
  { rewrite (vote_refused_index_is_ignored this payload senderHex poll) by auto.
    apply (vote_refused_index_is_ignored this payload' senderHex poll).
    - now rewrite Jid.
    - now rewrite Jx. }
  destruct (JsMap.has String.eqb (votes poll) senderHex) eqn:Hhas.
  { rewrite (vote_duplicate_ignored this payload senderHex poll Hget Hhas).
    apply (vote_duplicate_ignored this payload' senderHex poll); [|exact Hhas].
    now rewrite Jid. }
  destruct (index_accepted_is_number _ _ G) as [x Hx]. rewrite Hx in G.
  apply (vote_duplicate_ignored _ payload' senderHex (with_vote poll senderHex x)).
  - rewrite Jid.
    rewrite (_onVote_accepted this payload senderHex poll x) by auto.
    unfold polls_get, polls_set. eapply JsMapFacts.get_set_hit. exact Hget.
  - rewrite with_vote_appends by assumption. unfold JsMap.has.
    rewrite votes_get_snoc by assumption. now rewrite String.eqb_refl.
Qed.

Lemma _onClose_twice :
  forall this payload payload' senderHex now now',
    same_json payload payload' ->
    primitive (get_prop payload "poll_id") = true ->
    let this1 := instance_after (_onClose payload senderHex now) this in
    instance_after (_onClose payload' senderHex now') this1 = this1.
Proof.
  intros this payload payload' senderHex now now' Hsame Hprim this1. subst this1.
  pose proof (same_json_key _ _ "poll_id" Hsame Hprim) as Jid.
  destruct (nullish payload) eqn:Hobj.
  { pose proof (same_json_nullish _ _ Hsame) as Jn. rewrite Hobj in Jn.
    unfold instance_after, _onClose. rewrite Hobj, Jn. reflexivity. }
  destruct (polls_get (polls this) (get_prop payload "poll_id")) as [poll|] eqn:Hget.
  2: { rewrite (close_noop this payload senderHex now (or_introl Hget)).
       apply close_noop. rewrite Jid. auto. }
  destruct (closed poll) eqn:Hclosed.
  { rewrite (close_noop this payload senderHex now
               (or_intror (ex_intro _ poll (conj Hget Hclosed)))).
    apply close_noop. rewrite Jid. eauto. }
  apply close_noop. right. exists (closed_with poll (tally poll now)).
  split; [|reflexivity]. rewrite Jid.
  rewrite (_onClose_accepted_polls this payload senderHex now poll) by auto.
  unfold polls_get, polls_set. eapply JsMapFacts.get_set_hit. exact Hget.
Qed.

(** X11. A message that is delivered a second time to the same listener
    (the same text, decoded afresh, at whatever clock reading) changes
    nothing when the id it names is not an object: the instance after the
    second delivery is the instance after the first, for every message
    (create, vote, close or anything else) and every instance.  An object
    as id is another [Map] key each time it is decoded: the same create
    event delivered twice then leaves two polls. *)
Theorem redelivery_changes_nothing :
  (forall (d : delivery) (payload' : value) (now' : Z) (this : TracPoll),
      same_json (d_payload d) payload' ->
      primitive (get_prop (d_payload d) "id") = true ->
      primitive (get_prop (d_payload d) "poll_id") = true ->
      instance_after (deliver (delivered_again d payload' now'))
                     (instance_after (deliver d) this)
      = instance_after (deliver d) this) /\
  (let first := create_payload (VObject 1 []) (VString "Q")
                  (VArray 2 (strings ["A"; "B"])) in
   let second := create_payload (VObject 3 []) (VString "Q")
                   (VArray 4 (strings ["A"; "B"])) in
   let d := message first "admin" 7 in
   same_json first second /\
   listPolls (run [d; delivered_again d second 8] (attached willing_peer VUndefined))
   = [VObject 1 []; VObject 3 []]).
Proof.
  split.
  - intros d payload' now' this Hsame Hid Hpid.
    rewrite (deliver_instance (delivered_again d payload' now')).
    cbn [delivered_again d_channel d_captured d_payload d_senderKey d_now].
    rewrite deliver_instance.
    destruct (strict_eq (d_channel d) (d_captured d)) eqn:C; [|reflexivity].
    unfold _handleMessage.
    rewrite (same_json_truthy _ _ Hsame).
    rewrite (same_json_truthy _ _ (same_json_get_prop _ _ "type" Hsame)).
    rewrite !(same_json_type _ _ _ (same_json_get_prop _ _ "type" Hsame)).
    destruct (negb (truthy (d_payload d))
              || negb (truthy (get_prop (d_payload d) "type"))); [reflexivity|].
    destruct (strict_eq (get_prop (d_payload d) "type") (VString "poll:create"));
      [now apply _onCreate_twice|].
    destruct (strict_eq (get_prop (d_payload d) "type") (VString "poll:vote"));
      [now apply _onVote_twice|].
    destruct (strict_eq (get_prop (d_payload d) "type") (VString "poll:close"));
      [now apply _onClose_twice | reflexivity].
  - cbv zeta. split; [|vm_compute; reflexivity].
    repeat (constructor; cbn [fst snd]; try (split; [reflexivity|])).
Qed.

Lemma redelivery_changes_nothing_witness :
  let d := message (vote_payload (VString "p1") (VNumber (of_int 0))) "alice" 8 in
  let this := run [message (create_payload (VString "p1") (VString "Q")
                              (VArray 1 (strings ["A"; "B"]))) "admin" 7]
                  (attached willing_peer VUndefined) in
  instance_after
    (deliver (delivered_again d
                (VObject 9 [("type", VString "poll:vote");
                            ("poll_id", VString "p1");
                            ("option_index", VNumber (of_int 0))]) 12))
    (instance_after (deliver d) this)
  = instance_after (deliver d) this.
Proof.
  intros d this.
  refine (proj1 redelivery_changes_nothing d _ 12 this _ _ _).
  - repeat (constructor; cbn [fst snd]; try (split; [reflexivity|])).
  - reflexivity.
  - reflexivity.
Defined.

(** ** The commit under any peer *)

(** X12. A close that passes validation, under any peer and whatever its
    calls answer: the record is closed with its result, and every effect of
    the handler sees it so.  When the poll id, the options and the winner
    option have a string form, the handler prints the lines for the poll and
    then follows one of the commit outcomes; when one of them has none, it
    throws while building a line and calls no peer method.  So the calls
    that leave the process are none, the broadcast alone (no
    [contractPut]), the meta write alone (it was rejected), both writes (the
    second was rejected or there is no [sendSidechannel]), or both writes
    and the broadcast: the result is never written before the meta, and
    never broadcast after a rejected write. *)
Theorem close_under_any_peer :
  forall (this : TracPoll) (payload : value) (senderHex : string) (now : Z)
         (poll : Poll),
    nullish payload = false ->
    polls_get (polls this) (get_prop payload "poll_id") = Some poll ->
    closed poll = false ->
    let poll_id := get_prop payload "poll_id" in
    let r := tally poll now in
    let put_meta := ContractPut (meta_key poll_id) (meta_doc_of poll) in
    let put_result := ContractPut (result_key poll_id) (ResultDoc r) in
    let send := SendSidechannel (channel this) (announcement_of poll_id poll r) in
    let calls := external_calls (trace_of (_onClose payload senderHex now) this) in
    polls_get (polls (instance_after (_onClose payload senderHex now) this)) poll_id
    = Some (closed_with poll r) /\
    Forall (fun o => polls_get (seen o) poll_id = Some (closed_with poll r))
           (trace_of (_onClose payload senderHex now) this) /\
    (lines_printable poll_id poll r = true ->
     exists effs,
       commit_outcome this poll_id poll r
         (completion_of (_onClose payload senderHex now) this) effs /\
       map what (trace_of (_onClose payload senderHex now) this)
       = Console (Log_closed poll_id)
         :: option_lines (options (meta poll)) (tallies r)
         ++ Console (Log_winner (winner_option r)
                       (element_at (tallies r) (winner_index r) None))
         :: effs) /\
    (lines_printable poll_id poll r = false ->
     completion_of (_onClose payload senderHex now) this = Thrown /\
     calls = []) /\
    (calls = [] \/ calls = [send] \/ calls = [put_meta] \/
     calls = [put_meta; put_result] \/ calls = [put_meta; put_result; send]).
Proof.
  intros this payload senderHex now poll Hobj Hget Hopen
         poll_id r put_meta put_result send calls.
  assert (Hps : polls_get (polls_set (polls this) poll_id (closed_with poll r))
                          poll_id = Some (closed_with poll r)).
  { unfold polls_get, polls_set. eapply JsMapFacts.get_set_hit. exact Hget. }
  destruct (_onClose_accepted this payload senderHex now poll Hobj Hget Hopen)
    as [Hinst Hseen].
  fold poll_id r in Hinst, Hseen.
  split; [rewrite Hinst; exact Hps|].
  split.
  { eapply Forall_impl; [|exact Hseen]. cbn beta. intros o Ho. now rewrite Ho. }
  subst calls. unfold trace_of, completion_of.
  destruct (_onClose_accepted_run this payload senderHex now poll Hobj Hget Hopen)
    as [[Hp [c [effs [Hout E]]]] | [Hp [t [E [_ Hext]]]]];
    fold poll_id r in Hp, E; try fold poll_id r in Hout;
    rewrite E; cbn [fst snd]; rewrite Hp.
  - split.
    { intros _. exists effs. split; [exact Hout|].
      rewrite map_map. cbn [observe what]. now rewrite map_id. }
    split; [discriminate|].
    rewrite close_trace_external.
    destruct Hout as [c effs Hput Hb | put Hput H1 | put Hput H1 H2
                      | put c effs Hput H1 H2 Hb];
      cbn [filter is_external]; try destruct Hb; cbn [filter is_external]; auto 6.
  - split; [discriminate|]. split; [auto|]. left. exact Hext.
Qed.

Lemma close_under_any_peer_witness :
  let opts := [VObject 5 [("toString", VNull)]; VString "B"] in
  let this := run [message (create_payload (VString "p1") (VString "Q")
                              (VArray 1 opts)) "admin" 7]
                  (attached willing_peer VUndefined) in
  let poll := fresh_poll (VString "Q") opts VNull "admin" 7 in
  polls_get (polls (instance_after
                      (_onClose (close_payload (VString "p1")) "admin" 9) this))
            (VString "p1")
  = Some (closed_with poll (tally poll 9)) /\
  completion_of (_onClose (close_payload (VString "p1")) "admin" 9) this = Thrown /\
  external_calls (trace_of (_onClose (close_payload (VString "p1")) "admin" 9) this)
  = [].
Proof.
  intros opts this poll.
  pose proof (close_under_any_peer this (close_payload (VString "p1"))
                "admin" 9 poll eq_refl eq_refl eq_refl) as H.
  split; [exact (proj1 H)|].
  exact (proj1 (proj2 (proj2 (proj2 H))) eq_refl).
Defined.

(** ** Who reaches the peer *)

Lemma truthy_not_nullish : forall v, truthy v = true -> nullish v = false.
Proof. intros [| | b | n | s | r e | r p] H; try discriminate; reflexivity. Qed.

Lemma _onClose_loud_only_when_open :
  forall this payload senderHex now,
    external_calls (trace_of (_onClose payload senderHex now) this) <> [] ->
    exists poll,
      polls_get (polls this) (get_prop payload "poll_id") = Some poll /\
      closed poll = false /\
      (put_method this <> None \/ send_method this <> None).
Proof.
  intros this payload senderHex now Hloud.
  destruct (nullish payload) eqn:Hobj.
  { unfold trace_of, _onClose in Hloud. rewrite Hobj in Hloud. now elim Hloud. }
  destruct (polls_get (polls this) (get_prop payload "poll_id")) as [poll|] eqn:Hget.
  2: { elim Hloud. apply (close_ignored this payload senderHex now). auto. }
  destruct (closed poll) eqn:Hclosed.
  { elim Hloud. apply (close_ignored this payload senderHex now). eauto. }
  exists poll. repeat split; auto.
  unfold trace_of in Hloud.
  destruct (_onClose_accepted_run this payload senderHex now poll Hobj Hget Hclosed)
    as [[_ [c [effs [Hout Hrun]]]] | [_ [t [Hrun [_ Hext]]]]];
    rewrite Hrun in Hloud; cbn [snd] in Hloud; [|now elim Hloud].
  rewrite close_trace_external in Hloud.
  destruct Hout as [c effs Hput Hb | put Hput H1 | put Hput H1 H2
                    | put c effs Hput H1 H2 Hb];
    try (left; congruence).
  destruct Hb as [Hsend | send Hsend Hs | send Hsend Hs];
    try (right; congruence).
  now elim Hloud.
Qed.

Lemma _handleMessage_loud :
  forall this payload key now,
    external_calls (trace_of (_handleMessage payload key now) this) <> [] ->
    strict_eq (get_prop payload "type") (VString "poll:close") = true /\
    exists poll,
      polls_get (polls this) (get_prop payload "poll_id") = Some poll /\
      closed poll = false /\
      (put_method this <> None \/ send_method this <> None).
Proof.
  intros this payload key now. unfold _handleMessage.
  destruct (negb (truthy payload) || negb (truthy (get_prop payload "type")));
    [intros H; now elim H|].
  destruct (strict_eq (get_prop payload "type") (VString "poll:create")).
  { intros H. elim H. apply _onCreate_calls. }
  destruct (strict_eq (get_prop payload "type") (VString "poll:vote")).
  { intros H. elim H. apply _onVote_calls. }
  destruct (strict_eq (get_prop payload "type") (VString "poll:close"));
    [|intros H; now elim H].
  intros H. split; [reflexivity|].
  eapply _onClose_loud_only_when_open. exact H.
Qed.

Lemma deliver_trace :
  forall d this,
    external_calls (trace_of (deliver d) this)
    = if strict_eq (d_channel d) (d_captured d)
      then external_calls
             (trace_of (_handleMessage (d_payload d) (d_senderKey d) (d_now d))
                       this)
      else [].
Proof.
  intros d this. unfold deliver, on_message, trace_of.
  destruct (strict_eq (d_channel d) (d_captured d)); [|reflexivity].
  cbn [negb].
  destruct (_handleMessage (d_payload d) (d_senderKey d) (d_now d) this)
    as [[[u|] this'] t]; cbn [snd]; [reflexivity|].
  rewrite external_calls_app. cbn. now rewrite app_nil_r.
Qed.

Lemma deliver_loud :
  forall d this,
    external_calls (trace_of (deliver d) this) <> [] ->
    strict_eq (d_channel d) (d_captured d) = true /\
    strict_eq (get_prop (d_payload d) "type") (VString "poll:close") = true /\
    exists poll,
      polls_get (polls this) (get_prop (d_payload d) "poll_id") = Some poll /\
      closed poll = false /\
      (put_method this <> None \/ send_method this <> None).
Proof.
  intros d this. rewrite deliver_trace.
  destruct (strict_eq (d_channel d) (d_captured d)); [|intros H; now elim H].
  intros H. split; [reflexivity|]. now apply _handleMessage_loud in H.
Qed.

Lemma deliver_returns :
  forall d this, completion_of (deliver d) this = Returned tt.
Proof.
  intros d this. unfold deliver, on_message, completion_of.
  destruct (negb (strict_eq (d_channel d) (d_captured d))); [reflexivity|].
  destruct (_handleMessage (d_payload d) (d_senderKey d) (d_now d) this)
    as [[[u|] this'] t]; reflexivity.
Qed.

(** X13. The listener never lets a failure out, and the peer is reached
    only by a close of an open poll: a delivery makes a [contractPut] or
    [sendSidechannel] call only if it is on the channel its listener was
    registered for, its type is [poll:close], its [poll_id] names a poll
    that is open, and the peer has one of the two methods; create and vote
    events never call the peer. *)
Theorem only_a_close_of_an_open_poll_reaches_the_peer :
  forall (d : delivery) (this : TracPoll),
    completion_of (deliver d) this = Returned tt /\
    (external_calls (trace_of (deliver d) this) <> [] ->
     strict_eq (d_channel d) (d_captured d) = true /\
     strict_eq (get_prop (d_payload d) "type") (VString "poll:close") = true /\
     exists poll,
       polls_get (polls this) (get_prop (d_payload d) "poll_id") = Some poll /\
       closed poll = false /\
       (put_method this <> None \/ send_method this <> None)).
Proof.
  intros d this. split; [apply deliver_returns | apply deliver_loud].
Qed.

Lemma only_a_close_of_an_open_poll_reaches_the_peer_witness :
  let this := run [message (create_payload (VString "p1") (VString "Q")
                              (VArray 1 (strings ["A"; "B"]))) "admin" 7]
                  (attached willing_peer VUndefined) in
  let d := message (close_payload (VString "p1")) "admin" 9 in
  exists poll,
    polls_get (polls this) (VString "p1") = Some poll /\
    closed poll = false /\
    (put_method this <> None \/ send_method this <> None).
Proof.
  intros this d.
  refine (proj2 (proj2 (proj2 (only_a_close_of_an_open_poll_reaches_the_peer
                                 d this) _))).
  vm_compute. discriminate.
Defined.

Lemma run_keeps_closed :
  forall (ds : list delivery) (this : TracPoll) (id : value) (p : Poll),
    polls_get (polls this) id = Some p ->
    closed p = true ->
    polls_get (polls (run ds this)) id = Some p.
Proof.
  induction ds as [|d ds IH]; intros this id p Hget Hclosed; [exact Hget|].
  rewrite run_cons. apply IH; [|exact Hclosed].
  destruct (store_step_evolves _ _ (deliver_step this d) id p Hget)
    as [p1 [Hget1 Hev]].
  now rewrite <- (evolves_closed_eq _ _ Hev Hclosed).
Qed.

Lemma deliver_close_run :
  forall d this,
    strict_eq (d_channel d) (d_captured d) = true ->
    truthy (d_payload d) = true ->
    get_prop (d_payload d) "type" = VString "poll:close" ->
    deliver d this
    = match _onClose (d_payload d) (sender_hex (d_senderKey d)) (d_now d) this with
      | (Returned _, this', t) => (Returned tt, this', t)
      | (Thrown, this', t) =>
          (Returned tt, this', t ++ [observe (polls this') (Console Error_handler)])
      end.
Proof.
  intros d this Hch Hp Ht. unfold deliver, on_message, _handleMessage.
  rewrite Hch, Hp, Ht. reflexivity.
Qed.

(** X14. A commit that fails is final.  When a close of an open poll is
    delivered and the peer's [contractPut] rejects the meta write or the
    result write, the listener prints the error and returns; the poll is
    closed locally with its result; only the write or writes up to the
    rejected one have been made, and no broadcast (no write at all when the
    handler already threw while printing the result, for want of a string
    form of the poll id, an option or the winner); and whatever is
    delivered afterwards, no later message for that poll makes any call to
    the peer, so the write is never tried again. *)
Theorem failed_commit_is_never_retried :
  forall (this : TracPoll) (d : delivery) (poll : Poll)
         (put : template -> document -> bool)
         (ds : list delivery) (d' : delivery),
    let poll_id := get_prop (d_payload d) "poll_id" in
    let r := tally poll (d_now d) in
    let after := instance_after (deliver d) this in
    let put_meta := ContractPut (meta_key poll_id) (meta_doc_of poll) in
    let put_result := ContractPut (result_key poll_id) (ResultDoc r) in
    strict_eq (d_channel d) (d_captured d) = true ->
    truthy (d_payload d) = true ->
    get_prop (d_payload d) "type" = VString "poll:close" ->
    polls_get (polls this) poll_id = Some poll ->
    closed poll = false ->
    put_method this = Some put ->
    put (meta_key poll_id) (meta_doc_of poll) = false \/
    put (result_key poll_id) (ResultDoc r) = false ->
    completion_of (deliver d) this = Returned tt /\
    polls_get (polls after) poll_id = Some (closed_with poll r) /\
    (exists t, trace_of (deliver d) this
               = t ++ [observe (polls after) (Console Error_handler)]) /\
    (lines_printable poll_id poll r = true ->
     external_calls (trace_of (deliver d) this) = [put_meta] \/
     external_calls (trace_of (deliver d) this) = [put_meta; put_result]) /\
    (lines_printable poll_id poll r = false ->
     external_calls (trace_of (deliver d) this) = []) /\
    (get_prop (d_payload d') "poll_id" = poll_id ->
     external_calls (trace_of (deliver d') (run ds after)) = []).
Proof.
  intros this d poll put ds d' poll_id r after put_meta put_result
         Hch Hp Ht Hget Hopen Hput Hrej.
  pose proof (truthy_not_nullish _ Hp) as Hobj.
  assert (Hps : polls_get (polls_set (polls this) poll_id (closed_with poll r))
                          poll_id = Some (closed_with poll r)).
  { unfold polls_get, polls_set. eapply JsMapFacts.get_set_hit. exact Hget. }
  assert (Hd : exists t,
             deliver d this
             = (Returned tt,
                with_polls this (polls_set (polls this) poll_id
                                   (closed_with poll r)),
                t ++ [observe (polls_set (polls this) poll_id
                                 (closed_with poll r))
                              (Console Error_handler)]) /\
             (lines_printable poll_id poll r = true ->
              external_calls t = [put_meta] \/
              external_calls t = [put_meta; put_result]) /\
             (lines_printable poll_id poll r = false -> external_calls t = [])).
  { rewrite (deliver_close_run d this Hch Hp Ht).
    destruct (_onClose_accepted_run this (d_payload d)
                (sender_hex (d_senderKey d)) (d_now d) poll Hobj Hget Hopen)
      as [[Hl [c [effs [Hout Hrun]]]] | [Hl [t [Hrun [_ Hext]]]]];
      fold poll_id r in Hl, Hrun; try fold poll_id r in Hout;
      rewrite Hrun, Hl.
    - assert (Hcases : c = Thrown /\
                       (filter is_external effs = [put_meta] \/
                        filter is_external effs = [put_meta; put_result])).
      { destruct Hout as [c effs Hnone Hb | put0 Hput0 H1 | put0 Hput0 H1 H2
                          | put0 c effs Hput0 H1 H2 Hb].
        - congruence.
        - split; [reflexivity | now left].
        - split; [reflexivity | now right].
        - assert (put0 = put) by congruence. subst put0.
          destruct Hrej; congruence. }
      destruct Hcases as [-> Hcalls].
      eexists. split; [reflexivity|]. split; [|discriminate].
      intros _. rewrite close_trace_external. exact Hcalls.
    - eexists. split; [reflexivity|]. split; [discriminate | auto]. }
  destruct Hd as [t [Hd [Hcalls Hnone]]].
  assert (Hafter : polls after
                   = polls_set (polls this) poll_id (closed_with poll r)).
  { subst after. unfold instance_after. now rewrite Hd. }
  assert (Hext : external_calls (trace_of (deliver d) this) = external_calls t).
  { unfold trace_of. rewrite Hd. cbn [snd].
    rewrite external_calls_app. cbn. now rewrite app_nil_r. }
  split; [apply deliver_returns|].
  split; [now rewrite Hafter|].
  split.
  { unfold trace_of. rewrite Hd, Hafter. cbn [snd]. eauto. }
  rewrite Hext.
  split; [exact Hcalls|]. split; [exact Hnone|].
  intros Hsame.
  destruct (external_calls (trace_of (deliver d') (run ds after))) eqn:E;
    [reflexivity|].
  assert (Hloud : external_calls (trace_of (deliver d') (run ds after)) <> [])
    by (rewrite E; discriminate).
  apply deliver_loud in Hloud.
  destruct Hloud as [_ [_ [poll' [Hget' [Hopen' _]]]]].
  rewrite Hsame in Hget'.
  rewrite (run_keeps_closed ds after poll_id (closed_with poll r)) in Hget'.
  - inversion Hget'; subst poll'. discriminate Hopen'.
  - now rewrite Hafter.
  - reflexivity.
Qed.

Lemma failed_commit_is_never_retried_witness :
  let stubborn := {| contractPut := Some (fun _ _ => false);
                     sendSidechannel := Some (fun _ _ => true) |} in
  let this := run [message (create_payload (VString "p1") (VString "Q")
                              (VArray 1 (strings ["A"; "B"]))) "admin" 7]
                  (attached stubborn VUndefined) in
  let d := message (close_payload (VString "p1")) "admin" 9 in
  let d' := message (close_payload (VString "p1")) "admin" 11 in
  external_calls (trace_of (deliver d')
                    (run [message (vote_payload (VString "p1")
                                     (VNumber (of_int 0))) "alice" 10]
                         (instance_after (deliver d) this))) = [].
Proof.
  intros stubborn this d d'.
  refine (proj2 (proj2 (proj2 (proj2 (proj2
    (failed_commit_is_never_retried this d
       (fresh_poll (VString "Q") (strings ["A"; "B"]) VNull "admin" 7)
       (fun _ _ => false) _ d' _ _ _ _ _ _ _))))) _);
    try reflexivity.
  left. reflexivity.
Defined.

(** ** The tally does not depend on the order of arrival *)

Lemma filter_length_Permutation :
  forall (A : Type) (f : A -> bool) (l1 l2 : list A),
    Permutation l1 l2 ->
    List.length (filter f l1) = List.length (filter f l2).
Proof.
  intros A f l1 l2 H. induction H as [| x l l' _ IH | x y l | l l' l'' _ IH1 _ IH2].
  - reflexivity.
  - cbn. destruct (f x); cbn; congruence.
  - cbn. destruct (f x), (f y); reflexivity.
  - congruence.
Qed.

Lemma count_votes_Permutation :
  forall n vs1 vs2,
    Permutation vs1 vs2 ->
    Forall (fun x => index_refused n (VNumber x) = false) (JsMap.values vs1) ->
    count_votes n vs1 = count_votes n vs2.
Proof.
  intros n vs1 vs2 Hperm H1.
  assert (Hvals : Permutation (JsMap.values vs1) (JsMap.values vs2))
    by (apply Permutation_map; exact Hperm).
  assert (H2 : Forall (fun x => index_refused n (VNumber x) = false)
                      (JsMap.values vs2))
    by (eapply Permutation_Forall; eauto).
  rewrite !count_votes_counts by assumption. f_equal.
  apply (nth_ext _ _ 0%nat 0%nat).
  - now rewrite !tally_counts_length.
  - intros i _. rewrite !nth_tally_counts by assumption.
    unfold votes_for. now apply filter_length_Permutation.
Qed.

(** X15. The result does not depend on the order in which the votes
    arrived: two records with the same meta whose votes are the same entries
    in any order (with option indices the vote guard lets through) get the
    same tallies, total, winner index and winner option from [_onClose]. *)
Theorem tally_ignores_arrival_order :
  forall (p1 p2 : Poll) (now : Z),
    meta p1 = meta p2 ->
    Permutation (votes p1) (votes p2) ->
    Forall (fun x => index_refused (List.length (options (meta p1))) (VNumber x)
                     = false)
           (JsMap.values (votes p1)) ->
    tally p1 now = tally p2 now.
Proof.
  intros p1 p2 now Hmeta Hperm Hok. unfold tally.
  rewrite <- Hmeta.
  rewrite <- (count_votes_Permutation _ _ _ Hperm Hok).
  unfold JsMap.size. now rewrite <- (Permutation_length Hperm).
Qed.

Lemma tally_ignores_arrival_order_witness :
  let m := {| question := VString "Q"; options := strings ["A"; "B"; "C"];
              closes_at := VNull; creator := "admin"; created_at := 7 |} in
  tally {| meta := m; votes := [("alice", of_int 2); ("bob", of_int 0);
                                ("carol", of_int 2)];
           closed := false; result := None |} 9
  = tally {| meta := m; votes := [("carol", of_int 2); ("alice", of_int 2);
                                  ("bob", of_int 0)];
             closed := false; result := None |} 9.
Proof.
  intros m. apply tally_ignores_arrival_order.
  - reflexivity.
  - cbn [votes].
    apply Permutation_sym.
    apply (Permutation_cons_app [("alice", of_int 2); ("bob", of_int 0)] []).
    rewrite app_nil_r. apply Permutation_refl.
  - repeat constructor.
Defined.

(** ** What a stored result adds up to *)

Lemma list_sum_fold_bump_at_counted :
  forall xs cs,
    Forall (fun x => index_refused (List.length cs) (VNumber x) = false) xs ->
    list_sum (fold_left bump_at xs cs)
    = (list_sum cs + List.length (filter counted xs))%nat.
Proof.
  induction xs as [|x xs IH]; intros cs H; cbn [fold_left filter]; [cbn; lia|].
  inversion H as [|? ? Hx Hxs]; subst.
  rewrite IH by now rewrite bump_at_length.
  unfold bump_at, counted.
  destruct (array_index x) as [k|] eqn:Hidx; [|reflexivity].
  rewrite list_sum_bump by (eapply accepted_index_in_range; eauto).
  cbn [List.length]. lia.
Qed.

Lemma filter_length_le :
  forall (A : Type) (f : A -> bool) (l : list A),
    (List.length (filter f l) <= List.length l)%nat.
Proof.
  intros A f l. induction l as [|x l IH]; cbn; [lia|].
  destruct (f x); cbn; lia.
Qed.

(** X16. In a store built by deliveries from an empty one, the result of a
    closed poll has one tally per option, each a whole count;
    [total_votes] is the number of recorded votes; and the tallies add up to
    the number of recorded votes whose option index is an integer, which is
    never more than [total_votes]. *)
Theorem stored_result_adds_up :
  forall (ds : list delivery) (this0 : TracPoll) (id : value) (p : Poll)
         (r : Result),
    polls this0 = JsMap.empty ->
    polls_get (polls (run ds this0)) id = Some p ->
    result p = Some r ->
    closed p = true /\
    total_votes r = JsMap.size (votes p) /\
    exists counts,
      tallies r = cells_of_counts counts /\
      List.length counts = List.length (options (meta p)) /\
      list_sum counts = List.length (filter counted (JsMap.values (votes p))) /\
      (list_sum counts <= total_votes r)%nat.
Proof.
  intros ds this0 id p r H0 Hget Hres.
  pose proof (run_from_empty_ok ds this0 id p H0 Hget) as [Ho Hv Hi Hop Hcl].
  assert (Hc : closed p = true).
  { destruct (closed p); [reflexivity|]. rewrite (Hop eq_refl) in Hres.
    discriminate. }
  assert (Hr : r = tally p (closed_at r)).
  { specialize (Hcl Hc). rewrite Hres in Hcl. now inversion Hcl. }
  split; [exact Hc|]. rewrite Hr. cbn [total_votes tallies tally].
  split; [reflexivity|].
  exists (tally_counts (List.length (options (meta p))) (votes p)).
  split; [now apply count_votes_counts|].
  split; [apply tally_counts_length|].
  assert (Hsum : list_sum (tally_counts (List.length (options (meta p))) (votes p))
                 = List.length (filter counted (JsMap.values (votes p)))).
  { unfold tally_counts. rewrite list_sum_fold_bump_at_counted
      by now rewrite repeat_length.
    now rewrite list_sum_repeat_0. }
  split; [exact Hsum|].
  rewrite Hsum. unfold JsMap.size.
  replace (List.length (votes p)) with (List.length (JsMap.values (votes p)))
    by apply length_map.
  apply filter_length_le.
Qed.

Lemma stored_result_adds_up_witness :
  let ds := [message (create_payload (VString "p1") (VString "Q")
                        (VArray 1 (strings ["A"; "B"]))) "admin" 7;
             message (vote_payload (VString "p1") (VNumber (of_int 1))) "alice" 8;
             message (vote_payload (VString "p1") (VNumber (Fin (1 # 2)))) "bob" 8;
             message (close_payload (VString "p1")) "admin" 9] in
  let r := {| tallies := cells_of_counts [0%nat; 1%nat]; total_votes := 2;
              closed_at := 9; winner_index := 1; winner_option := VString "B" |} in
  exists counts,
    tallies r = cells_of_counts counts /\
    List.length counts = 2%nat /\
    list_sum counts = 1%nat /\
    (list_sum counts <= 2)%nat.
Proof.
  intros ds r.
  refine (proj2 (proj2 (stored_result_adds_up ds (attached willing_peer VUndefined)
            (VString "p1")
            {| meta := {| question := VString "Q"; options := strings ["A"; "B"];
                          closes_at := VNull; creator := "admin"; created_at := 7 |};
               votes := [("alice", of_int 1); ("bob", Fin (1 # 2))];
               closed := true; result := Some r |} r _ _ _))).
  - reflexivity.
  - vm_compute. reflexivity.
  - reflexivity.
Defined.

(** ** Sender keys as hexadecimal strings *)

Lemma hex_of_byte_spec :
  forall b : byte,
    exists hi lo,
      hex_of_byte b = String hi (String lo EmptyString) /\
      unhex_byte hi lo = Some b /\
      is_hex_digit hi = true /\ is_hex_digit lo = true.
Proof.
  intros b. destruct b; do 2 eexists; repeat split; reflexivity.
Qed.

Lemma to_hex_cons :
  forall b bs, to_hex (b :: bs) = append (hex_of_byte b) (to_hex bs).
Proof.
  intros b bs. unfold to_hex. cbn [map String.concat].
  destruct (map hex_of_byte bs) as [|h hs] eqn:E.
  - destruct (hex_of_byte_spec b) as [hi [lo [Hb _]]]. rewrite Hb. reflexivity.
  - reflexivity.
Qed.

Lemma unhex_to_hex : forall bs, unhex (to_hex bs) = Some bs.
Proof.
  induction bs as [|b bs IH]; [reflexivity|].
  rewrite to_hex_cons.
  destruct (hex_of_byte_spec b) as [hi [lo [Hb [Hu _]]]]. rewrite Hb.
  cbn [append unhex]. now rewrite Hu, IH.
Qed.

(** X17. The hexadecimal form of a [Buffer] sender key is faithful: it has
    two characters per byte, all of them lower-case hexadecimal digits, and
    two buffers with the same form are the same buffer, so two peers with
    different key buffers are never taken for the same voter. *)
Theorem buffer_sender_hex_is_faithful :
  forall bs : list byte,
    String.length (sender_hex (KeyBuffer bs)) = (2 * List.length bs)%nat /\
    all_chars is_hex_digit (sender_hex (KeyBuffer bs)) = true /\
    (forall bs' : list byte,
        sender_hex (KeyBuffer bs) = sender_hex (KeyBuffer bs') -> bs = bs').
Proof.
  intros bs. cbn [sender_hex]. split; [|split].
  - induction bs as [|b bs IH]; [reflexivity|].
    rewrite to_hex_cons.
    destruct (hex_of_byte_spec b) as [hi [lo [Hb _]]]. rewrite Hb.
    cbn [append String.length List.length]. rewrite IH. lia.
  - induction bs as [|b bs IH]; [reflexivity|].
    rewrite to_hex_cons.
    destruct (hex_of_byte_spec b) as [hi [lo [Hb [_ [Hhi Hlo]]]]]. rewrite Hb.
    cbn [append all_chars]. now rewrite Hhi, Hlo, IH.
  - intros bs' H.
    pose proof (unhex_to_hex bs) as E. rewrite H, unhex_to_hex in E.
    now inversion E.
Qed.

Lemma buffer_sender_hex_is_faithful_witness :
  sender_hex (KeyBuffer [x0a; xff; x00]) = "0aff00" /\
  String.length (sender_hex (KeyBuffer [x0a; xff; x00])) = 6%nat.
Proof.
  split; [reflexivity|].
  exact (proj1 (buffer_sender_hex_is_faithful [x0a; xff; x00])).
Defined.

(** ** Snapshots over time *)

Lemma store_step_one_vote :
  forall ps ps',
    store_step ps ps' ->
    forall id p,
      polls_get ps id = Some p ->
      exists p',
        polls_get ps' id = Some p' /\
        evolves p p' /\
        (JsMap.size (votes p) <= JsMap.size (votes p') <= S (JsMap.size (votes p)))%nat.
Proof.
  intros ps ps' Hstep. destruct Hstep as
      [ps | ps id0 q o c cr now Hfresh Hlen
       | ps id0 p0 s x Hget Hopen Hidx Hhas
       | ps id0 p0 now Hget Hopen]; intros id p Hp.
  - exists p. split; [assumption|]. split; [apply evolves_refl | lia].
  - exists p. split; [|split; [apply evolves_refl | lia]].
    unfold polls_set, polls_has, polls_get in *.
    apply JsMapFacts.has_false_get in Hfresh.
    rewrite (JsMapFacts.set_absent _ _ _ _ Hfresh).
    now apply JsMapFacts.get_app_l.
  - unfold polls_set, polls_get in *.
    destruct (JsMapFacts.get_set_present same_value_zero ps id0 p0
                (with_vote p0 s x) Hget id p Hp) as [p' [Hp' [E | [E1 E2]]]];
      exists p'; split; auto; subst.
    + split; [apply evolves_refl | lia].
    + split; [now apply evolves_with_vote|].
      rewrite with_vote_appends by assumption.
      unfold JsMap.size. rewrite length_app. cbn. lia.
  - unfold polls_set, polls_get in *.
    destruct (JsMapFacts.get_set_present same_value_zero ps id0 p0
                (closed_with p0 (tally p0 now)) Hget id p Hp)
      as [p' [Hp' [E | [E1 E2]]]];
      exists p'; split; auto; subst.
    + split; [apply evolves_refl | lia].
    + split; [now apply evolves_closed_with|].
      unfold JsMap.size. cbn [votes closed_with]. lia.
Qed.

(** X18. What [getPoll(id)] answers changes slowly: after any one
    delivery it still answers for the id, with the same meta and a
    [total_votes] that is the old one or one more; once it has answered
    [closed = true] it answers the very same snapshot, result included. *)
Theorem getPoll_changes_slowly :
  forall (d : delivery) (this : TracPoll) (id : value) (s : Snapshot),
    getPoll this id = Some s ->
    exists s',
      getPoll (instance_after (deliver d) this) id = Some s' /\
      snap_meta s' = snap_meta s /\
      (snap_total_votes s <= snap_total_votes s' <= S (snap_total_votes s))%nat /\
      (snap_closed s = true -> s' = s).
Proof.
  intros d this id s Hs. unfold getPoll in *.
  destruct (polls_get (polls this) id) as [p|] eqn:Hget; [|discriminate].
  inversion Hs; subst s; clear Hs.
  destruct (store_step_one_vote _ _ (deliver_step this d) id p Hget)
    as [p' [Hget' [Hev Hsize]]].
  rewrite Hget'. eexists. split; [reflexivity|]. cbn.
  split; [apply Hev|]. split; [exact Hsize|].
  intros Hc. now rewrite (evolves_closed_eq _ _ Hev Hc).
Qed.

Lemma getPoll_changes_slowly_witness :
  let this := run [message (create_payload (VString "p1") (VString "Q")
                              (VArray 1 (strings ["A"; "B"]))) "admin" 7]
                  (attached willing_peer VUndefined) in
  let d := message (vote_payload (VString "p1") (VNumber (of_int 1))) "alice" 8 in
  exists s',
    getPoll (instance_after (deliver d) this) (VString "p1") = Some s' /\
    (0 <= snap_total_votes s' <= 1)%nat.
Proof.
  intros this d.
  destruct (getPoll_changes_slowly d this (VString "p1")
              {| snap_meta := {| question := VString "Q";
                                 options := strings ["A"; "B"];
                                 closes_at := VNull; creator := "admin";
                                 created_at := 7 |};
                 snap_total_votes := 0; snap_closed := false;
                 snap_result := None |} eq_refl)
    as [s' [H1 [_ [H3 _]]]].
  exists s'. split; [exact H1 | exact H3].
Defined.

(** ** Votes outside an open poll *)

(** X19. A vote for an id that names no poll, or for a poll that is
    closed, is dropped and not kept for later: the instance is as it was and
    no peer method is called.  The handler prints one warning and returns;
    it throws instead, printing nothing, when it is handed [null] or
    [undefined] as payload or a poll id without a string form. *)
Theorem vote_outside_an_open_poll_is_dropped :
  forall (this : TracPoll) (payload : value) (senderHex : string),
    (polls_get (polls this) (get_prop payload "poll_id") = None \/
     exists poll,
       polls_get (polls this) (get_prop payload "poll_id") = Some poll /\
       closed poll = true) ->
    instance_after (_onVote payload senderHex) this = this /\
    external_calls (trace_of (_onVote payload senderHex) this) = [] /\
    (nullish payload = false ->
     printable (get_prop payload "poll_id") = true ->
     exists line,
       _onVote payload senderHex this
       = (Returned tt, this, [observe (polls this) (Console line)]) /\
       (line = Warn_vote_unknown (get_prop payload "poll_id") \/
        line = Warn_vote_closed (get_prop payload "poll_id"))) /\
    (nullish payload = true \/ printable (get_prop payload "poll_id") = false ->
     _onVote payload senderHex this = (Thrown, this, [])).
Proof.
  intros this payload senderHex H.
  split; [now apply vote_unknown_or_closed_is_ignored|].
  split; [apply _onVote_calls|].
  rewrite _onVote_run. cbv zeta.
  destruct (nullish payload).
  { split; [discriminate | reflexivity]. }
  destruct H as [Hnone | [poll [Hsome Hclosed]]].
  - rewrite Hnone, console_run. cbn [line_values forallb].
    destruct (printable (get_prop payload "poll_id")); split.
    + intros _ _. eexists. split; [reflexivity | now left].
    + intros [F | F]; discriminate F.
    + intros _ F. discriminate F.
    + reflexivity.
  - rewrite Hsome, Hclosed, console_run. cbn [line_values forallb].
    destruct (printable (get_prop payload "poll_id")); split.
    + intros _ _. eexists. split; [reflexivity | now right].
    + intros [F | F]; discriminate F.
    + intros _ F. discriminate F.
    + reflexivity.
Qed.

Lemma vote_outside_an_open_poll_is_dropped_witness :
  let this := attached willing_peer VUndefined in
  let create := message (create_payload (VString "p1") (VString "Q")
                           (VArray 1 (strings ["A"; "B"]))) "admin" 8 in
  let early := vote_payload (VString "p1") (VNumber (of_int 0)) in
  option_map votes
    (polls_get (polls (instance_after (deliver create)
                         (instance_after (_onVote early "alice") this)))
               (VString "p1"))
  = Some [].
Proof.
  intros this create early.
  destruct (vote_outside_an_open_poll_is_dropped this early "alice")
    as [E _].
  - left. reflexivity.
  - rewrite E. reflexivity.
Defined.

(** ** Effects come after the change *)

Lemma console_sees :
  forall l t,
    Forall (fun o => seen o = polls (snd (fst (console l t)))) (snd (console l t)).
Proof.
  intros l t. rewrite console_run.
  destruct (forallb printable (line_values l)); repeat constructor.
Qed.

Lemma _onCreate_sees :
  forall this payload s now,
    Forall (fun o => seen o = polls (instance_after (_onCreate payload s now) this))
           (trace_of (_onCreate payload s now) this).
Proof.
  intros this payload s now. unfold instance_after, trace_of.
  rewrite _onCreate_run. cbv zeta.
  repeat match goal with
         | |- context [if ?b then _ else _] => destruct b
         end; try apply console_sees. constructor.
Qed.

Lemma _onVote_sees :
  forall this payload s,
    Forall (fun o => seen o = polls (instance_after (_onVote payload s) this))
           (trace_of (_onVote payload s) this).
Proof.
  intros this payload s. unfold instance_after, trace_of.
  rewrite _onVote_run. cbv zeta.
  destruct (nullish payload); [constructor|].
  destruct (polls_get (polls this) (get_prop payload "poll_id")) as [poll|];
    [|apply console_sees].
  repeat match goal with
         | |- context [if ?b then _ else _] => destruct b
         end; apply console_sees.
Qed.

Lemma _onClose_sees :
  forall this payload s now,
    Forall (fun o => seen o = polls (instance_after (_onClose payload s now) this))
           (trace_of (_onClose payload s now) this).
Proof.
  intros this payload s now.
  destruct (nullish payload) eqn:Hobj.
  { unfold instance_after, trace_of, _onClose. rewrite Hobj. constructor. }
  destruct (polls_get (polls this) (get_prop payload "poll_id")) as [poll|] eqn:Hget.
  2: { destruct (close_ignored this payload s now (or_introl Hget)) as [E [_ S]].
       now rewrite E. }
  destruct (closed poll) eqn:Hclosed.
  { destruct (close_ignored this payload s now
                (or_intror (ex_intro _ poll (conj Hget Hclosed)))) as [E [_ S]].
    now rewrite E. }
  destruct (_onClose_accepted this payload s now poll Hobj Hget Hclosed)
    as [E S].
  rewrite E. exact S.
Qed.

(** X20. Whatever a delivery prints or sends, it does so with the store
    already in its final state for that delivery: every effect in the trace
    of a delivery sees the store the delivery leaves. The handlers change
    the store first and talk afterwards. *)
Theorem effects_see_the_final_store :
  forall (d : delivery) (this : TracPoll),
    Forall (fun o => seen o = polls (instance_after (deliver d) this))
           (trace_of (deliver d) this).
Proof.
  intros d this.
  assert (Hhandle : forall payload key now,
    Forall (fun o => seen o
                     = polls (instance_after (_handleMessage payload key now) this))
           (trace_of (_handleMessage payload key now) this)).
  { intros payload key now. unfold _handleMessage.
    destruct (negb (truthy payload) || negb (truthy (get_prop payload "type")));
      [constructor|].
    destruct (strict_eq (get_prop payload "type") (VString "poll:create"));
      [apply _onCreate_sees|].
    destruct (strict_eq (get_prop payload "type") (VString "poll:vote"));
      [apply _onVote_sees|].
    destruct (strict_eq (get_prop payload "type") (VString "poll:close"));
      [apply _onClose_sees | constructor]. }
  specialize (Hhandle (d_payload d) (d_senderKey d) (d_now d)).
  unfold deliver, on_message, instance_after, trace_of in *.
  destruct (negb (strict_eq (d_channel d) (d_captured d))); [constructor|].
  destruct (_handleMessage (d_payload d) (d_senderKey d) (d_now d) this)
    as [[[u|] this'] t]; cbn [fst snd] in *; [exact Hhandle|].
  apply Forall_app. split; [exact Hhandle | repeat constructor].
Qed.
